(** * Conversation-aware batch execution engine: model and checked properties

    A shallow embedding of the engine of the Dify chatflow batch tester:
    - [src/dify_client.py]            the chat API client (server-sent-event
                                      stream assembly, answer and id extraction);
    - [src/conversation_manager.py]   the conversation state store;
    - [src/main.py]                   the command-line processing loop;
    - [web/backend/routes/execution.py] the web run controller and its
                                      background processing task;
    - [src/excel_handler.py]          the structural check of the loaded cases;
    - [src/config_manager.py], [web/backend/security.py]
                                      the masking of API keys.

    Python values are modelled as follows.  A [str] is a [string] (its UTF-8
    bytes); a [dict] used as a map with string keys is a [gmap string _]; a
    decoded JSON document is a [json] tree whose objects are association lists
    with one binding per key; [None] in a variable that otherwise holds a
    decoded JSON value is [JNull].  Times measured outside are rationals; a
    float that the program computes from integers is the exact value of the
    binary64 number that CPython computes (module [Float]).  Functions of the
    Python run-time whose result is fixed by the interpreter and not by this
    repository ([str.strip], [json.loads], [round] of a measured time, the
    text of built-in exceptions) are the fields of the class [PyRuntime]: a
    theorem that depends on them holds for every instance. *)

From stdpp Require Import gmap strings list fin_maps pretty sorting.
From Stdlib Require Import ZArith QArith Qround Qabs Qpower Lqa SpecFloat.

Close Scope Q_scope.
Open Scope string_scope.
Open Scope list_scope.

#[local] Set Warnings "-register-all".

(** ** Decoded JSON values *)

Module Json.

Inductive json : Type :=
| JNull
| JBool (b : bool)
| JInt (z : Z)
| JFloat (q : Q)
| JStr (s : string)
| JArr (items : list json)
| JObj (fields : list (string * json)).

(** Python truthiness ([if v:], [not v]) of a decoded value. *)
Definition truthy (v : json) : bool :=
  match v with
  | JNull => false
  | JBool b => b
  | JInt z => negb (Z.eqb z 0)
  | JFloat q => negb (Qeq_bool q 0)
  | JStr s => negb (String.eqb s "")
  | JArr items => match items with [] => false | _ => true end
  | JObj fields => match fields with [] => false | _ => true end
  end.

(** [k in d] and [d[k]] on the bindings of an object. *)
Fixpoint assoc (k : string) (fields : list (string * json)) : option json :=
  match fields with
  | [] => None
  | (k', v) :: rest => if String.eqb k k' then Some v else assoc k rest
  end.

(** [d.get(k, dflt)]; [d.get(k)] is [dict_get k JNull]. *)
Definition dict_get (k : string) (dflt : json) (fields : list (string * json)) : json :=
  match assoc k fields with
  | Some v => v
  | None => dflt
  end.

(** [v == s] for a string literal [s]. *)
Definition is_str (v : json) (s : string) : bool :=
  match v with
  | JStr s' => String.eqb s' s
  | _ => false
  end.

End Json.

Import Json.

(** ** Exceptions *)

(** The exceptions that reach the processing loops, with the text [str(e)]
    gives.  [DifyAPIError] is the client's own class; the others are raised by
    the interpreter. *)
Inductive py_exception : Type :=
| DifyAPIError (msg : string)
| AttributeError (msg : string)
| TypeError (msg : string)
| OtherException (msg : string).

Definition str_exn (e : py_exception) : string :=
  match e with
  | DifyAPIError msg | AttributeError msg | TypeError msg | OtherException msg => msg
  end.

(** Python strings are truthy when non-empty. *)
Definition str_truthy (s : string) : bool := negb (String.eqb s "").

(** ** The Python run-time *)

(** Functions whose result is fixed by the interpreter and its libraries. *)
Class PyRuntime : Type := {
  (** [str.strip()] *)
  py_strip : string -> string;
  (** [str(v)] of a decoded value that is not a string *)
  repr_other : json -> string;
  (** [json.loads]; [None] stands for [json.JSONDecodeError] *)
  json_loads : string -> option json;
  (** text of the [AttributeError] raised by [v.get] on a non-dict *)
  attribute_error_text : json -> string;
  (** text of the [TypeError] raised by [str += v] on a non-string *)
  type_error_text : json -> string;
  (** [round(x, ndigits)] on a measured time *)
  py_round : Q -> nat -> Q;
  (** text of the exception that [extract_answer] or
      [extract_conversation_id] raises on a truthy response that is not a
      dict (a list or a string has no [get]) *)
  non_dict_error_text : json -> string;
  (** text of the [json.JSONDecodeError] raised by [json.loads] *)
  json_error_text : string -> string;
  (** [len(s)] and [s[:n]], which count code points *)
  py_len : string -> nat;
  py_take : nat -> string -> string
}.

(** What one call of [DifyClient.send_chat_message] gives: an exception, or
    the response data and the response time. *)
Definition api_outcome : Type := py_exception + (json * Q).

(** ** Chat API client: [DifyClient] ([src/dify_client.py]) *)

Module DifyClient.

Section WithRuntime.
Context `{PyRuntime}.

Definition py_str (v : json) : string :=
  match v with
  | JStr s => s
  | _ => repr_other v
  end.

(** Local variables of the line loop of [_handle_streaming_response]. *)
Record stream_vars : Type := StreamVars {
  full_answer : string;
  conversation_id : json;
  message_id : json
}.

Definition stream_init : stream_vars :=
  {| full_answer := ""; conversation_id := JNull; message_id := JNull |}.

(** Outcome of the loop body on one line. *)
Inductive line_outcome : Type :=
| Continue (vars : stream_vars)
| Break (vars : stream_vars)
| Raise (e : py_exception).

(** [event_type == 'message'] branch. *)
Definition on_message (event_data : list (string * json)) (vars : stream_vars) : line_outcome :=
  match dict_get "answer" (JStr "") event_data with
  | JStr answer_chunk =>
      Continue
        {| full_answer := full_answer vars +:+ answer_chunk;
           conversation_id :=
             if truthy (conversation_id vars) then conversation_id vars
             else dict_get "conversation_id" JNull event_data;
           message_id :=
             if truthy (message_id vars) then message_id vars
             else dict_get "message_id" JNull event_data |}
  | other => Raise (TypeError (type_error_text other))
  end.

(** [event_type == 'message_end'] branch. *)
Definition on_message_end (event_data : list (string * json)) (vars : stream_vars) : line_outcome :=
  Break
    {| full_answer := full_answer vars;
       conversation_id :=
         if truthy (conversation_id vars) then conversation_id vars
         else dict_get "conversation_id" JNull event_data;
       message_id :=
         if truthy (message_id vars) then message_id vars
         else dict_get "id" JNull event_data |}.

(** [event_type == 'error'] branch. *)
Definition on_error (event_data : list (string * json)) : line_outcome :=
  Raise (DifyAPIError
           ("流式响应错误: " +:+ py_str (dict_get "message" (JStr "未知错误") event_data))).

(** Dispatch on the decoded payload of a [data: ] line. *)
Definition on_event (event_data : json) (vars : stream_vars) : line_outcome :=
  match event_data with
  | JObj fields =>
      let event_type := dict_get "event" (JStr "") fields in
      if is_str event_type "message" then on_message fields vars
      else if is_str event_type "message_end" then on_message_end fields vars
      else if is_str event_type "error" then on_error fields
      else Continue vars
  | other => Raise (AttributeError (attribute_error_text other))
  end.

(** The body of [for line in response.iter_lines(...)]. *)
Definition on_line (line : string) (vars : stream_vars) : line_outcome :=
  if String.prefix "data: " line then
    let json_str := py_strip (String.substring 6 (String.length line - 6) line) in
    if str_truthy json_str then
      match json_loads json_str with
      | Some event_data => on_event event_data vars
      | None => Continue vars
      end
    else Continue vars
  else Continue vars.

(** The line loop: stops at the first [Break] or [Raise]. *)
Fixpoint stream_loop (lines : list string) (vars : stream_vars) : py_exception + stream_vars :=
  match lines with
  | [] => inr vars
  | line :: rest =>
      match on_line line vars with
      | Continue vars' => stream_loop rest vars'
      | Break vars' => inr vars'
      | Raise e => inl e
      end
  end.

(** [_handle_streaming_response] after a 200 status: the line loop, every
    exception re-raised as a [DifyAPIError], and the merged response dict. *)
Definition _handle_streaming_response (lines : list string) : py_exception + json :=
  match stream_loop lines stream_init with
  | inl e => inl (DifyAPIError ("处理流式响应失败: " +:+ str_exn e))
  | inr vars =>
      inr (JObj [("answer", JStr (full_answer vars));
                 ("conversation_id", conversation_id vars);
                 ("message_id", message_id vars)])
  end.

(** [extract_answer] on a response dict. *)
Definition extract_answer (response_data : list (string * json)) : string :=
  match assoc "answer" response_data with
  | Some answer => py_strip (py_str answer)
  | None =>
      let fallback :=
        list_find (fun field => truthy (dict_get field JNull response_data))
                  ["message"; "content"; "text"; "response"] in
      match fallback with
      | Some (_, field) => py_strip (py_str (dict_get field JNull response_data))
      | None => ""
      end
  end.

(** [extract_conversation_id] on a response dict. *)
Definition extract_conversation_id (response_data : list (string * json)) : option string :=
  let conversation_id := dict_get "conversation_id" JNull response_data in
  if truthy conversation_id then Some (py_strip (py_str conversation_id)) else None.

(** [key in v] on a decoded value: a key of a dict, an item of a list, a
    substring of a string; on any other value the test raises [TypeError]
    ([None]). *)
Definition py_in (key : string) (v : json) : option bool :=
  match v with
  | JObj fields => Some (bool_decide (is_Some (assoc key fields)))
  | JArr items => Some (existsb (fun item => is_str item key) items)
  | JStr s => Some (bool_decide (is_Some (String.index 0 key s)))
  | _ => None
  end.

(** [extract_answer] on a truthy value that is not a dict.  On a string or
    a list the [in] tests are substring and membership tests: when none of
    the five keys is found the method returns the empty string, and when one
    is found the subscript with it raises [TypeError] ([None]), as does the
    first [in] test on a number or a bool. *)
Definition extract_answer_other (v : json) : option string :=
  match v with
  | JStr _ | JArr _ =>
      if existsb (fun key => default false (py_in key v))
                 ["answer"; "message"; "content"; "text"; "response"]
      then None else Some ""
  | _ => None
  end.

(** The message built for a status code other than 200; the bare [except]
    takes every failure of [response.json()], of the [in] test and of the
    subscript (which a list or a string refuses) to the response text. *)
Definition status_error_message (status_code : Z) (text : string) : string :=
  let error_msg := "API请求失败，状态码: " +:+ pretty status_code in
  let with_text := error_msg +:+ ("，响应内容: " +:+ py_take 200 text) in
  match json_loads text with
  | None => with_text
  | Some (JObj fields) =>
      match assoc "message" fields with
      | Some v => error_msg +:+ ("，错误信息: " +:+ py_str v)
      | None => error_msg
      end
  | Some error_data =>
      match py_in "message" error_data with
      | Some false => error_msg
      | _ => with_text
      end
  end.

(** [_validate_response]: [None] when it returns, else the exception;
    [not_iterable_text] is the text of the [TypeError] that [in] raises on a
    value that is no container. *)
Definition _validate_response (not_iterable_text : json -> string) (response_data : json)
    : option py_exception :=
  match py_in "error" response_data with
  | None => Some (TypeError (not_iterable_text response_data))
  | Some false => None
  | Some true =>
      match response_data with
      | JObj fields =>
          Some (DifyAPIError
                  ("API返回错误: " +:+ py_str (dict_get "message" (JStr "未知错误") fields)))
      | other => Some (AttributeError (attribute_error_text other))
      end
  end.

(** [_handle_blocking_response] once the request has been answered with
    [status_code] and the body [text]; [response_time] is the time taken. *)
Definition _handle_blocking_response (not_iterable_text : json -> string)
    (status_code : Z) (text : string) (response_time : Q) : api_outcome :=
  if negb (Z.eqb status_code 200) then
    inl (DifyAPIError (status_error_message status_code text))
  else
    match json_loads text with
    | None => inl (DifyAPIError ("API响应JSON解析失败: " +:+ json_error_text text))
    | Some response_data =>
        match _validate_response not_iterable_text response_data with
        | Some e => inl e
        | None => inr (response_data, response_time)
        end
    end.

(** [test_connection], from what its call of [send_chat_message] gives;
    [seconds] formats the response time. *)
Definition test_connection (seconds : Q -> string) (outcome : api_outcome) : bool * string :=
  match outcome with
  | inr (_, response_time) => (true, "连接成功，响应时间: " +:+ (seconds response_time +:+ "秒"))
  | inl (DifyAPIError msg) => (false, "连接失败: " +:+ msg)
  | inl e => (false, "连接异常: " +:+ str_exn e)
  end.

End WithRuntime.

End DifyClient.

(** ** Floats computed by the program

    A Python [float] is a binary64 number: 53 significant bits, the last of
    which weighs at least [2^-1074].  A float that the program computes from
    integers is modelled by its exact value, a rational; each operation
    gives the double nearest to the exact result, a tie going to the even
    mantissa.  The largest double (about 1.8e308) is not modelled: [nearest]
    never overflows, and no quotient or rate of this program comes near
    it. *)

Module Float.

(** Two to the power [e]. *)
Definition pow2 (e : Z) : Q := Qpower (inject_Z 2) e.

(** The integer nearest to [q], a tie going to the even one. *)
Definition half_even (q : Q) : Z :=
  let lo := Qfloor q in
  match Qcompare (Qminus q (inject_Z lo)) (1 # 2) with
  | Lt => lo
  | Gt => (lo + 1)%Z
  | Eq => if Z.even lo then lo else (lo + 1)%Z
  end.

(** For [0 < q]: the exponent [e] with [2^e <= q < 2^(e+1)]. *)
Definition binade (q : Q) : Z :=
  let k := (Z.log2 (Qnum q) - Z.log2 (Zpos (Qden q)))%Z in
  if Qle_bool (pow2 k) q then k else (k - 1)%Z.

(** For [0 < q]: the double nearest to [q], a multiple of the weight of the
    last of its 53 bits. *)
Definition nearest_positive (q : Q) : Q :=
  let e := Z.max (binade q - 52) (-1074) in
  Qred (Qmult (inject_Z (half_even (Qdiv q (pow2 e)))) (pow2 e)).

(** The double nearest to [q]. *)
Definition nearest (q : Q) : Q :=
  match Qcompare q (inject_Z 0) with
  | Eq => inject_Z 0
  | Gt => nearest_positive q
  | Lt => Qopp (nearest_positive (Qopp q))
  end.

(** [x * y] on two floats. *)
Definition mul (x y : Q) : Q := nearest (Qmult x y).

(** [round(x, ndigits)] on a float, for the small [ndigits] used here:
    CPython takes the decimal with [ndigits] places nearest to the exact
    value of [x] (a tie going to the even digit) and returns the double
    nearest to that decimal. *)
Definition round (x : Q) (ndigits : nat) : Q :=
  let scale := inject_Z (10 ^ Z.of_nat ndigits) in
  nearest (Qdiv (inject_Z (half_even (Qmult x scale))) scale).

(** The exact value of a finite floating-point number of the Standard
    Library's specification of IEEE 754, to compare [nearest] with it. *)
Definition value_of (f : spec_float) : option Q :=
  match f with
  | S754_zero _ => Some (inject_Z 0)
  | S754_finite sign mantissa exponent =>
      Some (Qred (Qmult (inject_Z (if sign then Zneg mantissa else Zpos mantissa))
                        (pow2 exponent)))
  | _ => None
  end.

(** An integer as a binary64 number of that specification. *)
Definition of_positive (n : positive) : spec_float := S754_finite false n 0.

End Float.

(** ** Numbers that are either [int] or [float] *)

Inductive py_number : Type :=
| PyInt (z : Z)
| PyFloat (x : Q).

(** [round(v, ndigits)] of a measured time: an [int] is returned as it
    is. *)
Definition round_number `{PyRuntime} (v : py_number) (ndigits : nat) : py_number :=
  match v with
  | PyInt z => PyInt z
  | PyFloat x => PyFloat (py_round x ndigits)
  end.

(** [round(v, ndigits)] of a number computed by the program: an [int] is
    returned as it is. *)
Definition round_computed (v : py_number) (ndigits : nat) : py_number :=
  match v with
  | PyInt z => PyInt z
  | PyFloat x => PyFloat (Float.round x ndigits)
  end.

(** [a / b] on two [int]s, [0 < b]: the double nearest to the quotient. *)
Definition true_div (a b : nat) : Q :=
  Float.nearest (Qdiv (inject_Z (Z.of_nat a)) (inject_Z (Z.of_nat b))).

(** ** Conversation state store: [ConversationManager]
       ([src/conversation_manager.py]) *)

Module ConversationManager.

(** One entry of a group's turn list (the dict built by [add_turn]). *)
Record turn_record : Type := TurnRecord {
  turn_number : Z;
  user_question : string;
  chatflow_reply : string;
  api_status : string;
  error_details : string;
  response_time : Q;
  timestamp : string
}.

(** Calls to [self.logger]. *)
Inductive log_call : Type :=
| LogCreated (conversation_group_id conversation_id : string)
| LogUpdated (conversation_group_id conversation_id : string)
| LogTurn (conversation_group_id : string) (turn_number : Z)
| LogCleared (conversation_group_id : string)
| LogClearedAll.

(** The three dicts of the manager, and what it has sent to its logger. *)
Record t : Type := Manager {
  _conversation_mapping : gmap string string;
  _conversation_turns : gmap string (list turn_record);
  _conversation_created_time : gmap string string;
  logged : list log_call
}.

(** [__init__] *)
Definition init : t :=
  {| _conversation_mapping := ∅;
     _conversation_turns := ∅;
     _conversation_created_time := ∅;
     logged := [] |}.

Definition get_conversation_id (self : t) (conversation_group_id : string) : option string :=
  _conversation_mapping self !! conversation_group_id.

Definition set_conversation_id (now : string) (self : t)
    (conversation_group_id conversation_id : string) : t :=
  match _conversation_mapping self !! conversation_group_id with
  | None =>
      {| _conversation_mapping := <[conversation_group_id := conversation_id]> (_conversation_mapping self);
         _conversation_turns := _conversation_turns self;
         _conversation_created_time := <[conversation_group_id := now]> (_conversation_created_time self);
         logged := logged self ++ [LogCreated conversation_group_id conversation_id] |}
  | Some _ =>
      {| _conversation_mapping := <[conversation_group_id := conversation_id]> (_conversation_mapping self);
         _conversation_turns := _conversation_turns self;
         _conversation_created_time := _conversation_created_time self;
         logged := logged self ++ [LogUpdated conversation_group_id conversation_id] |}
  end.

Definition is_new_conversation (self : t) (conversation_group_id : string) : bool :=
  bool_decide (_conversation_mapping self !! conversation_group_id = None).

Definition get_conversation_turns (self : t) (conversation_group_id : string) : list turn_record :=
  default [] (_conversation_turns self !! conversation_group_id).

Definition add_turn (now : string) (self : t) (conversation_group_id : string)
    (turn_number : Z) (user_question chatflow_reply api_status error_details : string)
    (response_time : Q) : t :=
  let turn_record :=
    {| turn_number := turn_number;
       user_question := user_question;
       chatflow_reply := chatflow_reply;
       api_status := api_status;
       error_details := error_details;
       response_time := response_time;
       timestamp := now |} in
  {| _conversation_mapping := _conversation_mapping self;
     _conversation_turns :=
       <[conversation_group_id :=
           get_conversation_turns self conversation_group_id ++ [turn_record]]>
         (_conversation_turns self);
     _conversation_created_time := _conversation_created_time self;
     logged := logged self ++ [LogTurn conversation_group_id turn_number] |}.

Definition get_last_turn (self : t) (conversation_group_id : string) : option turn_record :=
  last (get_conversation_turns self conversation_group_id).

Definition get_turn_count (self : t) (conversation_group_id : string) : nat :=
  length (get_conversation_turns self conversation_group_id).

Definition validate_turn_sequence (self : t) (conversation_group_id : string)
    (expected_turn : Z) : bool :=
  let current_turn_count := get_turn_count self conversation_group_id in
  if Nat.eqb current_turn_count 0 then Z.eqb expected_turn 1
  else Z.eqb expected_turn (Z.of_nat current_turn_count + 1).

Definition clear_conversation (self : t) (conversation_group_id : string) : t :=
  {| _conversation_mapping := delete conversation_group_id (_conversation_mapping self);
     _conversation_turns := delete conversation_group_id (_conversation_turns self);
     _conversation_created_time := delete conversation_group_id (_conversation_created_time self);
     logged := logged self ++ [LogCleared conversation_group_id] |}.

Definition clear_all_conversations (self : t) : t :=
  {| _conversation_mapping := ∅;
     _conversation_turns := ∅;
     _conversation_created_time := ∅;
     logged := logged self ++ [LogClearedAll] |}.

(** The dict returned by [get_statistics]. *)
Record statistics : Type := Statistics {
  total_conversations : nat;
  total_turns : nat;
  average_turns_per_conversation : py_number;
  successful_turns : nat;
  failed_turns : nat;
  success_rate : py_number
}.

(** [turn.get('api_status') == '成功'] *)
Definition is_success (turn : turn_record) : bool := String.eqb (api_status turn) "成功".

(** The two counters after the inner [for turn in turns] loop. *)
Fixpoint count_turns (turns : list turn_record) (counters : nat * nat) : nat * nat :=
  match turns with
  | [] => counters
  | turn :: rest =>
      let '(successful_turns, failed_turns) := counters in
      if is_success turn then count_turns rest (S successful_turns, failed_turns)
      else count_turns rest (successful_turns, S failed_turns)
  end.

(** The outer [for turns in self._conversation_turns.values()] loop. *)
Definition count_all (values : list (list turn_record)) : nat * nat :=
  foldl (fun counters turns => count_turns turns counters) (0, 0)%nat values.

(** [get_statistics]; the lists of turns are taken in the order of the map,
    which the sums and counts do not depend on. *)
Definition get_statistics (self : t) : statistics :=
  let values := (map_to_list (_conversation_turns self)).*2 in
  let total_conversations := size (_conversation_mapping self) in
  let total_turns := sum_list (length <$> values) in
  let avg_turns :=
    if Nat.ltb 0 total_conversations
    then PyFloat (true_div total_turns total_conversations) else PyInt 0 in
  let '(successful_turns, failed_turns) := count_all values in
  let success_rate :=
    if Nat.ltb 0 total_turns
    then PyFloat (Float.mul (true_div successful_turns total_turns) (inject_Z 100))
    else PyInt 0 in
  {| total_conversations := total_conversations;
     total_turns := total_turns;
     average_turns_per_conversation := round_computed avg_turns 2;
     successful_turns := successful_turns;
     failed_turns := failed_turns;
     success_rate := round_computed success_rate 2 |}.

(** Reading the store: the calls of [set_conversation_id] so far (each one
    logs once), and "an id that is stored and not empty stays stored and not
    empty" between two states of the store. *)
Definition is_set_call (c : log_call) : bool :=
  match c with
  | LogCreated _ _ | LogUpdated _ _ => true
  | _ => false
  end.

Definition set_calls (self : t) : nat := length (filter (fun c => is_set_call c = true) (logged self)).

(** The store after a piece of work: as it was, or after one
    [set_conversation_id] with an id that is not empty. *)
Definition guarded_set (now : string) (m m' : t) : Prop :=
  m' = m \/
  exists conversation_group_id conversation_id,
    conversation_id <> "" /\
    m' = set_conversation_id now m conversation_group_id conversation_id.

Definition ids_kept (before after : t) : Prop :=
  forall conversation_group_id conversation_id,
    _conversation_mapping before !! conversation_group_id = Some conversation_id ->
    conversation_id <> "" ->
    exists conversation_id',
      _conversation_mapping after !! conversation_group_id = Some conversation_id' /\
      conversation_id' <> "".

(** One value of the dict returned by [get_all_conversations]. *)
Record summary : Type := Summary {
  s_conversation_id : string;
  s_turn_count : nat;
  s_created_time : string;
  s_last_turn : option turn_record
}.

(** [get_all_conversations]: one entry per key of the id mapping. *)
Definition get_all_conversations (self : t) : gmap string summary :=
  map_imap (fun group_id conversation_id =>
              Some {| s_conversation_id := conversation_id;
                      s_turn_count := get_turn_count self group_id;
                      s_created_time :=
                        default "未知" (_conversation_created_time self !! group_id);
                      s_last_turn := get_last_turn self group_id |})
           (_conversation_mapping self).

(** The dict returned by [export_conversation_history]. *)
Record history : Type := History {
  h_conversation_group_id : string;
  h_conversation_id : option string;
  h_created_time : string;
  h_turn_count : nat;
  h_turns : list turn_record
}.

Definition export_conversation_history (self : t) (conversation_group_id : string) : history :=
  let conversation_id := get_conversation_id self conversation_group_id in
  let turns := get_conversation_turns self conversation_group_id in
  let created_time :=
    default "未知" (_conversation_created_time self !! conversation_group_id) in
  {| h_conversation_group_id := conversation_group_id;
     h_conversation_id := conversation_id;
     h_created_time := created_time;
     h_turn_count := length turns;
     h_turns := turns |}.

(** A call of one of the methods that change the store, with the clock
    reading it takes. *)
Inductive call : Type :=
| CallSetConversationId (now conversation_group_id conversation_id : string)
| CallAddTurn (now conversation_group_id : string) (turn_number : Z)
    (user_question chatflow_reply api_status error_details : string) (response_time : Q)
| CallClearConversation (conversation_group_id : string)
| CallClearAllConversations.

Definition apply_call (self : t) (c : call) : t :=
  match c with
  | CallSetConversationId now g cid => set_conversation_id now self g cid
  | CallAddTurn now g n q a s e rt => add_turn now self g n q a s e rt
  | CallClearConversation g => clear_conversation self g
  | CallClearAllConversations => clear_all_conversations self
  end.

(** The store after a sequence of calls. *)
Definition apply_calls (calls : list call) (self : t) : t := foldl apply_call self calls.

(** Every group with a session id has a creation time, and no other. *)
Definition timed (m : t) : Prop :=
  forall g, is_Some (_conversation_mapping m !! g) <-> is_Some (_conversation_created_time m !! g).

End ConversationManager.

(** ** Masking of API keys

    [DifyClient.get_api_info] ([src/dify_client.py]),
    [SecurityManager.mask_api_key] ([web/backend/security.py]) and
    [ConfigManager.get_all_config] ([src/config_manager.py]) each hide the
    middle of a key.  They slice and measure the key by code points, so here
    a key is the list of its code points, of any type [char]; [star] is the
    code point of the asterisk. *)

Module Masking.

Section WithChar.
Context {char : Type} (star : char).

(** [len(s)] *)
Definition len (s : list char) : Z := Z.of_nat (length s).

(** The slices [s[:j]] and [s[i:]] for an integer index: a negative index
    counts from the end, and both ends are clamped to the string. *)
Definition slice_to (j : Z) (s : list char) : list char :=
  if Z.ltb j 0 then take (Z.to_nat (len s + j)) s else take (Z.to_nat j) s.

Definition slice_from (i : Z) (s : list char) : list char :=
  if Z.ltb i 0 then drop (Z.to_nat (len s + i)) s else drop (Z.to_nat i) s.

(** ['*' * n]: empty when [n] is negative. *)
Definition stars (n : Z) : list char := replicate (Z.to_nat n) star.

(** The dict returned by [DifyClient.get_api_info]. *)
Record api_info : Type := ApiInfo {
  info_api_url : string;
  info_api_key : list char;
  info_timeout : Z;
  info_user_agent : string
}.

(** [get_api_info]; the arguments are the attributes of the client. *)
Definition get_api_info (api_url : string) (api_key : list char) (timeout : Z)
    (user_agent : string) : api_info :=
  let masked_api_key :=
    if Z.ltb 8 (len api_key)
    then slice_to 4 api_key ++ stars (len api_key - 8) ++ slice_from (-4) api_key
    else stars (len api_key) in
  {| info_api_url := api_url;
     info_api_key := masked_api_key;
     info_timeout := timeout;
     info_user_agent := user_agent |}.

(** [SecurityManager.mask_api_key] *)
Definition mask_api_key (api_key : list char) (show_chars : Z) : list char :=
  match api_key with
  | [] => []
  | _ =>
      if Z.leb (len api_key) (show_chars * 2) then stars (len api_key)
      else slice_to show_chars api_key
             ++ stars (len api_key - show_chars * 2)
             ++ slice_from (- show_chars) api_key
  end.

(** [ConfigManager.get_all_config], from the dict of sections the loop over
    [self.config.sections()] has built. *)
Definition get_all_config (config_dict : gmap string (gmap string (list char)))
    : gmap string (gmap string (list char)) :=
  match config_dict !! "API" with
  | Some api =>
      match api !! "api_key" with
      | Some api_key =>
          if Z.ltb 8 (len api_key) then
            <["API" := <["api_key" :=
                          slice_to 4 api_key ++ stars (len api_key - 8)
                            ++ slice_from (-4) api_key]> api]> config_dict
          else config_dict
      | None => config_dict
      end
  | None => config_dict
  end.

End WithChar.

End Masking.

(** ** Command-line tool: [ChatflowTestTool] ([src/main.py]) *)

Module Cli.

(** A loaded test case (the keys the loader guarantees). *)
Record test_case : Type := TestCase {
  conversation_group_id : string;
  turn_number : Z;
  user_question : string;
  expected_reply : string;
  inputs : json
}.

(** The result dict of [process_test_case]. *)
Record result : Type := Result {
  r_conversation_id : string;
  r_turn_number : Z;
  r_user_question : string;
  r_expected_reply : string;
  r_chatflow_reply : string;
  r_response_time : py_number;
  r_api_status : string;
  r_error_details : string;
  r_call_time : string
}.

(** [self.stats] (the two time stamps are left out). *)
Record stats : Type := Stats {
  total_cases : nat;
  processed_cases : nat;
  successful_cases : nat;
  failed_cases : nat
}.

(** What the tool does to the outside, in order. *)
Inductive effect : Type :=
| Call (query user_id : string) (conversation_id : option string) (inputs : json)
| Sleep (seconds : nat)
| LogRetryWarning (retry_delay attempt max_retries : nat) (error : string)
| LogCaseError (error : string)
| ShowProgress (current total : nat)
| AppendResultToFile (r : result).

Record tool : Type := Tool {
  conversation_manager : ConversationManager.t;
  tool_stats : stats;
  effects : list effect
}.

Definition emit (e : list effect) (self : tool) : tool :=
  {| conversation_manager := conversation_manager self;
     tool_stats := tool_stats self;
     effects := effects self ++ e |}.

Definition max_retries : nat := 3.
Definition retry_delay : nat := 5.

(** How the [for attempt in range(max_retries)] loop is left. *)
Inductive retry_outcome : Type :=
| Responded (api_response : json) (response_time : Q)
| Raised (last_error : py_exception)
| Exhausted.

(** The retry loop from iteration [attempt] on, with [remaining] iterations
    of the range left; [send k] is what the call of iteration [k] gives. *)
Fixpoint retry_loop (send : nat -> api_outcome) (call : effect)
    (attempt remaining : nat) (self : tool) : retry_outcome * tool :=
  match remaining with
  | O => (Exhausted, self)
  | S remaining' =>
      match send attempt with
      | inr (api_response, response_time) =>
          (Responded api_response response_time, emit [call] self)
      | inl e =>
          if Nat.ltb attempt (max_retries - 1) then
            retry_loop send call (S attempt) remaining'
              (emit [call;
                     LogRetryWarning retry_delay (attempt + 1) max_retries (str_exn e);
                     Sleep retry_delay] self)
          else (Raised e, emit [call] self)
      end
  end.

Definition count_success (self : tool) : tool :=
  {| conversation_manager := conversation_manager self;
     tool_stats :=
       {| total_cases := total_cases (tool_stats self);
          processed_cases := processed_cases (tool_stats self);
          successful_cases := successful_cases (tool_stats self) + 1;
          failed_cases := failed_cases (tool_stats self) |};
     effects := effects self |}.

Definition count_failed (self : tool) : tool :=
  {| conversation_manager := conversation_manager self;
     tool_stats :=
       {| total_cases := total_cases (tool_stats self);
          processed_cases := processed_cases (tool_stats self);
          successful_cases := successful_cases (tool_stats self);
          failed_cases := failed_cases (tool_stats self) + 1 |};
     effects := effects self |}.

Definition count_processed (self : tool) : tool :=
  {| conversation_manager := conversation_manager self;
     tool_stats :=
       {| total_cases := total_cases (tool_stats self);
          processed_cases := processed_cases (tool_stats self) + 1;
          successful_cases := successful_cases (tool_stats self);
          failed_cases := failed_cases (tool_stats self) |};
     effects := effects self |}.

Definition with_manager (m : ConversationManager.t) (self : tool) : tool :=
  {| conversation_manager := m;
     tool_stats := tool_stats self;
     effects := effects self |}.

(** Reading the effects: the calls, and the sleeps of a given length. *)
Definition is_call (e : effect) : bool :=
  match e with
  | Call _ _ _ _ => true
  | _ => false
  end.

Definition is_sleep (seconds : nat) (e : effect) : bool :=
  match e with
  | Sleep s => Nat.eqb s seconds
  | _ => false
  end.

(** The inter-case delays among the effects: the sleeps of 2 seconds. *)
Definition delays (effects : list effect) : nat :=
  length (filter (fun e => is_sleep 2 e = true) effects).

(** What the retry loop does when the calls fail with [failures], one after
    the other, and one more call is made: each failure is followed by a
    warning and a sleep of [retry_delay] seconds. *)
Definition retry_trace (call : effect) (failures : list py_exception) : list effect :=
  concat (imap (fun k e =>
                  [call;
                   LogRetryWarning retry_delay (k + 1) max_retries (str_exn e);
                   Sleep retry_delay]) failures)
  ++ [call].

(** The API calls among the effects, in order. *)
Definition calls (effects : list effect) : list effect :=
  filter (fun e => is_call e = true) effects.

(** The [conversation_id] argument of a call when the store holds [stored]
    for the group. *)
Definition sent_id (stored : option string) : option string :=
  match stored with
  | Some c => if String.eqb c "new" then None else Some c
  | None => None
  end.

(** What [initialize_dify_client] logs. *)
Inductive init_log : Type :=
| LogConnectionOk
| LogConnectionFailed
| LogInitFailed (error : string).

(** Truth value of a tuple of two items as a condition: a tuple is false
    only when it is empty. *)
Definition tuple_truthy {A B : Type} (p : A * B) : bool := true.

Section WithRuntime.
Context `{PyRuntime}.

(** The [except Exception as e] handler of [process_test_case]. *)
Definition case_failed (r : result) (error : string) (self : tool) : result * tool :=
  ({| r_conversation_id := r_conversation_id r;
      r_turn_number := r_turn_number r;
      r_user_question := r_user_question r;
      r_expected_reply := r_expected_reply r;
      r_chatflow_reply := r_chatflow_reply r;
      r_response_time := r_response_time r;
      r_api_status := r_api_status r;
      r_error_details := error;
      r_call_time := r_call_time r |},
   emit [LogCaseError error] (count_failed self)).

(** [process_test_case]; [now] is the clock (the model gives the readings
    taken during one call the same value), [user_id] the configured user,
    [send k] what the [k]-th call gives. *)
Definition process_test_case (send : nat -> api_outcome) (now user_id : string)
    (test_case : test_case) (self : tool) : result * tool :=
  let result :=
    {| r_conversation_id := conversation_group_id test_case;
       r_turn_number := turn_number test_case;
       r_user_question := user_question test_case;
       r_expected_reply := expected_reply test_case;
       r_chatflow_reply := "";
       r_response_time := PyInt 0;
       r_api_status := "failed";
       r_error_details := "";
       r_call_time := now |} in
  let conversation_id :=
    ConversationManager.get_conversation_id (conversation_manager self)
      (conversation_group_id test_case) in
  let call :=
    Call (user_question test_case) user_id
         (match conversation_id with
          | Some c => if String.eqb c "new" then None else Some c
          | None => None
          end)
         (inputs test_case) in
  let '(outcome, self) := retry_loop send call 0 max_retries self in
  let '(result, self) :=
    match outcome with
    | Raised last_error => case_failed result (str_exn last_error) self
    | Responded api_response response_time =>
        let result :=
          {| r_conversation_id := r_conversation_id result;
             r_turn_number := r_turn_number result;
             r_user_question := r_user_question result;
             r_expected_reply := r_expected_reply result;
             r_chatflow_reply := r_chatflow_reply result;
             r_response_time := round_number (PyFloat response_time) 3;
             r_api_status := r_api_status result;
             r_error_details := r_error_details result;
             r_call_time := r_call_time result |} in
        if truthy api_response then
          match api_response with
          | JObj response_data =>
              let chatflow_reply := DifyClient.extract_answer response_data in
              let self :=
                match DifyClient.extract_conversation_id response_data with
                | Some new_conversation_id =>
                    if str_truthy new_conversation_id then
                      with_manager
                        (ConversationManager.set_conversation_id now
                           (conversation_manager self)
                           (conversation_group_id test_case) new_conversation_id)
                        self
                    else self
                | None => self
                end in
              ({| r_conversation_id := r_conversation_id result;
                  r_turn_number := r_turn_number result;
                  r_user_question := r_user_question result;
                  r_expected_reply := r_expected_reply result;
                  r_chatflow_reply := chatflow_reply;
                  r_response_time := r_response_time result;
                  r_api_status := "成功";
                  r_error_details := r_error_details result;
                  r_call_time := r_call_time result |},
               count_success self)
          | other => case_failed result (non_dict_error_text other) self
          end
        else
          ({| r_conversation_id := r_conversation_id result;
              r_turn_number := r_turn_number result;
              r_user_question := r_user_question result;
              r_expected_reply := r_expected_reply result;
              r_chatflow_reply := r_chatflow_reply result;
              r_response_time := r_response_time result;
              r_api_status := r_api_status result;
              r_error_details := "未收到有效的API响应";
              r_call_time := r_call_time result |},
           count_failed self)
    | Exhausted =>
        ({| r_conversation_id := r_conversation_id result;
            r_turn_number := r_turn_number result;
            r_user_question := r_user_question result;
            r_expected_reply := r_expected_reply result;
            r_chatflow_reply := r_chatflow_reply result;
            r_response_time := round_number (PyInt 0) 3;
            r_api_status := r_api_status result;
            r_error_details := "未收到有效的API响应";
            r_call_time := r_call_time result |},
         count_failed self)
    end in
  (result, count_processed self).

(** The [for i, test_case in enumerate(test_cases, 1)] loop of [run], from
    index [i] on; [total] is [len(test_cases)], [send i k] what the [k]-th
    call for case [i] gives and [clock i] the clock reading at case [i]. *)
Fixpoint run_cases (send : nat -> nat -> api_outcome) (clock : nat -> string)
    (user_id : string) (total i : nat) (cases : list test_case)
    (results : list result) (self : tool) : list result * tool :=
  match cases with
  | [] => (results, self)
  | test_case :: rest =>
      let self := emit [ShowProgress i total] self in
      let '(result, self) := process_test_case (send i) (clock i) user_id test_case self in
      let results := results ++ [result] in
      let self := emit [AppendResultToFile result] self in
      let self := if Nat.ltb i (total - 1) then emit [Sleep 2] self else self in
      run_cases send clock user_id total (S i) rest results self
  end.

(** The processing part of [run]. *)
Definition run (send : nat -> nat -> api_outcome) (clock : nat -> string)
    (user_id : string) (test_cases : list test_case) (self : tool) : list result * tool :=
  run_cases send clock user_id (length test_cases) 1 test_cases [] self.

(** [initialize_dify_client]: [config_error] is the exception the reading
    of the configuration or the construction of the client raises, if any;
    [outcome] is what the test call of [test_connection] gives. *)
Definition initialize_dify_client (seconds : Q -> string) (config_error : option string)
    (outcome : api_outcome) : bool * init_log :=
  match config_error with
  | Some error => (false, LogInitFailed error)
  | None =>
      if tuple_truthy (DifyClient.test_connection seconds outcome)
      then (true, LogConnectionOk)
      else (false, LogConnectionFailed)
  end.

End WithRuntime.

End Cli.

(** ** Web run controller ([web/backend/routes/execution.py]) *)

Module Web.

(** The values [execution_state["status"]] takes. *)
Inductive run_status : Type :=
| Idle | Running | Paused | Stopped | Completed | Error.

#[export] Instance run_status_eq_dec : EqDecision run_status.
Proof. solve_decision. Defined.

Record progress : Type := Progress {
  total : nat;
  completed : nat;
  success : nat;
  failed : nat;
  current : option string
}.

Record statistics : Type := Statistics {
  total_time : Q;
  avg_response_time : Q;
  min_response_time : Q;
  max_response_time : Q;
  success_rate : Q
}.

(** The formatted messages handed to [add_log], by their call site. *)
Inductive log_message : Type :=
| MsgBatchStarted (cases : nat)
| MsgUsingConfig (name : string)
| MsgPaused
| MsgResumed
| MsgStopped
| MsgEngineReady
| MsgStoppedByUser
| MsgRunCase (number cases : nat) (question : string)
| MsgRetry (retry_delay attempt max_retries : nat) (error : string)
| MsgCaseSucceeded (number : nat) (response_time : Q)
| MsgCaseNoResponse (number : nat)
| MsgCaseFailed (number : nat) (error : string)
| MsgFinished (success_count failed_count : nat)
| MsgRunError (error : string).

(** A log entry (its uuid and clock time are left out). *)
Record log_entry : Type := LogEntry {
  level : string;
  message : log_message
}.

(** The global dict [execution_state]. *)
Record execution_state : Type := ExecutionState {
  status : run_status;
  task_id : option string;
  run_progress : progress;
  start_time : option string;
  end_time : option string;
  run_statistics : statistics;
  logs : list log_entry;
  current_response : string
}.

Definition zero_statistics : statistics :=
  {| total_time := 0; avg_response_time := 0; min_response_time := 0;
     max_response_time := 0; success_rate := 0 |}.

(** The module-level initial value. *)
Definition initial_state : execution_state :=
  {| status := Idle;
     task_id := None;
     run_progress := {| total := 0; completed := 0; success := 0; failed := 0; current := None |};
     start_time := None;
     end_time := None;
     run_statistics := zero_statistics;
     logs := [];
     current_response := "" |}.

Definition set_status (s : run_status) (g : execution_state) : execution_state :=
  {| status := s; task_id := task_id g; run_progress := run_progress g;
     start_time := start_time g; end_time := end_time g;
     run_statistics := run_statistics g; logs := logs g;
     current_response := current_response g |}.

Definition set_end_time (now : string) (g : execution_state) : execution_state :=
  {| status := status g; task_id := task_id g; run_progress := run_progress g;
     start_time := start_time g; end_time := Some now;
     run_statistics := run_statistics g; logs := logs g;
     current_response := current_response g |}.

Definition set_progress (p : progress) (g : execution_state) : execution_state :=
  {| status := status g; task_id := task_id g; run_progress := p;
     start_time := start_time g; end_time := end_time g;
     run_statistics := run_statistics g; logs := logs g;
     current_response := current_response g |}.

Definition set_statistics (s : statistics) (g : execution_state) : execution_state :=
  {| status := status g; task_id := task_id g; run_progress := run_progress g;
     start_time := start_time g; end_time := end_time g;
     run_statistics := s; logs := logs g;
     current_response := current_response g |}.

Definition set_current_response (r : string) (g : execution_state) : execution_state :=
  {| status := status g; task_id := task_id g; run_progress := run_progress g;
     start_time := start_time g; end_time := end_time g;
     run_statistics := run_statistics g; logs := logs g;
     current_response := r |}.

(** [add_log]: append, then keep the last 100 entries. *)
Definition add_log (level : string) (message : log_message) (g : execution_state)
    : execution_state :=
  let appended := logs g ++ [{| level := level; message := message |}] in
  {| status := status g; task_id := task_id g; run_progress := run_progress g;
     start_time := start_time g; end_time := end_time g;
     run_statistics := run_statistics g;
     logs := if Nat.ltb 100 (length appended)
             then drop (length appended - 100) appended else appended;
     current_response := current_response g |}.

(** A stored test case and a saved configuration, with the keys read here. *)
Record test_case : Type := TestCase {
  id : option string;
  user_question : string;
  conversation_id : string;
  round : Z;
  expected_response : string;
  inputs : string
}.

Record config : Type := Config {
  name : string;
  is_active : bool;
  user_id : string
}.

Inductive http_exception : Type :=
| HTTPException (status_code : Z) (detail : string).

(** The result dict of one case in [execute_test_cases]. *)
Record result : Type := Result {
  r_task_id : option string;
  r_case_id : string;
  r_conversation_id : string;
  r_turn_number : Z;
  r_user_question : string;
  r_expected_response : string;
  r_chatflow_reply : string;
  r_response_time : py_number;
  r_api_status : string;
  r_error_details : string;
  r_call_time : string
}.

(** *** The background task

    [execute_test_cases] is a coroutine on the server's event loop: it runs
    without interruption from one [await] to the next, and request handlers
    (themselves without an [await] in their bodies) run only while it is
    suspended.  A task is modelled by its local variables and the [await] it
    is suspended at. *)

Inductive suspension : Type :=
| AtStart
| AtPauseCheck (i : nat)
| AtRetrySleep (i attempt : nat) (pending : result) (conversation_id : option string)
| AtCaseDelay (i : nat)
| Finished.

(** What a task does to the outside, in order. *)
Inductive effect : Type :=
| Call (query user_id : string) (conversation_id : option string) (inputs : json)
| Sleep (seconds : nat)
| AddTestRecord (record_task_id : option string) (record_status : run_status)
    (record_results : list result).

Record task : Type := Task {
  test_cases : list test_case;
  active_config : config;
  local_task_id : option string;
  results : list result;
  response_times : list Q;
  conversation_manager : ConversationManager.t;
  effects : list effect;
  at_await : suspension
}.

(** What the outside contributes while a task runs from one [await] to the
    next: whether the set-up raises, what the API call gives (if one is
    made), the clock (one reading for the whole segment), and whether
    [storage.add_test_record] raises. *)
Record segment_env : Type := SegmentEnv {
  init_error : option string;
  api : api_outcome;
  now : string;
  storage_error : option string
}.

Definition max_retries : nat := 3.
Definition retry_delay : nat := 2.

Definition suspend (a : suspension) (t : task) : task :=
  {| test_cases := test_cases t; active_config := active_config t;
     local_task_id := local_task_id t; results := results t;
     response_times := response_times t;
     conversation_manager := conversation_manager t;
     effects := effects t; at_await := a |}.

Definition emit (e : list effect) (t : task) : task :=
  {| test_cases := test_cases t; active_config := active_config t;
     local_task_id := local_task_id t; results := results t;
     response_times := response_times t;
     conversation_manager := conversation_manager t;
     effects := effects t ++ e; at_await := at_await t |}.

Definition with_manager (m : ConversationManager.t) (t : task) : task :=
  {| test_cases := test_cases t; active_config := active_config t;
     local_task_id := local_task_id t; results := results t;
     response_times := response_times t;
     conversation_manager := m;
     effects := effects t; at_await := at_await t |}.

Definition with_local_task_id (i : option string) (t : task) : task :=
  {| test_cases := test_cases t; active_config := active_config t;
     local_task_id := i; results := results t;
     response_times := response_times t;
     conversation_manager := conversation_manager t;
     effects := effects t; at_await := at_await t |}.

Definition append_result (r : result) (t : task) : task :=
  {| test_cases := test_cases t; active_config := active_config t;
     local_task_id := local_task_id t; results := results t ++ [r];
     response_times := response_times t;
     conversation_manager := conversation_manager t;
     effects := effects t; at_await := at_await t |}.

Definition append_response_time (x : Q) (t : task) : task :=
  {| test_cases := test_cases t; active_config := active_config t;
     local_task_id := local_task_id t; results := results t;
     response_times := response_times t ++ [x];
     conversation_manager := conversation_manager t;
     effects := effects t; at_await := at_await t |}.

(** [execution_state["progress"][...] += 1] and [... ["current"] = ...] *)
Definition incr_success (g : execution_state) : execution_state :=
  let p := run_progress g in
  set_progress {| total := total p; completed := completed p;
                  success := success p + 1; failed := failed p;
                  current := current p |} g.

Definition incr_failed (g : execution_state) : execution_state :=
  let p := run_progress g in
  set_progress {| total := total p; completed := completed p;
                  success := success p; failed := failed p + 1;
                  current := current p |} g.

Definition incr_completed (g : execution_state) : execution_state :=
  let p := run_progress g in
  set_progress {| total := total p; completed := completed p + 1;
                  success := success p; failed := failed p;
                  current := current p |} g.

Definition set_current (case_id : string) (g : execution_state) : execution_state :=
  let p := run_progress g in
  set_progress {| total := total p; completed := completed p;
                  success := success p; failed := failed p;
                  current := Some case_id |} g.

(** [sum], [min] and [max] of a non-empty list of response times. *)
Definition q_sum (l : list Q) : Q := foldl Qplus 0%Q l.

Definition q_min (l : list Q) : Q :=
  match l with
  | [] => 0%Q
  | x :: rest => foldl (fun m y => if Qle_bool m y then m else y) x rest
  end.

Definition q_max (l : list Q) : Q :=
  match l with
  | [] => 0%Q
  | x :: rest => foldl (fun m y => if Qle_bool y m then m else y) x rest
  end.

(** The [if response_times:] update of the statistics.  The response times
    are measured values, read as rationals, and so are their sum and mean;
    the rate is computed from two [int]s. *)
Definition update_statistics (response_times : list Q) (g : execution_state)
    : execution_state :=
  match response_times with
  | [] => g
  | _ =>
      set_statistics
        {| total_time := total_time (run_statistics g);
           avg_response_time :=
             Qdiv (q_sum response_times) (inject_Z (Z.of_nat (length response_times)));
           min_response_time := q_min response_times;
           max_response_time := q_max response_times;
           success_rate :=
             Float.mul (true_div (success (run_progress g)) (completed (run_progress g)))
                       (inject_Z 100) |} g
  end.

Definition with_error_details (error : string) (r : result) : result :=
  {| r_task_id := r_task_id r; r_case_id := r_case_id r;
     r_conversation_id := r_conversation_id r; r_turn_number := r_turn_number r;
     r_user_question := r_user_question r;
     r_expected_response := r_expected_response r;
     r_chatflow_reply := r_chatflow_reply r; r_response_time := r_response_time r;
     r_api_status := r_api_status r; r_error_details := error;
     r_call_time := r_call_time r |}.

Definition with_response_time (x : py_number) (r : result) : result :=
  {| r_task_id := r_task_id r; r_case_id := r_case_id r;
     r_conversation_id := r_conversation_id r; r_turn_number := r_turn_number r;
     r_user_question := r_user_question r;
     r_expected_response := r_expected_response r;
     r_chatflow_reply := r_chatflow_reply r; r_response_time := x;
     r_api_status := r_api_status r; r_error_details := r_error_details r;
     r_call_time := r_call_time r |}.

Definition with_chatflow_reply (chatflow_reply : string) (r : result) : result :=
  {| r_task_id := r_task_id r; r_case_id := r_case_id r;
     r_conversation_id := r_conversation_id r; r_turn_number := r_turn_number r;
     r_user_question := r_user_question r;
     r_expected_response := r_expected_response r;
     r_chatflow_reply := chatflow_reply; r_response_time := r_response_time r;
     r_api_status := r_api_status r; r_error_details := r_error_details r;
     r_call_time := r_call_time r |}.

Definition with_success (chatflow_reply : string) (r : result) : result :=
  {| r_task_id := r_task_id r; r_case_id := r_case_id r;
     r_conversation_id := r_conversation_id r; r_turn_number := r_turn_number r;
     r_user_question := r_user_question r;
     r_expected_response := r_expected_response r;
     r_chatflow_reply := chatflow_reply; r_response_time := r_response_time r;
     r_api_status := "success"; r_error_details := r_error_details r;
     r_call_time := r_call_time r |}.

Section WithRuntime.
Context `{PyRuntime}.

(** The outer [except Exception as e] handler: the run ends in [error]. *)
Definition run_error (env : segment_env) (error : string)
    (g : execution_state) (t : task) : execution_state * task :=
  let g := set_end_time (now env) (set_status Error g) in
  let g := add_log "error" (MsgRunError error) g in
  (g, suspend Finished (emit [AddTestRecord (local_task_id t) Error (results t)] t)).

(** After the loop: save the record and, if still running, complete. *)
Definition finish (env : segment_env) (g : execution_state) (t : task)
    : execution_state * task :=
  let t := emit [AddTestRecord (local_task_id t) (status g) (results t)] t in
  match storage_error env with
  | Some error => run_error env error g t
  | None =>
      if decide (status g = Running) then
        let g := set_end_time (now env) (set_status Completed g) in
        let g := add_log "success"
                   (MsgFinished (success (run_progress g)) (failed (run_progress g))) g in
        (g, suspend Finished t)
      else (g, suspend Finished t)
  end.

(** From [results.append(result)] to the end of the loop body.  When the
    delay is not taken the loop goes on without an [await]: either the list
    is exhausted, or the status is [stopped] and the next iteration leaves
    the loop at its stop check. *)
Definition after_case (env : segment_env) (i : nat) (r : result)
    (g : execution_state) (t : task) : execution_state * task :=
  let t := append_result r t in
  let g := incr_completed g in
  let g := update_statistics (response_times t) g in
  if Nat.ltb i (length (test_cases t) - 1) && negb (bool_decide (status g = Stopped)) then
    (g, suspend (AtCaseDelay i) (emit [Sleep 2] t))
  else if Nat.ltb (S i) (length (test_cases t)) then
    finish env (add_log "warning" MsgStoppedByUser g) t
  else finish env g t.

(** The inner [except Exception as e] handler. *)
Definition case_raised (env : segment_env) (i : nat) (r : result) (error : string)
    (g : execution_state) (t : task) : execution_state * task :=
  let r := with_error_details error r in
  let g := incr_failed g in
  let g := add_log "error" (MsgCaseFailed (i + 1) error) g in
  after_case env i r g t.

(** From the end of the retry loop (left by [break]) to the counters.  On a
    truthy response that is not a dict, [extract_answer] raises or returns
    the empty string; in the second case the reply is stored and shown
    before [extract_conversation_id] raises. *)
Definition record_outcome (env : segment_env) (i : nat) (r : result)
    (api_response : option json) (response_time : py_number)
    (g : execution_state) (t : task) : execution_state * task :=
  let r := with_response_time (round_number response_time 3) r in
  let t := append_response_time
             (match response_time with PyInt z => inject_Z z | PyFloat x => x end) t in
  match api_response with
  | Some response =>
      if truthy response && negb (bool_decide (status g = Stopped)) then
        match response with
        | JObj response_data =>
            let chatflow_reply := DifyClient.extract_answer response_data in
            let r := with_success chatflow_reply r in
            let g :=
              set_current_response
                (if Nat.ltb 200 (py_len chatflow_reply)
                 then py_take 200 chatflow_reply +:+ "..." else chatflow_reply) g in
            let t :=
              match DifyClient.extract_conversation_id response_data with
              | Some new_conversation_id =>
                  if str_truthy new_conversation_id then
                    with_manager
                      (ConversationManager.set_conversation_id (now env)
                         (conversation_manager t) (r_conversation_id r)
                         new_conversation_id) t
                  else t
              | None => t
              end in
            let g := incr_success g in
            let g := add_log "success"
                       (MsgCaseSucceeded (i + 1)
                          (match response_time with PyInt z => inject_Z z | PyFloat x => x end)) g in
            after_case env i r g t
        | other =>
            match DifyClient.extract_answer_other other with
            | Some chatflow_reply =>
                let r := with_chatflow_reply chatflow_reply r in
                let g := set_current_response chatflow_reply g in
                case_raised env i r (non_dict_error_text other) g t
            | None => case_raised env i r (non_dict_error_text other) g t
            end
        end
      else
        let r := with_error_details "未收到有效的API响应或测试被停止" r in
        let g := incr_failed g in
        let g := add_log "error" (MsgCaseNoResponse (i + 1)) g in
        after_case env i r g t
  | None =>
      let r := with_error_details "未收到有效的API响应或测试被停止" r in
      let g := incr_failed g in
      let g := add_log "error" (MsgCaseNoResponse (i + 1)) g in
      after_case env i r g t
  end.

(** Iteration [attempt] of [for attempt in range(max_retries)] for case [i]. *)
Definition attempt_call (env : segment_env) (i attempt : nat) (tc : test_case)
    (r : result) (conversation_id : option string)
    (g : execution_state) (t : task) : execution_state * task :=
  if decide (status g = Stopped) then record_outcome env i r None (PyInt 0) g t
  else
    let sent_id :=
      match conversation_id with
      | Some c => if String.eqb c "new" then None else Some c
      | None => None
      end in
    let outcome : api_outcome * task :=
      if str_truthy (inputs tc) then
        match json_loads (inputs tc) with
        | Some parsed =>
            (api env, emit [Call (user_question tc) (user_id (active_config t)) sent_id parsed] t)
        | None => (inl (OtherException (json_error_text (inputs tc))), t)
        end
      else (api env, emit [Call (user_question tc) (user_id (active_config t)) sent_id (JObj [])] t) in
    let '(outcome, t) := outcome in
    match outcome with
    | inr (api_response, response_time) =>
        record_outcome env i r (Some api_response) (PyFloat response_time) g t
    | inl e =>
        if Nat.ltb attempt (max_retries - 1) then
          let g := add_log "warning"
                     (MsgRetry retry_delay (attempt + 1) max_retries (str_exn e)) g in
          (g, suspend (AtRetrySleep i attempt r conversation_id) (emit [Sleep retry_delay] t))
        else case_raised env i r (str_exn e) g t
    end.

(** The loop body for case [i] up to the first call. *)
Definition begin_case (env : segment_env) (i : nat) (tc : test_case)
    (g : execution_state) (t : task) : execution_state * task :=
  let case_id := default ("test_case_" +:+ pretty (i + 1)) (id tc) in
  let g := set_current_response "" (set_current case_id g) in
  let g := add_log "info"
             (MsgRunCase (i + 1) (length (test_cases t)) (py_take 50 (user_question tc))) g in
  let r :=
    {| r_task_id := local_task_id t;
       r_case_id := case_id;
       r_conversation_id := conversation_id tc;
       r_turn_number := round tc;
       r_user_question := user_question tc;
       r_expected_response := expected_response tc;
       r_chatflow_reply := "";
       r_response_time := PyInt 0;
       r_api_status := "failed";
       r_error_details := "";
       r_call_time := now env |} in
  let conversation_id :=
    ConversationManager.get_conversation_id (conversation_manager t) (conversation_id tc) in
  attempt_call env i 0 tc r conversation_id g t.

(** The head of iteration [i]: the pause wait and the stop check. *)
Definition loop_head (env : segment_env) (i : nat)
    (g : execution_state) (t : task) : execution_state * task :=
  match test_cases t !! i with
  | None => finish env g t
  | Some tc =>
      if decide (status g = Paused) then
        (g, suspend (AtPauseCheck i) (emit [Sleep 1] t))
      else if decide (status g = Stopped) then
        finish env (add_log "warning" MsgStoppedByUser g) t
      else begin_case env i tc g t
  end.

(** The coroutine from its start to the loop. *)
Definition enter (env : segment_env) (g : execution_state) (t : task)
    : execution_state * task :=
  let t := with_local_task_id (task_id g) t in
  match init_error env with
  | Some error => run_error env error g t
  | None => loop_head env 0 (add_log "info" MsgEngineReady g) t
  end.

(** A suspended task runs to its next [await]. *)
Definition resume (env : segment_env) (g : execution_state) (t : task)
    : execution_state * task :=
  match at_await t with
  | AtStart => enter env g t
  | AtPauseCheck i => loop_head env i g t
  | AtRetrySleep i attempt r conversation_id =>
      match test_cases t !! i with
      | Some tc => attempt_call env i (S attempt) tc r conversation_id g t
      | None => (g, t)
      end
  | AtCaseDelay i => loop_head env (S i) g t
  | Finished => (g, t)
  end.

End WithRuntime.

(** *** Request handlers *)

Inductive response : Type :=
| ApiResponse (message : string) (data : option string)
| Raises (e : http_exception).

(** [start_test]: the response, the state, and the background task added
    (if any).  [stored_cases] is [storage.get_test_cases()], [configs] is
    [storage.list_configs()], [uuid] the fresh [uuid4] and [now] the clock. *)
Definition start_test (stored_cases : list test_case) (configs : list config)
    (uuid now : string) (g : execution_state)
    : response * execution_state * option task :=
  if decide (status g = Running) then
    (Raises (HTTPException 400 "测试已在运行中"), g, None)
  else
    match stored_cases with
    | [] => (Raises (HTTPException 400 "没有可用的测试用例"), g, None)
    | _ =>
        match list_find (fun c => is_active c) configs with
        | None => (Raises (HTTPException 400 "没有活跃的配置"), g, None)
        | Some (_, active_config) =>
            let g :=
              {| status := Running;
                 task_id := Some uuid;
                 run_progress :=
                   {| total := length stored_cases; completed := 0; success := 0;
                      failed := 0; current := None |};
                 start_time := Some now;
                 end_time := None;
                 run_statistics := zero_statistics;
                 logs := [];
                 current_response := "" |} in
            let g := add_log "info" (MsgBatchStarted (length stored_cases)) g in
            let g := add_log "info" (MsgUsingConfig (name active_config)) g in
            (ApiResponse "测试已开始" (Some uuid), g,
             Some {| test_cases := stored_cases;
                     active_config := active_config;
                     local_task_id := None;
                     results := [];
                     response_times := [];
                     conversation_manager := ConversationManager.init;
                     effects := [];
                     at_await := AtStart |})
        end
    end.

(** A request was served ([ApiResponse]) rather than refused. *)
Definition accepted (r : response) : bool :=
  match r with
  | ApiResponse _ _ => true
  | Raises _ => false
  end.


Definition pause_test (g : execution_state) : response * execution_state :=
  if decide (status g <> Running) then
    (Raises (HTTPException 400 "测试未在运行中"), g)
  else
    let g := set_status Paused g in
    let g := add_log "warning" MsgPaused g in
    (ApiResponse "测试已暂停" None, g).

Definition resume_test (g : execution_state) : response * execution_state :=
  if decide (status g <> Paused) then
    (Raises (HTTPException 400 "测试未处于暂停状态"), g)
  else
    let g := set_status Running g in
    let g := add_log "info" MsgResumed g in
    (ApiResponse "测试已恢复" None, g).

Definition stop_test (now : string) (g : execution_state) : response * execution_state :=
  if negb (bool_decide (status g = Running) || bool_decide (status g = Paused)) then
    (Raises (HTTPException 400 "测试未在执行中"), g)
  else
    let g := set_status Stopped g in
    let g := set_end_time now g in
    let g := add_log "error" MsgStopped g in
    (ApiResponse "测试已停止" None, g).

(** [get_test_status]: the data of the response is the state itself. *)
Definition get_test_status (g : execution_state) : execution_state := g.

(** [get_test_logs] *)
Definition get_test_logs (limit : Z) (g : execution_state) : list log_entry :=
  if Z.ltb 0 limit then drop (length (logs g) - Z.to_nat limit) (logs g) else logs g.

(** *** The server: the shared state and the background tasks

    One event is one uninterrupted piece of work of the event loop: a request
    handled, or a suspended task run to its next [await].  The states between
    events are the ones a status request can observe. *)

Record server : Type := Server {
  state : execution_state;
  tasks : list task
}.

Inductive event : Type :=
| ReqStart (stored_cases : list test_case) (configs : list config) (uuid now : string)
| ReqPause
| ReqResume
| ReqStop (now : string)
| ReqStatus
| Wake (k : nat) (env : segment_env).

Definition boot : server := {| state := initial_state; tasks := [] |}.

Definition step `{PyRuntime} (e : event) (sv : server) : server :=
  match e with
  | ReqStart stored_cases configs uuid now =>
      let '(_, g, added) := start_test stored_cases configs uuid now (state sv) in
      {| state := g;
         tasks := match added with Some t => tasks sv ++ [t] | None => tasks sv end |}
  | ReqPause => {| state := (pause_test (state sv)).2; tasks := tasks sv |}
  | ReqResume => {| state := (resume_test (state sv)).2; tasks := tasks sv |}
  | ReqStop now => {| state := (stop_test now (state sv)).2; tasks := tasks sv |}
  | ReqStatus => sv
  | Wake k env =>
      match tasks sv !! k with
      | Some t =>
          let '(g, t) := resume env (state sv) t in
          {| state := g; tasks := <[k := t]> (tasks sv) |}
      | None => sv
      end
  end.

(** The server after a sequence of events. *)
Definition run_events `{PyRuntime} (events : list event) (sv : server) : server :=
  foldl (fun sv e => step e sv) sv events.

(** A task run through several segments in a row, nothing else happening
    in between. *)
Definition run_segments `{PyRuntime} (envs : list segment_env)
    (g : execution_state) (t : task) : execution_state * task :=
  foldl (fun gt env => resume env gt.1 gt.2) (g, t) envs.

(** The API calls among the effects of a task. *)
Definition is_call (e : effect) : bool :=
  match e with
  | Call _ _ _ _ => true
  | _ => false
  end.

(** The sleeps among the effects of a task. *)
Definition is_sleep (e : effect) : bool :=
  match e with
  | Sleep _ => true
  | _ => false
  end.

(** *** Reading the state *)

(** The four counters. *)
Definition counts (g : execution_state) : nat * nat * nat * nat :=
  (total (run_progress g), completed (run_progress g),
   success (run_progress g), failed (run_progress g)).

Definition counters_add_up (g : execution_state) : Prop :=
  (success (run_progress g) + failed (run_progress g))%nat = completed (run_progress g).

Definition within_total (g : execution_state) : Prop :=
  (completed (run_progress g) <= total (run_progress g))%nat.

(** One more case counted, as a success or as a failure. *)
Definition counted (g g' : execution_state) : Prop :=
  total (run_progress g') = total (run_progress g) /\
  completed (run_progress g') = S (completed (run_progress g)) /\
  ((success (run_progress g') = S (success (run_progress g)) /\
    failed (run_progress g') = failed (run_progress g)) \/
   (success (run_progress g') = success (run_progress g) /\
    failed (run_progress g') = S (failed (run_progress g)))).

(** Case [i] is closed: the task has finished, or sleeps before the next
    case, which exists. *)
Definition case_closed (i : nat) (cases : list test_case) (t' : task) : Prop :=
  test_cases t' = cases /\
  (at_await t' = Finished \/
   (at_await t' = AtCaseDelay i /\ (S i < length cases)%nat)).

(** What a segment that works on case [i] can do: count nothing and
    finish, wait for the pause to end, sleep before a retry or stay as it
    is; or count case [i] and finish or sleep before the next case. *)
Inductive segment_outcome (i : nat) (g : execution_state)
    (cases : list test_case) (a : suspension)
    (g' : execution_state) (t' : task) : Prop :=
| NothingCounted :
    counts g' = counts g ->
    (at_await t' = Finished \/
     (at_await t' = AtPauseCheck i /\ (i < length cases)%nat) \/
     ((exists attempt r c, at_await t' = AtRetrySleep i attempt r c) /\
      (i < length cases)%nat) \/
     at_await t' = a) ->
    segment_outcome i g cases a g' t'
| CaseCounted :
    counted g g' ->
    (i < length cases)%nat ->
    (at_await t' = Finished \/
     (at_await t' = AtCaseDelay i /\ (S i < length cases)%nat)) ->
    segment_outcome i g cases a g' t'.

(** The case a suspended task works on next. *)
Definition next_case (a : suspension) : nat :=
  match a with
  | AtStart => 0
  | AtPauseCheck i => i
  | AtRetrySleep i _ _ _ => i
  | AtCaseDelay i => S i
  | Finished => 0
  end.

(** A task in step with the counters: the total is the number of its cases
    and [completed] is the number of cases it has been through. *)
Definition in_step (g : execution_state) (t : task) : Prop :=
  total (run_progress g) = length (test_cases t) /\
  match at_await t with
  | AtStart => completed (run_progress g) = 0%nat
  | AtPauseCheck i | AtRetrySleep i _ _ _ =>
      completed (run_progress g) = i /\ (i < length (test_cases t))%nat
  | AtCaseDelay i =>
      completed (run_progress g) = S i /\ (S i < length (test_cases t))%nat
  | Finished => (completed (run_progress g) <= length (test_cases t))%nat
  end.

(** A server with no task yet, or with one task that is in step. *)
Definition single_task (sv : server) : Prop :=
  (tasks sv = [] /\ state sv = initial_state) \/
  (exists t, tasks sv = [t] /\ in_step (state sv) t).

(** An event that is no [start] request. *)
Definition is_start (e : event) : bool :=
  match e with
  | ReqStart _ _ _ _ => true
  | _ => false
  end.

(** The calls and sleeps among the effects of a task: what it does to the
    API and to the clock. *)
Definition outward (t : task) : list effect :=
  filter (fun e => is_call e || is_sleep e = true) (effects t).

(** The last effect of a task is the history record it stored, with status
    [s] and the results it holds. *)
Definition stored_as (s : run_status) (t : task) : Prop :=
  exists before,
    effects t = before ++ [AddTestRecord (local_task_id t) s (results t)].

(** A task suspended in the retry loop of case [i] has that case. *)
Definition has_its_case (t : task) : Prop :=
  match at_await t with
  | AtRetrySleep i _ _ _ => is_Some (test_cases t !! i)
  | _ => True
  end.

(** What a segment of a task does when it finds the run stopped: the task
    ends, with no call and no sleep; nothing is counted ([None]) or the case
    in hand is counted as failed ([Some i]). *)
Definition stop_observed (i : option nat) (g : execution_state) (t : task)
    (g' : execution_state) (t' : task) : Prop :=
  at_await t' = Finished /\
  outward t' = outward t /\
  (status g' = Stopped \/ status g' = Error) /\
  success (run_progress g') = success (run_progress g) /\
  match i with
  | None => results t' = results t /\ run_progress g' = run_progress g
  | Some i =>
      exists r, results t' = results t ++ [r] /\
        r_error_details r = "未收到有效的API响应或测试被停止" /\
        failed (run_progress g') = S (failed (run_progress g)) /\
        completed (run_progress g') = S (completed (run_progress g))
  end.

(** A case whose [inputs] column is empty or holds a JSON text that decodes. *)
Definition sendable `{PyRuntime} (tc : test_case) : Prop :=
  inputs tc = "" \/ is_Some (json_loads (inputs tc)).

(** A segment in which the set-up and the storage work and the API call
    answers with a dict that is not empty. *)
Definition answered (env : segment_env) : Prop :=
  init_error env = None /\ storage_error env = None /\
  exists field response_data response_time,
    api env = inr (JObj (field :: response_data), response_time).

(** The number of API calls a task has made. *)
Definition calls_made (t : task) : nat :=
  length (filter (fun e => is_call e = true) (effects t)).

(** Every background task of the server has run to its end. *)
Definition all_finished (sv : server) : Prop :=
  Forall (fun t => at_await t = Finished) (tasks sv).

(** The status is one a run is left in without having completed. *)
Definition uncompleted (s : run_status) : Prop :=
  s = Paused \/ s = Running \/ s = Stopped \/ s = Error.

End Web.

(** ** Test-case loader: [ExcelHandler.validate_test_case_structure]
       ([src/excel_handler.py]) *)

Module ExcelHandler.

(** A loaded test case, with the keys the check reads; [row_index] is
    [None] when the key is absent. *)
Record case : Type := Case {
  conversation_group_id : string;
  turn_number : Z;
  user_question : string;
  row_index : option Z
}.

(** An entry of [stats['turn_issues']] or of [stats['empty_questions']];
    a [row_index] of [None] stands for the string 'unknown'. *)
Inductive issue : Type :=
| TurnIssue (conversation_id : string) (expected_turn actual_turn : Z) (row_index : option Z)
| EmptyQuestion (conversation_id : string) (turn_number : Z) (row_index : option Z).

Record stats : Type := Stats {
  total_cases : nat;
  conversation_groups : gset string;
  turn_issues : list issue;
  empty_questions : list issue
}.

(** The dict returned by [validate_test_case_structure]. *)
Record validation : Type := Validation {
  valid : bool;
  errors : list issue;
  validation_stats : stats
}.

(** [conversation_groups[group_id].append(case)] on the dict of groups, kept
    in insertion order. *)
Fixpoint add_to_group (c : case) (groups : list (string * list case))
    : list (string * list case) :=
  match groups with
  | [] => [(conversation_group_id c, [c])]
  | (group_id, cases) :: rest =>
      if String.eqb group_id (conversation_group_id c)
      then (group_id, cases ++ [c]) :: rest
      else (group_id, cases) :: add_to_group c rest
  end.

(** The dict [conversation_groups] after the first loop. *)
Definition group_cases (test_cases : list case) : list (string * list case) :=
  foldl (fun groups c => add_to_group c groups) [] test_cases.

(** [cases.sort(key=lambda x: x['turn_number'])]: the sort is stable, so its
    result is the one of a stable insertion sort. *)
Fixpoint insert_by_turn (c : case) (sorted : list case) : list case :=
  match sorted with
  | [] => [c]
  | c' :: rest =>
      if Z.leb (turn_number c) (turn_number c') then c :: sorted
      else c' :: insert_by_turn c rest
  end.

Definition sort_by_turn (cases : list case) : list case := foldr insert_by_turn [] cases.

(** The turn check of one group, from [expected_turn] on. *)
Fixpoint check_turns (group_id : string) (expected_turn : Z) (cases : list case)
    : list issue :=
  match cases with
  | [] => []
  | c :: rest =>
      (if Z.eqb (turn_number c) expected_turn then []
       else [TurnIssue group_id expected_turn (turn_number c) (row_index c)])
      ++ check_turns group_id (expected_turn + 1) rest
  end.

Section WithRuntime.
Context `{PyRuntime}.

(** The check for empty questions of one group. *)
Definition check_questions (group_id : string) (cases : list case) : list issue :=
  omap (fun c =>
          if str_truthy (py_strip (user_question c)) then None
          else Some (EmptyQuestion group_id (turn_number c) (row_index c))) cases.

Definition validate_test_case_structure (test_cases : list case) : validation :=
  let conversation_groups := group_cases test_cases in
  let sorted_groups :=
    (fun '(group_id, cases) => (group_id, sort_by_turn cases)) <$> conversation_groups in
  let turn_issues :=
    concat ((fun '(group_id, cases) => check_turns group_id 1 cases) <$> sorted_groups) in
  let empty_questions :=
    concat ((fun '(group_id, cases) => check_questions group_id cases) <$> sorted_groups) in
  let has_errors :=
    Nat.ltb 0 (length turn_issues) || Nat.ltb 0 (length empty_questions) in
  {| valid := negb has_errors;
     errors := turn_issues ++ empty_questions;
     validation_stats :=
       {| total_cases := length test_cases;
          conversation_groups := list_to_set (fst <$> conversation_groups);
          turn_issues := turn_issues;
          empty_questions := empty_questions |} |}.

End WithRuntime.

(** The cases of a group among the loaded ones, in file order. *)
Definition cases_of (group_id : string) (test_cases : list case) : list case :=
  filter (fun c => conversation_group_id c = group_id) test_cases.

(** The dict of groups holds, under each group id met, the cases of that
    group in file order. *)
Definition grouped (groups : list (string * list case)) (l : list case) : Prop :=
  NoDup (fst <$> groups) /\
  forall g cs, (g, cs) ∈ groups <-> cs = cases_of g l /\ cs <> [].

End ExcelHandler.

(** ** Error kinds, by the words of the specification

    The specification sorts errors into kinds and calls a response body that
    is not valid JSON a malformed response, not to be retried.  The client
    raises it as a [DifyAPIError] whose text starts with the words below. *)

Module RetrySpec.



End RetrySpec.

(** ** A run-time instance, to evaluate the model on examples

    Plain-ASCII behaviour of the interpreter's functions, and a [json.loads]
    that knows the documents of a given table. *)

Module Sample.

Definition is_space (c : Ascii.ascii) : bool :=
  let n := Ascii.nat_of_ascii c in
  (Nat.leb 9 n && Nat.leb n 13) || (Nat.leb 28 n && Nat.leb n 32).

Fixpoint lstrip (s : string) : string :=
  match s with
  | EmptyString => EmptyString
  | String c rest => if is_space c then lstrip rest else s
  end.

Definition strip (s : string) : string :=
  String.rev (lstrip (String.rev (lstrip s))).

Definition repr (v : json) : string :=
  match v with
  | JNull => "None"
  | JBool true => "True"
  | JBool false => "False"
  | JInt z => pretty z
  | JStr s => s
  | _ => "<object>"
  end.

(** A double quote, and a quoted string of a JSON text. *)
Definition dq : string := String (Ascii.ascii_of_nat 34) EmptyString.
Definition quoted (s : string) : string := dq +:+ s +:+ dq.

(** The JSON text of an object whose values are all strings. *)
Fixpoint members (fields : list (string * string)) : string :=
  match fields with
  | [] => ""
  | [(k, v)] => quoted k +:+ ": " +:+ quoted v
  | (k, v) :: rest => quoted k +:+ ": " +:+ quoted v +:+ ", " +:+ members rest
  end.

Definition object_text (fields : list (string * string)) : string :=
  "{" +:+ members fields +:+ "}".

Definition object_value (fields : list (string * string)) : json :=
  JObj (prod_map Datatypes.id JStr <$> fields).

(** [json.loads] restricted to the objects of [table]. *)
Definition loads (table : list (list (string * string))) (s : string) : option json :=
  object_value <$> (snd <$> list_find (fun fields => String.eqb (object_text fields) s) table).

(** Rounding to [ndigits] decimals, ties to even. *)
Definition round_half_even (x : Q) (ndigits : nat) : Q :=
  let scale := inject_Z (10 ^ Z.of_nat ndigits) in
  let y := Qmult x scale in
  let lo := Qfloor y in
  let twice_frac := Qminus (Qmult (inject_Z 2) y) (inject_Z (2 * lo)) in
  let n :=
    match Qcompare twice_frac (inject_Z 1) with
    | Lt => lo
    | Gt => (lo + 1)%Z
    | Eq => if Z.even lo then lo else (lo + 1)%Z
    end in
  Qred (Qdiv (inject_Z n) scale).

Definition runtime (table : list (list (string * string))) : PyRuntime :=
  {| py_strip := strip;
     repr_other := repr;
     json_loads := loads table;
     attribute_error_text := fun _ => "object has no attribute 'get'";
     type_error_text := fun _ => "can only concatenate str to str";
     py_round := round_half_even;
     non_dict_error_text := fun _ => "object has no attribute 'get'";
     json_error_text := fun _ => "Expecting value: line 1 column 1 (char 0)";
     py_len := String.length;
     py_take := fun n s => String.substring 0 n s |}.

(** The stream of the specification's example: chunks "Hel", "lo ", "world",
    a blank line between events, [message_end], and a late line after it. *)
Definition hello_events : list (list (string * string)) :=
  [ [("event", "message"); ("answer", "Hel"); ("conversation_id", "conv-abc");
     ("message_id", "msg-1")];
    [("event", "message"); ("answer", "lo ")];
    [("event", "message"); ("answer", "world")];
    [("event", "message_end"); ("id", "msg-1"); ("conversation_id", "conv-abc")];
    [("event", "error"); ("message", "late")] ].

Definition data_line (fields : list (string * string)) : string :=
  "data: " +:+ object_text fields.

Definition hello_pre : list string :=
  [ data_line [("event", "message"); ("answer", "Hel"); ("conversation_id", "conv-abc");
               ("message_id", "msg-1")];
    "";
    data_line [("event", "message"); ("answer", "lo ")];
    "";
    data_line [("event", "message"); ("answer", "world")];
    "" ].

Definition hello_end : string :=
  data_line [("event", "message_end"); ("id", "msg-1"); ("conversation_id", "conv-abc")].

(** A stored case, an active configuration, and a paused run. *)
Definition one_case : Web.test_case :=
  {| Web.id := Some "case-1"; Web.user_question := "hi"; Web.conversation_id := "g1";
     Web.round := 1; Web.expected_response := ""; Web.inputs := "" |}.

Definition active : Web.config :=
  {| Web.name := "default"; Web.is_active := true; Web.user_id := "tester" |}.

Definition paused_run : Web.execution_state :=
  {| Web.status := Web.Paused;
     Web.task_id := Some "run-1";
     Web.run_progress :=
       {| Web.total := 5; Web.completed := 2; Web.success := 1; Web.failed := 1;
          Web.current := Some "case-2" |};
     Web.start_time := Some "09:00";
     Web.end_time := None;
     Web.run_statistics := Web.zero_statistics;
     Web.logs := [ {| Web.level := "warning"; Web.message := Web.MsgPaused |} ];
     Web.current_response := "" |}.

Definition second_case : Web.test_case :=
  {| Web.id := Some "case-2"; Web.user_question := "and then?"; Web.conversation_id := "g1";
     Web.round := 2; Web.expected_response := ""; Web.inputs := "" |}.

(** A segment in which the set-up, the storage and the API call all work. *)
Definition env_ok : Web.segment_env :=
  {| Web.init_error := None;
     Web.api := inr (JObj [("answer", JStr "ok"); ("conversation_id", JStr "conv-1")], 1%Q);
     Web.now := "09:00";
     Web.storage_error := None |}.


(** A run of two cases started, paused after its first case, and started
    again while paused; then both background tasks run to their end. *)
Definition restart_trace : list Web.event :=
  [ Web.ReqStart [one_case; second_case] [active] "run-1" "09:00";
    Web.Wake 0 env_ok;
    Web.ReqPause;
    Web.Wake 0 env_ok;
    Web.ReqStart [one_case; second_case] [active] "run-2" "09:05";
    Web.Wake 1 env_ok;
    Web.Wake 0 env_ok;
    Web.Wake 1 env_ok ].

(** Two errors of the client, by their text: a time-out, and a response
    body that is not JSON. *)
Definition timeout_error : py_exception := DifyAPIError "API请求超时（30秒）".

(** A command-line case, a tool that has done nothing yet, and a client
    whose every call times out. *)
Definition cli_case (question : string) : Cli.test_case :=
  {| Cli.conversation_group_id := "g1"; Cli.turn_number := 1;
     Cli.user_question := question; Cli.expected_reply := ""; Cli.inputs := JObj [] |}.

Definition fresh_tool : Cli.tool :=
  {| Cli.conversation_manager := ConversationManager.init;
     Cli.tool_stats :=
       {| Cli.total_cases := 0; Cli.processed_cases := 0; Cli.successful_cases := 0;
          Cli.failed_cases := 0 |};
     Cli.effects := [] |}.


(** A web task about to work on its first case of two, in a running run. *)
Definition waiting_task : Web.task :=
  {| Web.test_cases := [one_case; second_case];
     Web.active_config := active;
     Web.local_task_id := Some "run-1";
     Web.results := [];
     Web.response_times := [];
     Web.conversation_manager := ConversationManager.init;
     Web.effects := [];
     Web.at_await := Web.AtPauseCheck 0 |}.

Definition running_state : Web.execution_state :=
  {| Web.status := Web.Running;
     Web.task_id := Some "run-1";
     Web.run_progress :=
       {| Web.total := 2; Web.completed := 0; Web.success := 0; Web.failed := 0;
          Web.current := None |};
     Web.start_time := Some "09:00";
     Web.end_time := None;
     Web.run_statistics := Web.zero_statistics;
     Web.logs := [];
     Web.current_response := "" |}.

(** A client whose first call answers with a body that is not JSON and
    whose second call succeeds; a client whose every call times out. *)
Definition good_answer : json * Q := (JObj [("answer", JStr "ok")], 1%Q).


Definition timing_out : nat -> api_outcome := fun _ => inl timeout_error.

Definition sample_call : Cli.effect := Cli.Call "hi" "tester" None (JObj []).

(** Requests and wake-ups around a single start. *)
Definition before_start : list Web.event := [Web.ReqPause; Web.ReqStatus].

Definition after_start : list Web.event :=
  [ Web.Wake 0 env_ok; Web.ReqPause; Web.Wake 0 env_ok; Web.ReqResume;
    Web.Wake 0 env_ok; Web.ReqStatus ].

(** A tool whose store holds a session id for group g1, and a client that
    answers with a session id made of blanks. *)
Definition tool_with_session : Cli.tool :=
  Cli.with_manager
    (ConversationManager.set_conversation_id "09:00" ConversationManager.init "g1" "conv-1")
    fresh_tool.

Definition blank_session : nat -> api_outcome :=
  fun _ => inr (JObj [("answer", JStr "ok"); ("conversation_id", JStr "   ")], 1%Q).

Definition hello_post : list string :=
  [ ""; data_line [("event", "error"); ("message", "late")] ].

(** The same events with other framing: no blank lines, a comment line, an
    [event:] line and a payload that does not decode. *)
Definition hello_framed : list string :=
  [ ": keep-alive";
    data_line [("event", "message"); ("answer", "Hel"); ("conversation_id", "conv-abc");
               ("message_id", "msg-1")];
    "event: message";
    data_line [("event", "message"); ("answer", "lo ")];
    "data: [DONE";
    data_line [("event", "message"); ("answer", "world")];
    hello_end;
    data_line [("event", "error"); ("message", "late")] ].

(** The line of an [error] event. *)
Definition failing_line : string := data_line [("event", "error"); ("message", "late")].

(** Keys as lists of characters, and the asterisk. *)
Definition star : Ascii.ascii := Ascii.ascii_of_nat 42.
Definition long_key : list Ascii.ascii := String.list_ascii_of_string "app-1234abcd".
Definition short_key : list Ascii.ascii := String.list_ascii_of_string "abc12345".

(** A configuration whose key has 8 characters. *)
Definition short_key_section : gmap string (list Ascii.ascii) :=
  {[ "api_key" := short_key;
     "api_url" := String.list_ascii_of_string "https://api.dify.ai/v1" ]}.

Definition short_key_config : gmap string (gmap string (list Ascii.ascii)) :=
  {[ "API" := short_key_section ]}.

(** A client that answers with an empty dict; a client whose third call
    is the first to succeed; a client that opens a session. *)
Definition empty_answer : nat -> api_outcome := fun _ => inr (JObj [], 1%Q).

Definition third_time_lucky : nat -> api_outcome :=
  fun k => if Nat.ltb k 2 then inl timeout_error else inr good_answer.

Definition opening_session : nat -> api_outcome :=
  fun _ => inr (JObj [("answer", JStr "ok"); ("conversation_id", JStr "conv-1")], 1%Q).

(** A stopped run. *)
Definition stopped_run : Web.execution_state :=
  Web.set_status Web.Stopped running_state.

(** A task that has done the first of its two cases and sleeps before the
    second; the result a task holds while it waits to retry its second
    case, and that task. *)
Definition between_cases : Web.task :=
  Web.suspend (Web.AtCaseDelay 0) waiting_task.

Definition pending_result : Web.result :=
  {| Web.r_task_id := Some "run-1"; Web.r_case_id := "case-2";
     Web.r_conversation_id := "g1"; Web.r_turn_number := 2;
     Web.r_user_question := "and then?"; Web.r_expected_response := "";
     Web.r_chatflow_reply := ""; Web.r_response_time := PyInt 0;
     Web.r_api_status := "failed"; Web.r_error_details := "";
     Web.r_call_time := "09:00" |}.

Definition retrying_last_case : Web.task :=
  Web.suspend (Web.AtRetrySleep 1 0 pending_result None) waiting_task.

Definition paused_server : Web.server :=
  {| Web.state := paused_run; Web.tasks := [retrying_last_case] |}.

(** What [start_test] gives for two stored cases on a server just booted. *)
Definition started : Web.response * Web.execution_state * option Web.task :=
  Web.start_test [one_case; second_case] [active] "run-1" "09:00" Web.initial_state.

End Sample.

(** ** Reading a stream declaratively

    What a line of the response carries, and the answer and ids a stream of
    such lines stands for, by the words of the specification: the answer is
    the concatenation of the [answer] chunks of the [message] events, an id is
    the first one a [message] event provides, else the one of [message_end]. *)

Module StreamReading.

Inductive sse_event : Type :=
| Message (fields : list (string * json))
| MessageEnd (fields : list (string * json))
| ErrorEvent (fields : list (string * json))
| OtherEvent
| NotAnObject (v : json).

Section WithRuntime.
Context `{PyRuntime}.

(** The decoded payload of a [data: ] line; [None] for a line that is not
    one, has an empty payload, or does not decode. *)
Definition payload (line : string) : option json :=
  if String.prefix "data: " line then
    let json_str := py_strip (String.substring 6 (String.length line - 6) line) in
    if str_truthy json_str then json_loads json_str else None
  else None.

Definition event_of (line : string) : option sse_event :=
  match payload line with
  | None => None
  | Some (JObj fields) =>
      let event_type := dict_get "event" (JStr "") fields in
      Some (if is_str event_type "message" then Message fields
            else if is_str event_type "message_end" then MessageEnd fields
            else if is_str event_type "error" then ErrorEvent fields
            else OtherEvent)
  | Some v => Some (NotAnObject v)
  end.

(** The [message] events of a list of lines, in order. *)
Definition messages (lines : list string) : list (list (string * json)) :=
  omap (fun line => match event_of line with
                    | Some (Message fields) => Some fields
                    | _ => None
                    end) lines.

(** The [answer] chunk of a [message] event. *)
Definition chunk (fields : list (string * json)) : string :=
  match dict_get "answer" (JStr "") fields with
  | JStr s => s
  | _ => ""
  end.

Definition concat_answers (msgs : list (list (string * json))) : string :=
  foldr (fun fields rest => chunk fields +:+ rest) "" msgs.

(** The value of [key] in the first [message] event that provides a truthy
    one, else [fallback]. *)
Fixpoint first_provided (key : string) (msgs : list (list (string * json)))
    (fallback : json) : json :=
  match msgs with
  | [] => fallback
  | fields :: rest =>
      if truthy (dict_get key JNull fields) then dict_get key JNull fields
      else first_provided key rest fallback
  end.

(** A line the loop reads past: no [message_end], no [error] event, no
    payload that is not an object, and a chunk that is a string. *)
Definition reads_past (line : string) : bool :=
  match event_of line with
  | None | Some OtherEvent => true
  | Some (Message fields) =>
      match dict_get "answer" (JStr "") fields with JStr _ => true | _ => false end
  | Some (MessageEnd _) | Some (ErrorEvent _) | Some (NotAnObject _) => false
  end.

(** The variable that captures an id, after the [message] events [msgs]
    (used to state the loop invariant). *)
Definition capture (key : string) (msgs : list (list (string * json))) (held : json) : json :=
  foldl (fun held fields => if truthy held then held else dict_get key JNull fields) held msgs.

(** The loop variables after reading past [pre]. *)
Definition after_reading (pre : list string) (vars : DifyClient.stream_vars) : DifyClient.stream_vars :=
  {| DifyClient.full_answer := DifyClient.full_answer vars +:+ concat_answers (messages pre);
     DifyClient.conversation_id := capture "conversation_id" (messages pre) (DifyClient.conversation_id vars);
     DifyClient.message_id := capture "message_id" (messages pre) (DifyClient.message_id vars) |}.

(** The line loop as it runs on the decoded payloads alone. *)
Fixpoint event_loop (payloads : list json) (vars : DifyClient.stream_vars)
    : py_exception + DifyClient.stream_vars :=
  match payloads with
  | [] => inr vars
  | event_data :: rest =>
      match DifyClient.on_event event_data vars with
      | DifyClient.Continue vars' => event_loop rest vars'
      | DifyClient.Break vars' => inr vars'
      | DifyClient.Raise e => inl e
      end
  end.

(** The value of [key] in the last [message] event, [None] without one. *)
Definition last_given (key : string) (msgs : list (list (string * json))) : json :=
  match last msgs with
  | Some fields => dict_get key JNull fields
  | None => JNull
  end.

End WithRuntime.

End StreamReading.

(** * Properties *)

(** ** Streaming aggregation *)

Section StreamFacts.
Context `{PyRuntime}.
Import DifyClient StreamReading.

Lemma append_assoc (a b c : string) : (a +:+ b) +:+ c = a +:+ (b +:+ c).
Proof.
  induction a as [|ch a IH]; [reflexivity|].
  change (String ch ((a +:+ b) +:+ c) = String ch (a +:+ (b +:+ c))).
  by rewrite IH.
Qed.

Lemma append_empty_r (a : string) : a +:+ "" = a.
Proof.
  induction a as [|ch a IH]; [reflexivity|].
  change (String ch (a +:+ "") = String ch a). by rewrite IH.
Qed.

Lemma capture_fill key msgs held fallback :
  (if truthy (capture key msgs held) then capture key msgs held else fallback)
  = if truthy held then held else first_provided key msgs fallback.
Proof.
  revert held. induction msgs as [|fields msgs IH]; intros held; simpl.
  - reflexivity.
  - rewrite IH. destruct (truthy held) eqn:Hheld; [by rewrite Hheld|].
    destruct (truthy (dict_get key JNull fields)); reflexivity.
Qed.

Lemma on_line_reads_past line vars :
  reads_past line = true ->
  on_line line vars = Continue (after_reading [line] vars).
Proof.
  unfold reads_past, event_of, payload, on_line, after_reading, messages.
  simpl. unfold event_of, payload.
  destruct (String.prefix "data: " line); [|destruct vars; simpl; by rewrite append_empty_r].
  cbv zeta.
  destruct (str_truthy _); [|destruct vars; simpl; by rewrite append_empty_r].
  destruct (json_loads _) as [v|]; [|destruct vars; simpl; by rewrite append_empty_r].
  destruct v as [| | | | |?|fields]; try discriminate.
  unfold on_event. cbv zeta.
  destruct (is_str (dict_get "event" (JStr "") fields) "message") eqn:Hm.
  - unfold on_message, concat_answers, chunk. simpl.
    destruct (dict_get "answer" (JStr "") fields); try discriminate.
    intros _. by rewrite append_empty_r.
  - destruct (is_str _ "message_end"); [discriminate|].
    destruct (is_str _ "error"); [discriminate|].
    intros _. destruct vars; simpl. by rewrite append_empty_r.
Qed.

Lemma after_reading_cons line pre vars :
  after_reading (line :: pre) vars = after_reading pre (after_reading [line] vars).
Proof.
  unfold after_reading, messages. simpl.
  destruct (event_of line) as [[fields| | | |]|]; simpl;
    rewrite ?append_empty_r; try reflexivity.
  by rewrite append_assoc.
Qed.

Lemma stream_loop_reads_past pre rest vars :
  Forall (fun line => reads_past line = true) pre ->
  stream_loop (pre ++ rest) vars = stream_loop rest (after_reading pre vars).
Proof.
  intros Hpre. revert vars.
  induction Hpre as [|line pre Hline _ IH]; intros vars.
  - unfold after_reading, messages. simpl. rewrite append_empty_r. by destruct vars.
  - simpl. rewrite (on_line_reads_past _ _ Hline), IH. by rewrite <- after_reading_cons.
Qed.

Lemma on_line_message_end line fields vars :
  event_of line = Some (MessageEnd fields) ->
  on_line line vars = on_message_end fields vars.
Proof.
  unfold event_of, payload, on_line.
  destruct (String.prefix "data: " line); [|discriminate]. cbv zeta.
  destruct (str_truthy _); [|discriminate].
  destruct (json_loads _) as [v|]; [|discriminate].
  destruct v as [| | | | |?|fs]; try discriminate.
  unfold on_event. cbv zeta.
  destruct (is_str (dict_get "event" (JStr "") fs) "message"); [discriminate|].
  destruct (is_str _ "message_end"); [congruence|].
  destruct (is_str _ "error"); discriminate.
Qed.

(** C2.  In streaming mode, for a response whose lines up to the first
    [message_end] are read past (blank or undecodable lines, other events,
    [message] events with a string chunk), the merged response holds: as
    answer the concatenation, in stream order, of the [answer] chunks of the
    [message] events before that [message_end]; as conversation id and
    message id the first one such an event provides, the [message_end] event
    filling an id still missing (from its [conversation_id] and [id]); and
    nothing after the [message_end] line is read. *)
Theorem streaming_answer_is_concatenation
    (pre : list string) (end_line : string) (end_fields : list (string * json))
    (post : list string) :
  Forall (fun line => reads_past line = true) pre ->
  event_of end_line = Some (MessageEnd end_fields) ->
  _handle_streaming_response (pre ++ end_line :: post) =
    inr (JObj
           [("answer", JStr (concat_answers (messages pre)));
            ("conversation_id",
               first_provided "conversation_id" (messages pre)
                 (dict_get "conversation_id" JNull end_fields));
            ("message_id",
               first_provided "message_id" (messages pre)
                 (dict_get "id" JNull end_fields))]).
Proof.
  intros Hpre Hend. unfold _handle_streaming_response.
  rewrite (stream_loop_reads_past _ _ _ Hpre). simpl.
  rewrite (on_line_message_end _ _ _ Hend). unfold on_message_end. simpl.
  rewrite !capture_fill. reflexivity.
Qed.

End StreamFacts.

(** The specification's example: "Hel", "lo ", "world", then [message_end],
    give "Hello world". *)
Lemma hello_world_stream :
  Forall (fun line => @StreamReading.reads_past (Sample.runtime Sample.hello_events) line = true)
         Sample.hello_pre /\
  @DifyClient._handle_streaming_response (Sample.runtime Sample.hello_events)
    (Sample.hello_pre ++ Sample.hello_end :: Sample.hello_post)
  = inr (JObj [("answer", JStr "Hello world");
               ("conversation_id", JStr "conv-abc");
               ("message_id", JStr "msg-1")]).
Proof.
  split.
  - repeat constructor.
  - rewrite (@streaming_answer_is_concatenation (Sample.runtime Sample.hello_events)
               Sample.hello_pre Sample.hello_end
               [("event", JStr "message_end"); ("id", JStr "msg-1");
                ("conversation_id", JStr "conv-abc")]
               Sample.hello_post).
    + reflexivity.
    + repeat constructor.
    + reflexivity.
Defined.

(** ** Conversation state store *)

(** ** Floats *)

Section FloatFacts.
Import Float.
Open Scope Q_scope.


















End FloatFacts.

(** The model against the Standard Library's specification of IEEE 754
    ([SFdiv] and [SFmul] at 53 bits), on the quotients and the product of
    two examples. *)
Lemma nearest_agrees_with_the_standard :
  Float.value_of (SFdiv 53 1024 (Float.of_positive 23) (Float.of_positive 160))
    = Some (true_div 23 160) /\
  Float.value_of (SFdiv 53 1024 (Float.of_positive 1) (Float.of_positive 40))
    = Some (true_div 1 40) /\
  Float.value_of (SFdiv 53 1024 (Float.of_positive 1) (Float.of_positive 3))
    = Some (true_div 1 3) /\
  Float.value_of
    (SFmul 53 1024 (SFdiv 53 1024 (Float.of_positive 23) (Float.of_positive 160))
       (Float.of_positive 100))
    = Some (Float.mul (true_div 23 160) (inject_Z 100)).
Proof. repeat split; vm_compute; reflexivity. Qed.

(** Two rates as CPython computes them: 23 of 160 gives 14.37 (the exact
    percentage is 14.375, the product computed in doubles lies just below
    it), and 1 in 40 rounded to two places gives 0.03 (the double nearest to
    0.025 lies just above it). *)
Lemma rates_follow_the_doubles :
  Float.round (Float.mul (true_div 23 160) (inject_Z 100)) 2 = Float.nearest (1437 # 100) /\
  Qlt (Float.mul (true_div 23 160) (inject_Z 100)) (14375 # 1000) /\
  Float.round (true_div 1 40) 2 = Float.nearest (3 # 100) /\
  Qlt (25 # 1000) (true_div 1 40).
Proof. repeat split; vm_compute; reflexivity. Qed.

Section StoreFacts.
Context `{PyRuntime}.
Import ConversationManager.








End StoreFacts.

Section TurnOrder.
Import ConversationManager.

Lemma get_conversation_turns_add_turn now self g n q a s e rt :
  get_conversation_turns (add_turn now self g n q a s e rt) g =
    get_conversation_turns self g ++
      [{| turn_number := n; user_question := q; chatflow_reply := a; api_status := s;
          error_details := e; response_time := rt; timestamp := now |}].
Proof.
  unfold get_conversation_turns at 1, add_turn. simpl.
  by rewrite lookup_insert_eq.
Qed.

Lemma validate_turn_sequence_spec self g n :
  validate_turn_sequence self g n = true <-> n = (Z.of_nat (get_turn_count self g) + 1)%Z.
Proof.
  unfold validate_turn_sequence.
  destruct (Nat.eqb_spec (get_turn_count self g) 0) as [H0|H0].
  - rewrite H0. simpl. apply Z.eqb_eq.
  - apply Z.eqb_eq.
Qed.

(** C3, amended.  [validate_turn_sequence] answers true exactly for the turn
    number that is the recorded count plus one; [add_turn] does not consult
    it: whatever the turn number, the record is appended to the end of the
    group's history and the count grows by one. *)
Theorem add_turn_appends_any_turn now self g n q a s e rt :
  (validate_turn_sequence self g n = true <->
     n = (Z.of_nat (get_turn_count self g) + 1)%Z) /\
  get_conversation_turns (add_turn now self g n q a s e rt) g =
    get_conversation_turns self g ++
      [{| turn_number := n; user_question := q; chatflow_reply := a; api_status := s;
          error_details := e; response_time := rt; timestamp := now |}] /\
  get_turn_count (add_turn now self g n q a s e rt) g = S (get_turn_count self g).
Proof.
  split; [apply validate_turn_sequence_spec|].
  split; [apply get_conversation_turns_add_turn|].
  unfold get_turn_count. rewrite get_conversation_turns_add_turn, length_app.
  simpl. lia.
Qed.

(** Turn 3 submitted when only turn 1 is recorded: the validator says no,
    and [add_turn] appends it all the same. *)
Lemma out_of_order_turn_is_appended :
  let m1 := add_turn "10:00" init "g" 1 "q1" "a1" "成功" "" 0 in
  let m3 := add_turn "10:01" m1 "g" 3 "q3" "a3" "成功" "" 0 in
  get_turn_count m1 "g" = 1%nat /\
  validate_turn_sequence m1 "g" 3 = false /\
  turn_number <$> get_conversation_turns m3 "g" = [1; 3]%Z.
Proof. repeat split; vm_compute; reflexivity. Qed.

End TurnOrder.

(** ** Run control *)

Section RunControl.
Import Web.

Lemma status_add_log level msg g : status (add_log level msg g) = status g.
Proof. reflexivity. Qed.

Lemma progress_add_log level msg g : run_progress (add_log level msg g) = run_progress g.
Proof. reflexivity. Qed.

(** C5.  [pause_test] is served exactly when the status is running, and then
    sets it to paused; [resume_test] exactly when it is paused, and then sets
    it to running; [stop_test] exactly when it is running or paused, and then
    sets it to stopped and records the end time.  Otherwise each raises
    HTTP 400 and leaves the whole state, the status with it, as it was. *)
Theorem pause_resume_stop_guards (now : string) (g : execution_state) :
  (accepted (pause_test g).1 = bool_decide (status g = Running) /\
   if bool_decide (status g = Running)
   then status (pause_test g).2 = Paused /\ run_progress (pause_test g).2 = run_progress g
   else pause_test g = (Raises (HTTPException 400 "测试未在运行中"), g)) /\
  (accepted (resume_test g).1 = bool_decide (status g = Paused) /\
   if bool_decide (status g = Paused)
   then status (resume_test g).2 = Running /\ run_progress (resume_test g).2 = run_progress g
   else resume_test g = (Raises (HTTPException 400 "测试未处于暂停状态"), g)) /\
  (accepted (stop_test now g).1 = bool_decide (status g = Running \/ status g = Paused) /\
   if bool_decide (status g = Running \/ status g = Paused)
   then status (stop_test now g).2 = Stopped /\ end_time (stop_test now g).2 = Some now
        /\ run_progress (stop_test now g).2 = run_progress g
   else stop_test now g = (Raises (HTTPException 400 "测试未在执行中"), g)).
Proof.
  unfold pause_test, resume_test, stop_test.
  destruct g as [st tid pr t0 t1 stats lg cur]; simpl.
  destruct st; repeat split; reflexivity.
Qed.



End RunControl.


(** ** The command-line loop *)

Section CliFacts.
Context `{PyRuntime}.
Import Cli.

Lemma emit_emit l1 l2 self : emit l2 (emit l1 self) = emit (l1 ++ l2) self.
Proof. unfold emit. simpl. by rewrite app_assoc. Qed.

Lemma retry_loop_first_ok send call self r t :
  send 0%nat = inr (r, t) ->
  retry_loop send call 0 max_retries self = (Responded r t, emit (retry_trace call []) self).
Proof. intros H0. unfold max_retries. simpl. by rewrite H0. Qed.

Lemma retry_loop_second_ok send call self e0 r t :
  send 0%nat = inl e0 -> send 1%nat = inr (r, t) ->
  retry_loop send call 0 max_retries self = (Responded r t, emit (retry_trace call [e0]) self).
Proof.
  intros H0 H1. unfold max_retries. simpl. rewrite H0. simpl. rewrite H1.
  by rewrite emit_emit.
Qed.

Lemma retry_loop_third send call self e0 e1 :
  send 0%nat = inl e0 -> send 1%nat = inl e1 ->
  retry_loop send call 0 max_retries self =
    (match send 2%nat with inr (r, t) => Responded r t | inl e => Raised e end,
     emit (retry_trace call [e0; e1]) self).
Proof.
  intros H0 H1. unfold max_retries. simpl. rewrite H0. simpl. rewrite H1. simpl.
  destruct (send 2%nat) as [e2|[r t]]; by rewrite !emit_emit.
Qed.

(** The retry loop, whatever the calls give: up to two failures, each of any
    kind, are answered by a warning and a sleep of [retry_delay] seconds; the
    call after them decides, and if it fails too its exception is raised as
    it is. *)
Lemma retry_loop_attempts send call self :
  exists (failures : list py_exception) (final : api_outcome),
    (length failures <= 2)%nat /\
    (forall k e, failures !! k = Some e -> send k = inl e) /\
    send (length failures) = final /\
    (length failures = 2%nat \/ exists r t, final = inr (r, t)) /\
    retry_loop send call 0 max_retries self =
      (match final with inr (r, t) => Responded r t | inl e => Raised e end,
       emit (retry_trace call failures) self).
Proof.
  destruct (send 0%nat) as [e0|[r0 t0]] eqn:H0.
  - destruct (send 1%nat) as [e1|[r1 t1]] eqn:H1.
    + exists [e0; e1], (send 2%nat). repeat split.
      * simpl. lia.
      * intros [|[|k]] e Hk; simplify_eq/=; done.
      * by left.
      * by apply retry_loop_third.
    + exists [e0], (inr (r1, t1)). repeat split.
      * simpl. lia.
      * intros [|k] e Hk; simplify_eq/=; done.
      * done.
      * right. eauto.
      * by apply retry_loop_second_ok.
  - exists [], (inr (r0, t0)). repeat split.
    + simpl. lia.
    + intros k e Hk. done.
    + done.
    + right. eauto.
    + by apply retry_loop_first_ok.
Qed.



Lemma no_delay_in_warnings call failures start :
  is_sleep 2 call = false ->
  delays (concat (imap (fun k e =>
                     [call;
                      LogRetryWarning retry_delay (start + k + 1) max_retries (str_exn e);
                      Sleep retry_delay]) failures) ++ [call]) = 0%nat.
Proof.
  intros Hcall.
  assert (is_sleep 2 call <> true) as Hn by (rewrite Hcall; discriminate).
  unfold delays. revert start.
  induction failures as [|e failures IH]; intros start; simpl.
  - by rewrite filter_cons, decide_False by exact Hn.
  - rewrite !filter_cons, !decide_False by (first [exact Hn | simpl; discriminate]).
    specialize (IH (S start)).
    erewrite imap_ext; [exact IH|]. intros k x _. simpl. do 3 f_equal. lia.
Qed.

(** The retry loop takes no inter-case delay: its sleeps last [retry_delay]. *)
Lemma no_delay_in_retry_trace call failures :
  is_sleep 2 call = false ->
  delays (retry_trace call failures) = 0%nat.
Proof. intros Hcall. apply (no_delay_in_warnings call failures 0 Hcall). Qed.

Lemma delays_app l1 l2 : delays (l1 ++ l2) = (delays l1 + delays l2)%nat.
Proof. unfold delays. by rewrite filter_app, length_app. Qed.

(** What [process_test_case] leaves of the store: nothing changed, or one
    [set_conversation_id] with an id that is not empty. *)
Lemma process_test_case_manager send now user_id tc self :
  let m := conversation_manager self in
  let m' := conversation_manager (process_test_case send now user_id tc self).2 in
  m' = m \/
  exists new_conversation_id,
    new_conversation_id <> "" /\
    m' = ConversationManager.set_conversation_id now m (conversation_group_id tc)
           new_conversation_id.
Proof.
  unfold process_test_case. cbv zeta.
  destruct (retry_loop_attempts send
              (Call (user_question tc) user_id
                 match ConversationManager.get_conversation_id (conversation_manager self)
                         (conversation_group_id tc) with
                 | Some c => if String.eqb c "new" then None else Some c
                 | None => None
                 end (inputs tc)) self)
    as (failures & final & _ & _ & _ & _ & ->).
  destruct final as [e|[r t]]; simpl; [by left|].
  destruct (truthy r); [|by left].
  destruct r as [| | | | | |response_data]; simpl; try by left.
  destruct (DifyClient.extract_conversation_id response_data) as [cid|]; simpl; [|by left].
  destruct (str_truthy cid) eqn:Hcid; simpl; [|by left].
  right. exists cid. split; [|reflexivity].
  intros ->. discriminate.
Qed.

(** The effects [process_test_case] adds hold no inter-case delay. *)
Lemma process_test_case_no_delay send now user_id tc self :
  delays (effects (process_test_case send now user_id tc self).2) = delays (effects self).
Proof.
  unfold process_test_case. cbv zeta.
  destruct (retry_loop_attempts send
              (Call (user_question tc) user_id
                 match ConversationManager.get_conversation_id (conversation_manager self)
                         (conversation_group_id tc) with
                 | Some c => if String.eqb c "new" then None else Some c
                 | None => None
                 end (inputs tc)) self)
    as (failures & final & _ & _ & _ & _ & ->).
  assert (forall l, delays (effects self ++ retry_trace
            (Call (user_question tc) user_id
                 match ConversationManager.get_conversation_id (conversation_manager self)
                         (conversation_group_id tc) with
                 | Some c => if String.eqb c "new" then None else Some c
                 | None => None
                 end (inputs tc)) failures ++ l) = (delays (effects self) + delays l)%nat) as Hd.
  { intros l. rewrite !delays_app, no_delay_in_retry_trace by reflexivity. lia. }
  destruct final as [e|[r t]]; simpl.
  - rewrite <- app_assoc, Hd. unfold delays. simpl. lia.
  - destruct (truthy r); simpl.
    + destruct r as [| | | | | |response_data]; simpl;
        try (rewrite <- app_assoc, Hd; unfold delays; simpl; lia).
      destruct (DifyClient.extract_conversation_id response_data) as [cid|]; simpl;
        [destruct (str_truthy cid); simpl|];
        rewrite <- (app_nil_r (retry_trace _ _)), Hd; unfold delays; simpl; lia.
    + rewrite <- (app_nil_r (retry_trace _ _)), Hd. unfold delays. simpl. lia.
Qed.



End CliFacts.

Section CliRunFacts.
Context `{PyRuntime}.
Import Cli.

Lemma effects_emit l self : effects (emit l self) = effects self ++ l.
Proof. reflexivity. Qed.

(** The loop from index [i] on takes one inter-case delay for every index
    below [total - 1]. *)
Lemma delays_one e : delays [e] = if is_sleep 2 e then 1%nat else 0%nat.
Proof.
  unfold delays. rewrite filter_cons. destruct (is_sleep 2 e); reflexivity.
Qed.

Lemma run_cases_delays send clock user_id total i cases results self :
  delays (effects (run_cases send clock user_id total i cases results self).2) =
    (delays (effects self)
     + (Nat.min (i + length cases) (total - 1) - Nat.min i (total - 1)))%nat.
Proof.
  revert i results self.
  induction cases as [|tc cases IH]; intros i results self; simpl.
  - replace (i + 0)%nat with i by lia. lia.
  - pose proof (process_test_case_no_delay (send i) (clock i) user_id tc
                  (emit [ShowProgress i total] self)) as Hd.
    destruct (process_test_case (send i) (clock i) user_id tc
                (emit [ShowProgress i total] self)) as [r self2].
    cbn [snd] in Hd. rewrite effects_emit, delays_app, delays_one in Hd.
    cbn [is_sleep] in Hd. rewrite IH.
    destruct (Nat.ltb_spec i (total - 1)) as [Hlt|Hge].
    + rewrite !effects_emit, !delays_app, !delays_one, Hd. cbn [is_sleep Nat.eqb]. lia.
    + rewrite !effects_emit, !delays_app, !delays_one, Hd. cbn [is_sleep]. lia.
Qed.



(** C8, the command-line loop at fault.  [run] counts its cases from 1 and
    takes the inter-case delay while the index is below [len - 1]: over N
    cases it sleeps N - 2 times and not N - 1, so no delay follows case
    N - 1; with two cases no delay is taken at all. *)
Theorem cli_run_delays_one_short send clock user_id test_cases self :
  delays (effects (run send clock user_id test_cases self).2) =
    (delays (effects self) + (length test_cases - 2))%nat.
Proof.
  unfold run. rewrite run_cases_delays. lia.
Qed.

End CliRunFacts.

(** ** The background task and the server *)

Section WebFacts.
Context `{PyRuntime}.
Import Web.

Lemma progress_update_statistics l g :
  run_progress (update_statistics l g) = run_progress g.
Proof. destruct l; reflexivity. Qed.

Lemma status_update_statistics l g :
  status (update_statistics l g) = status g.
Proof. destruct l; reflexivity. Qed.

Lemma finish_spec env g t :
  run_progress (finish env g t).1 = run_progress g /\
  test_cases (finish env g t).2 = test_cases t /\
  at_await (finish env g t).2 = Finished.
Proof.
  unfold finish, run_error.
  destruct (storage_error env); [done|].
  destruct (decide (status g = Running)); done.
Qed.

(** [after_case] counts the case as completed and then either sleeps before
    the next case, which exists, or finishes. *)
Lemma after_case_spec env i r g t :
  (i < length (test_cases t))%nat ->
  run_progress (after_case env i r g t).1 = run_progress (incr_completed g) /\
  test_cases (after_case env i r g t).2 = test_cases t /\
  (at_await (after_case env i r g t).2 = Finished \/
   (at_await (after_case env i r g t).2 = AtCaseDelay i /\
    (S i < length (test_cases t))%nat)).
Proof.
  intros Hi. unfold after_case. cbv zeta.
  change (test_cases (append_result r t)) with (test_cases t).
  destruct (Nat.ltb_spec i (length (test_cases t) - 1)) as [Hlt|Hge]; cbn [andb].
  - destruct (bool_decide _); cbn [negb].
    + destruct (Nat.ltb_spec (S i) (length (test_cases t))); [|lia].
      destruct (finish_spec env
                  (add_log "warning" MsgStoppedByUser
                     (update_statistics (response_times (append_result r t)) (incr_completed g)))
                  (append_result r t)) as (Hp & Ht & Ha).
      rewrite Hp, Ht, Ha. rewrite progress_add_log, progress_update_statistics. auto.
    + cbn [fst snd]. rewrite progress_update_statistics. split; [done|]. split; [done|].
      right. split; [done|lia].
  - destruct (Nat.ltb_spec (S i) (length (test_cases t))); [lia|].
    destruct (finish_spec env
                (update_statistics (response_times (append_result r t)) (incr_completed g))
                (append_result r t)) as (Hp & Ht & Ha).
    rewrite Hp, Ht, Ha. rewrite progress_update_statistics. auto.
Qed.

Lemma counted_failed g g' :
  run_progress g' = run_progress (incr_completed (incr_failed g)) -> counted g g'.
Proof.
  intros Hp. unfold counted. rewrite Hp. simpl.
  split; [done|]. split; [lia|]. right. split; [done|lia].
Qed.

Lemma counted_success g g' :
  run_progress g' = run_progress (incr_completed (incr_success g)) -> counted g g'.
Proof.
  intros Hp. unfold counted. rewrite Hp. simpl.
  split; [done|]. split; [lia|]. left. split; [lia|done].
Qed.

Lemma counted_same_counts g0 g g' :
  counts g = counts g0 -> counted g g' -> counted g0 g'.
Proof.
  unfold counts, counted. intros Hc Hcounted.
  injection Hc as Ht Hco Hs Hf. rewrite <- Ht, <- Hco, <- Hs, <- Hf. exact Hcounted.
Qed.

Lemma case_raised_spec env i r error g t :
  (i < length (test_cases t))%nat ->
  counted g (case_raised env i r error g t).1 /\
  case_closed i (test_cases t) (case_raised env i r error g t).2.
Proof.
  intros Hi. unfold case_raised. cbv zeta.
  destruct (after_case_spec env i (with_error_details error r)
              (add_log "error" (MsgCaseFailed (i + 1) error) (incr_failed g)) t Hi)
    as (Hp & Hc).
  split; [|exact Hc]. apply counted_failed. rewrite Hp. reflexivity.
Qed.

(** The same when a reply was shown before the case failed. *)
Lemma case_raised_shown env i r error shown g t :
  (i < length (test_cases t))%nat ->
  counted g (case_raised env i r error (set_current_response shown g) t).1 /\
  case_closed i (test_cases t) (case_raised env i r error (set_current_response shown g) t).2.
Proof.
  intros Hi.
  destruct (case_raised_spec env i r error (set_current_response shown g) t Hi) as [Hc Hclosed].
  split; [|exact Hclosed]. by apply (counted_same_counts g (set_current_response shown g)).
Qed.

Lemma no_response_spec env i r g t :
  (i < length (test_cases t))%nat ->
  counted g (after_case env i r (add_log "error" (MsgCaseNoResponse (i + 1)) (incr_failed g)) t).1 /\
  case_closed i (test_cases t) (after_case env i r (add_log "error" (MsgCaseNoResponse (i + 1)) (incr_failed g)) t).2.
Proof.
  intros Hi.
  destruct (after_case_spec env i r
              (add_log "error" (MsgCaseNoResponse (i + 1)) (incr_failed g)) t Hi)
    as (Hp & Hc).
  split; [|exact Hc]. apply counted_failed. rewrite Hp. reflexivity.
Qed.

Lemma record_outcome_spec env i r api_response response_time g t :
  (i < length (test_cases t))%nat ->
  counted g (record_outcome env i r api_response response_time g t).1 /\
  case_closed i (test_cases t) (record_outcome env i r api_response response_time g t).2.
Proof.
  intros Hi. unfold record_outcome. cbv zeta.
  set (r1 := with_response_time _ r).
  set (t1 := append_response_time _ t).
  assert (Hi1 : (i < length (test_cases t1))%nat) by exact Hi.
  change (test_cases t) with (test_cases t1).
  destruct api_response as [response|]; [|by apply no_response_spec].
  destruct (truthy response && negb (bool_decide (status g = Stopped)));
    [|by apply no_response_spec].
  destruct response as [| | | | | |response_data];
    try (destruct (DifyClient.extract_answer_other _);
         [by apply case_raised_shown|by apply case_raised_spec]).
  set (t2 := match DifyClient.extract_conversation_id response_data with
             | Some _ => _ | None => _ end).
  assert (Ht2 : test_cases t2 = test_cases t1).
  { subst t2. destruct (DifyClient.extract_conversation_id response_data) as [c|]; [|done].
    destruct (str_truthy c); done. }
  assert (Hi2 : (i < length (test_cases t2))%nat) by (rewrite Ht2; exact Hi).
  match goal with |- context [after_case env i ?r' ?g' t2] =>
    destruct (after_case_spec env i r' g' t2 Hi2) as (Hp & Hc1 & Hc2) end.
  split.
  - apply counted_success. rewrite Hp. reflexivity.
  - split; [by rewrite Hc1|]. by rewrite <- Ht2.
Qed.


Lemma attempt_call_spec env i attempt tc r c g t a :
  (i < length (test_cases t))%nat ->
  test_cases (attempt_call env i attempt tc r c g t).2 = test_cases t /\
  segment_outcome i g (test_cases t) a (attempt_call env i attempt tc r c g t).1
                        (attempt_call env i attempt tc r c g t).2.
Proof.
  intros Hi. unfold attempt_call.
  destruct (decide (status g = Stopped)).
  { destruct (record_outcome_spec env i r None (PyInt 0) g t Hi) as (Hc & Ht & Ha).
    split; [done|]. by apply CaseCounted. }
  cbv zeta.
  set (outcome := if str_truthy (inputs tc) then _ else _).
  assert (Hout : test_cases outcome.2 = test_cases t).
  { subst outcome. destruct (str_truthy (inputs tc)); [|done].
    destruct (json_loads (inputs tc)); done. }
  destruct outcome as [o t1]. cbn [snd] in Hout.
  assert (Hi1 : (i < length (test_cases t1))%nat) by (rewrite Hout; exact Hi).
  destruct o as [e|[api_response response_time]].
  - destruct (Nat.ltb attempt (max_retries - 1)).
    + cbn [fst snd]. split; [done|].
      apply NothingCounted; [reflexivity|].
      right. right. left. split; [|done]. simpl. eauto.
    + destruct (case_raised_spec env i r (str_exn e) g t1 Hi1) as (Hc & Ht & Ha).
      split; [congruence|]. apply CaseCounted; [done|done|].
      by rewrite <- Hout.
  - destruct (record_outcome_spec env i r (Some api_response) (PyFloat response_time) g t1 Hi1)
      as (Hc & Ht & Ha).
    split; [congruence|]. apply CaseCounted; [done|done|].
    by rewrite <- Hout.
Qed.

Lemma segment_outcome_same_counts i g0 g cases a g' t' :
  counts g = counts g0 ->
  segment_outcome i g cases a g' t' -> segment_outcome i g0 cases a g' t'.
Proof.
  intros Hc [Hn Ha|Hcounted Hi Ha].
  - apply NothingCounted; [congruence|done].
  - apply CaseCounted; [|done|done]. by apply (counted_same_counts g0 g).
Qed.

Lemma begin_case_spec env i tc g t a :
  (i < length (test_cases t))%nat ->
  test_cases (begin_case env i tc g t).2 = test_cases t /\
  segment_outcome i g (test_cases t) a (begin_case env i tc g t).1 (begin_case env i tc g t).2.
Proof.
  intros Hi. unfold begin_case. cbv zeta.
  match goal with |- context [attempt_call env i 0 tc ?r ?c ?g1 t] =>
    destruct (attempt_call_spec env i 0 tc r c g1 t a Hi) as (Ht & Hs);
    split; [exact Ht|];
    apply (segment_outcome_same_counts i g g1); [reflexivity|exact Hs]
  end.
Qed.

Lemma finish_outcome env i g0 g t a :
  counts g = counts g0 ->
  test_cases (finish env g t).2 = test_cases t /\
  segment_outcome i g0 (test_cases t) a (finish env g t).1 (finish env g t).2.
Proof.
  intros Hc. destruct (finish_spec env g t) as (Hp & Ht & Ha).
  split; [done|]. apply NothingCounted; [|by left].
  unfold counts. rewrite Hp. exact Hc.
Qed.

Lemma loop_head_spec env i g t a :
  test_cases (loop_head env i g t).2 = test_cases t /\
  segment_outcome i g (test_cases t) a (loop_head env i g t).1 (loop_head env i g t).2.
Proof.
  unfold loop_head.
  destruct (test_cases t !! i) as [tc|] eqn:Hlookup; [|by apply finish_outcome].
  apply lookup_lt_Some in Hlookup.
  destruct (decide (status g = Paused)).
  { split; [done|]. apply NothingCounted; [done|]. right. left. done. }
  destruct (decide (status g = Stopped)); [by apply finish_outcome|].
  by apply begin_case_spec.
Qed.

Lemma run_error_outcome env i error g t a :
  test_cases (run_error env error g t).2 = test_cases t /\
  segment_outcome i g (test_cases t) a (run_error env error g t).1 (run_error env error g t).2.
Proof. split; [done|]. apply NothingCounted; [done|by left]. Qed.

(** What one segment does, whatever the task was suspended at. *)
Lemma resume_spec env g t :
  test_cases (resume env g t).2 = test_cases t /\
  segment_outcome (next_case (at_await t)) g (test_cases t) (at_await t)
    (resume env g t).1 (resume env g t).2.
Proof.
  unfold resume.
  destruct (at_await t) as [|i|i attempt r c|i|] eqn:Hat; cbn [next_case].
  - unfold enter. cbv zeta.
    change (test_cases t) with (test_cases (with_local_task_id (task_id g) t)).
    destruct (init_error env); [by apply run_error_outcome|].
    match goal with |- context [loop_head env 0 ?g1 ?t1] =>
      destruct (loop_head_spec env 0 g1 t1 AtStart) as (Ht & Hs) end.
    split; [exact Ht|].
    by apply (segment_outcome_same_counts _ g
                (add_log "info" MsgEngineReady g)).
  - apply loop_head_spec.
  - destruct (test_cases t !! i) as [tc|] eqn:Hlookup.
    + apply lookup_lt_Some in Hlookup. by apply attempt_call_spec.
    + cbn [fst snd]. split; [done|]. apply NothingCounted; [done|]. by right; right; right.
  - apply loop_head_spec.
  - cbn [fst snd]. split; [done|]. apply NothingCounted; [done|]. by left.
Qed.


(** The counters add up after a segment if they did before. *)
Lemma resume_adds_up env g t :
  counters_add_up g -> counters_add_up (resume env g t).1.
Proof.
  intros Hg. destruct (resume_spec env g t) as [_ [Hn _|Hc _ _]].
  - unfold counters_add_up, counts in *. injection Hn as _ Hco Hs Hf.
    by rewrite Hco, Hs, Hf.
  - unfold counters_add_up, counted in *.
    destruct Hc as (_ & Hco & [[Hs Hf]|[Hs Hf]]); rewrite Hco, Hs, Hf; lia.
Qed.

Lemma start_test_adds_up cases configs uuid now g :
  counters_add_up g -> counters_add_up (start_test cases configs uuid now g).1.2.
Proof.
  intros Hg. unfold start_test.
  destruct (decide (status g = Running)); [done|].
  destruct cases; [done|].
  destruct (list_find _ configs) as [[? ?]|]; [|done].
  reflexivity.
Qed.

Lemma step_adds_up e sv :
  counters_add_up (state sv) -> counters_add_up (state (step e sv)).
Proof.
  intros Hg. destruct e as [cases configs uuid now| | |now| |k env]; simpl.
  - pose proof (start_test_adds_up cases configs uuid now (state sv) Hg) as Hs.
    destruct (start_test cases configs uuid now (state sv)) as [[r g] added]. exact Hs.
  - unfold pause_test. destruct (decide (status (state sv) <> Running)); done.
  - unfold resume_test. destruct (decide (status (state sv) <> Paused)); done.
  - unfold stop_test. destruct (negb _); done.
  - done.
  - destruct (tasks sv !! k) as [t|]; [|done].
    pose proof (resume_adds_up env (state sv) t Hg) as Hr.
    destruct (resume env (state sv) t) as [g t']. exact Hr.
Qed.

Lemma run_events_adds_up events sv :
  counters_add_up (state sv) -> counters_add_up (state (run_events events sv)).
Proof.
  revert sv. induction events as [|e events IH]; intros sv Hg; [done|].
  simpl. apply IH. by apply step_adds_up.
Qed.

(** A task in step with the counters stays in step over a segment. *)
Lemma resume_in_step env g t :
  in_step g t -> in_step (resume env g t).1 (resume env g t).2.
Proof.
  intros [Htotal Hat].
  assert (Hcase : at_await t = Finished \/
                  (completed (run_progress g) = next_case (at_await t) /\
                   (completed (run_progress g) <= length (test_cases t))%nat)).
  { destruct (at_await t); simpl in *; try (right; lia). left; reflexivity. }
  destruct Hcase as [Hfin|Hnext].
  { unfold resume. rewrite Hfin. split; [done|]. simpl. rewrite Hfin in Hat |- *. exact Hat. }
  destruct Hnext as [Hnext Hle].
  destruct (resume_spec env g t) as [Hcases Hout].
  unfold in_step. rewrite Hcases.
  destruct Hout as [Hn Ha|Hc Hi Ha].
  - unfold counts in Hn. injection Hn as Ht Hco _ _. rewrite Ht, Hco.
    split; [done|].
    destruct Ha as [Ha|[[Ha Hi]|[[(attempt & r & c & Ha) Hi]|Ha]]]; rewrite Ha.
    + exact Hle.
    + split; [done|exact Hi].
    + split; [done|exact Hi].
    + exact Hat.
  - destruct Hc as (Ht & Hco & _). rewrite Ht, Hco, Hnext.
    split; [done|].
    destruct Ha as [Ha|[Ha Hlt]]; rewrite Ha.
    + lia.
    + split; [done|exact Hlt].
Qed.

End WebFacts.

Section ServerFacts.
Context `{PyRuntime}.
Import Web.

(** X1.  The counters add up at every state the server goes through:
    success + failed = completed, whatever requests and wake-ups of
    background tasks came before. *)
Lemma counters_always_add_up events :
  counters_add_up (state (run_events events boot)).
Proof. apply run_events_adds_up. reflexivity. Qed.

Lemma in_step_same_progress g g' t :
  run_progress g' = run_progress g -> in_step g t -> in_step g' t.
Proof. unfold in_step. by intros ->. Qed.

Lemma in_step_within_total g t : in_step g t -> within_total g.
Proof.
  unfold in_step, within_total. intros [Ht Ha]. rewrite Ht.
  destruct (at_await t); lia.
Qed.

Lemma step_single_task e sv :
  is_start e = false -> single_task sv -> single_task (step e sv).
Proof.
  intros He [[Htasks Hstate]|(t & Htasks & Hstep)].
  - left. destruct e as [? ? ? ?| | |now| |k env]; try discriminate; simpl;
      rewrite ?Htasks, ?Hstate; simpl; done.
  - right. destruct e as [? ? ? ?| | |now| |k env]; try discriminate; simpl.
    + exists t. split; [done|]. unfold pause_test.
      destruct (decide (status (state sv) <> Running)); [done|].
      by apply (in_step_same_progress (state sv)).
    + exists t. split; [done|]. unfold resume_test.
      destruct (decide (status (state sv) <> Paused)); [done|].
      by apply (in_step_same_progress (state sv)).
    + exists t. split; [done|]. unfold stop_test.
      destruct (negb _); [done|].
      by apply (in_step_same_progress (state sv)).
    + exists t. done.
    + rewrite Htasks. destruct k as [|k]; simpl; [|exists t; by rewrite Htasks].
      pose proof (resume_in_step env (state sv) t Hstep) as Hr.
      destruct (resume env (state sv) t) as [g t']. exists t'. done.
Qed.

Lemma start_single_task cases configs uuid now sv :
  tasks sv = [] -> state sv = initial_state ->
  single_task (step (ReqStart cases configs uuid now) sv).
Proof.
  intros Htasks Hstate. simpl. rewrite Hstate, Htasks. unfold start_test. simpl.
  destruct cases as [|tc cases]; [by left|].
  destruct (list_find _ configs) as [[k c]|]; [|by left].
  right. eexists. split; [reflexivity|]. split; reflexivity.
Qed.

Lemma run_events_single_task events sv :
  Forall (fun e => is_start e = false) events ->
  single_task sv -> single_task (run_events events sv).
Proof.
  intros Hev. revert sv. induction Hev as [|e events He _ IH]; intros sv Hsv; [done|].
  simpl. apply IH. by apply step_single_task.
Qed.

Lemma run_events_app events1 events2 sv :
  run_events (events1 ++ events2) sv = run_events events2 (run_events events1 sv).
Proof. unfold run_events. by rewrite foldl_app. Qed.

Lemma single_task_within_total sv : single_task sv -> within_total (state sv).
Proof.
  intros [[_ ->]|(t & _ & Hstep)].
  - unfold within_total. simpl. lia.
  - by apply (in_step_within_total _ t).
Qed.

(** X2.  While no more than one [start] request has been made, [completed]
    never exceeds [total], at any state the server goes through. *)
Lemma within_total_single_start before cases configs uuid now after :
  Forall (fun e => is_start e = false) before ->
  Forall (fun e => is_start e = false) after ->
  within_total (state (run_events (before ++ ReqStart cases configs uuid now :: after) boot)).
Proof.
  intros Hbefore Hafter. apply single_task_within_total.
  rewrite run_events_app. change (ReqStart cases configs uuid now :: after)
    with ([ReqStart cases configs uuid now] ++ after).
  rewrite run_events_app. apply run_events_single_task; [done|].
  assert (single_task (run_events before boot)) as Hs.
  { apply run_events_single_task; [done|]. by left. }
  simpl. destruct Hs as [[Htasks Hstate]|(t & Htasks & Hstep)].
  - by apply start_single_task.
  - (* a task exists without a start: impossible *)
    exfalso. clear Hafter.
    assert (forall events sv, Forall (fun e => is_start e = false) events ->
              tasks sv = [] -> tasks (run_events events sv) = []) as Hnone.
    { intros events sv Hev. revert sv.
      induction Hev as [|e events He _ IH]; intros sv Hsv; [done|].
      simpl. apply IH.
      destruct e as [? ? ? ?| | |now'| |k env]; try discriminate; simpl; try done.
      rewrite Hsv. done. }
    rewrite (Hnone before boot Hbefore eq_refl) in Htasks. discriminate.
Qed.

End ServerFacts.

Section WebRetryFacts.
Context `{PyRuntime}.
Import Web.

(** What [finish] leaves of the task: its results, and effects with no call
    added. *)
Lemma finish_task env g t :
  results (finish env g t).2 = results t /\
  exists tail, effects (finish env g t).2 = effects t ++ tail /\
               Forall (fun e => is_call e = false) tail.
Proof.
  unfold finish, run_error. cbv zeta.
  destruct (storage_error env); [|destruct (decide (status g = Running))];
    (split; [reflexivity|]); simpl.
  - eexists. rewrite <- app_assoc. split; [reflexivity|]. by repeat constructor.
  - eexists. split; [reflexivity|]. by repeat constructor.
  - eexists. split; [reflexivity|]. by repeat constructor.
Qed.

Lemma after_case_task env i r g t :
  results (after_case env i r g t).2 = results t ++ [r] /\
  exists tail, effects (after_case env i r g t).2 = effects t ++ tail /\
               Forall (fun e => is_call e = false) tail.
Proof.
  unfold after_case. cbv zeta.
  destruct (_ && _).
  - split; [reflexivity|]. eexists. split; [reflexivity|]. by repeat constructor.
  - destruct (Nat.ltb _ _).
    + match goal with |- context [finish env ?g1 ?t1] =>
        destruct (finish_task env g1 t1) as (Hr & tail & He & Ht) end.
      rewrite Hr, He. split; [reflexivity|]. by exists tail.
    + match goal with |- context [finish env ?g1 ?t1] =>
        destruct (finish_task env g1 t1) as (Hr & tail & He & Ht) end.
      rewrite Hr, He. split; [reflexivity|]. by exists tail.
Qed.

(** When another case follows and the run was not stopped, the task sleeps
    the inter-case delay and the status is left alone. *)
Lemma after_case_goes_on env i r g t :
  (S i < length (test_cases t))%nat ->
  status g <> Stopped ->
  at_await (after_case env i r g t).2 = AtCaseDelay i /\
  status (after_case env i r g t).1 = status g /\
  effects (after_case env i r g t).2 = effects t ++ [Sleep 2].
Proof.
  intros Hi Hs. unfold after_case. cbv zeta.
  change (test_cases (append_result r t)) with (test_cases t).
  destruct (Nat.ltb_spec i (length (test_cases t) - 1)) as [_|Hge]; [|lia].
  rewrite status_update_statistics.
  change (status (incr_completed g)) with (status g).
  rewrite bool_decide_eq_false_2 by done. cbn [andb negb fst snd].
  by rewrite status_update_statistics.
Qed.


End WebRetryFacts.

(** ** Session ids *)

Section SessionFacts.
Context `{PyRuntime}.
Import ConversationManager.

Lemma ids_kept_refl m : ids_kept m m.
Proof. intros g c Hg Hc. eauto. Qed.

Lemma ids_kept_trans m1 m2 m3 : ids_kept m1 m2 -> ids_kept m2 m3 -> ids_kept m1 m3.
Proof.
  intros H12 H23 g c Hg Hc.
  destruct (H12 g c Hg Hc) as (c2 & Hg2 & Hc2). by apply (H23 g c2).
Qed.

Lemma mapping_set_conversation_id now m g c :
  _conversation_mapping (set_conversation_id now m g c) = <[g := c]> (_conversation_mapping m).
Proof. unfold set_conversation_id. by destruct (_conversation_mapping m !! g). Qed.

Lemma logged_set_conversation_id now m g c :
  exists entry, is_set_call entry = true /\
    logged (set_conversation_id now m g c) = logged m ++ [entry].
Proof.
  unfold set_conversation_id.
  destruct (_conversation_mapping m !! g);
    [exists (LogUpdated g c) | exists (LogCreated g c)]; split; reflexivity.
Qed.

(** Storing an id that is not empty keeps every stored id not empty. *)
Lemma set_conversation_id_ids_kept now m g c :
  c <> "" -> ids_kept m (set_conversation_id now m g c).
Proof.
  intros Hc g' c' Hg' Hc'. rewrite mapping_set_conversation_id.
  destruct (decide (g = g')) as [->|Hne].
  - exists c. by rewrite lookup_insert_eq.
  - exists c'. by rewrite lookup_insert_ne.
Qed.

Lemma set_calls_set_conversation_id now m g c :
  set_calls (set_conversation_id now m g c) = S (set_calls m).
Proof.
  unfold set_calls. destruct (logged_set_conversation_id now m g c) as (entry & He & ->).
  rewrite filter_app, length_app, filter_cons, decide_True by done. simpl. lia.
Qed.

(** Nothing changed, or one [set_conversation_id] with an id that is not
    empty: at most one more call, and the ids kept. *)
Lemma one_guarded_set now m m' :
  guarded_set now m m' ->
  (set_calls m' <= S (set_calls m))%nat /\ ids_kept m m'.
Proof.
  intros [->|(g & c & Hc & ->)].
  - split; [lia|apply ids_kept_refl].
  - split; [rewrite set_calls_set_conversation_id; lia|].
    by apply set_conversation_id_ids_kept.
Qed.

End SessionFacts.

Section CliSessionFacts.
Context `{PyRuntime}.

Lemma process_test_case_session send now user_id tc self :
  (ConversationManager.set_calls (Cli.conversation_manager (Cli.process_test_case send now user_id tc self).2)
   <= S (ConversationManager.set_calls (Cli.conversation_manager self)))%nat /\
  ConversationManager.ids_kept (Cli.conversation_manager self)
    (Cli.conversation_manager (Cli.process_test_case send now user_id tc self).2).
Proof.
  apply (one_guarded_set now).
  destruct (process_test_case_manager send now user_id tc self) as [Hm|(c & Hc & Hm)].
  - by left.
  - right. eauto.
Qed.

Lemma run_cases_session send clock user_id total i cases results self :
  (ConversationManager.set_calls
     (Cli.conversation_manager (Cli.run_cases send clock user_id total i cases results self).2)
   <= ConversationManager.set_calls (Cli.conversation_manager self) + length cases)%nat /\
  ConversationManager.ids_kept (Cli.conversation_manager self)
    (Cli.conversation_manager (Cli.run_cases send clock user_id total i cases results self).2).
Proof.
  revert i results self.
  induction cases as [|tc cases IH]; intros i results self; simpl.
  - split; [lia|apply ids_kept_refl].
  - pose proof (process_test_case_session (send i) (clock i) user_id tc
                  (Cli.emit [Cli.ShowProgress i total] self)) as [Hcalls Hkept].
    destruct (Cli.process_test_case (send i) (clock i) user_id tc
                (Cli.emit [Cli.ShowProgress i total] self)) as [r self2].
    cbn [snd] in Hcalls, Hkept.
    change (Cli.conversation_manager (Cli.emit [Cli.ShowProgress i total] self))
      with (Cli.conversation_manager self) in Hcalls, Hkept.
    match goal with |- context [Cli.run_cases _ _ _ _ (S i) cases ?rs ?s3] =>
      destruct (IH (S i) rs s3) as [Hcalls' Hkept'];
      assert (Cli.conversation_manager s3 = Cli.conversation_manager self2) as Hm
        by (destruct (Nat.ltb i (total - 1)); reflexivity)
    end.
    rewrite Hm in Hcalls', Hkept'.
    split; [lia|]. by apply (ids_kept_trans _ (Cli.conversation_manager self2)).
Qed.

End CliSessionFacts.

Section WebSessionFacts.
Context `{PyRuntime}.
Import Web.

Lemma finish_manager env g t :
  conversation_manager (finish env g t).2 = conversation_manager t.
Proof.
  unfold finish, run_error. cbv zeta.
  destruct (storage_error env); [done|].
  destruct (decide (status g = Running)); done.
Qed.

Lemma after_case_manager env i r g t :
  conversation_manager (after_case env i r g t).2 = conversation_manager t.
Proof.
  unfold after_case. cbv zeta.
  destruct (_ && _); [done|].
  destruct (Nat.ltb _ _); by rewrite finish_manager.
Qed.

Lemma record_outcome_manager env i r api_response response_time g t :
  ConversationManager.guarded_set (now env) (conversation_manager t)
    (conversation_manager (record_outcome env i r api_response response_time g t).2).
Proof.
  unfold record_outcome, case_raised. cbv zeta.
  destruct api_response as [response|]; [|rewrite after_case_manager; by left].
  destruct (truthy response && negb (bool_decide (status g = Stopped)));
    [|rewrite after_case_manager; by left].
  destruct response as [| | | | | |response_data];
    try (destruct (DifyClient.extract_answer_other _); rewrite after_case_manager; by left).
  rewrite after_case_manager.
  destruct (DifyClient.extract_conversation_id response_data) as [c|]; [|by left].
  destruct (str_truthy c) eqn:Hc; [|by left].
  right. eexists _, c. split; [|reflexivity].
  intros ->. discriminate.
Qed.

Lemma attempt_call_manager env i attempt tc r c g t :
  ConversationManager.guarded_set (now env) (conversation_manager t)
    (conversation_manager (attempt_call env i attempt tc r c g t).2).
Proof.
  unfold attempt_call.
  destruct (decide (status g = Stopped)); [apply record_outcome_manager|].
  cbv zeta.
  set (outcome := if str_truthy (inputs tc) then _ else _).
  assert (Hout : conversation_manager outcome.2 = conversation_manager t).
  { subst outcome. destruct (str_truthy (inputs tc)); [|done].
    destruct (json_loads (inputs tc)); done. }
  destruct outcome as [o t1]. cbn [snd] in Hout. rewrite <- Hout.
  destruct o as [e|[api_response response_time]].
  - destruct (Nat.ltb attempt (max_retries - 1)); [by left|].
    unfold case_raised. cbv zeta. rewrite after_case_manager. by left.
  - apply record_outcome_manager.
Qed.

Lemma loop_head_manager env i g t :
  ConversationManager.guarded_set (now env) (conversation_manager t)
    (conversation_manager (loop_head env i g t).2).
Proof.
  unfold loop_head.
  destruct (test_cases t !! i) as [tc|]; [|rewrite finish_manager; by left].
  destruct (decide (status g = Paused)); [by left|].
  destruct (decide (status g = Stopped)); [rewrite finish_manager; by left|].
  unfold begin_case. cbv zeta. apply attempt_call_manager.
Qed.

(** One segment of a task stores at most one id, and never an empty one. *)
Lemma resume_manager env g t :
  ConversationManager.guarded_set (now env) (conversation_manager t)
    (conversation_manager (resume env g t).2).
Proof.
  unfold resume.
  destruct (at_await t) as [|i|i attempt r c|i|].
  - unfold enter. cbv zeta. destruct (init_error env); [by left|].
    match goal with |- context [loop_head env 0 ?g1 ?t1] =>
      exact (loop_head_manager env 0 g1 t1) end.
  - apply loop_head_manager.
  - destruct (test_cases t !! i) as [tc|]; [apply attempt_call_manager|by left].
  - apply loop_head_manager.
  - by left.
Qed.

End WebSessionFacts.

(** ** Retry exhaustion *)

Section ExhaustedFacts.
Context `{PyRuntime}.



End ExhaustedFacts.

(** ** The retry loop, and the session ids over the engine *)

Section RetryFacts.
Context `{PyRuntime}.


(** C6.  The engine stores a session id at most once per turn and never an
    empty one: over one [process_test_case], over a whole [run] of the
    command-line loop, and over one segment of the web task (which works on
    at most one case), the number of [set_conversation_id] calls grows by at
    most one per turn, and every group whose stored id was not empty still
    has a stored id that is not empty. *)
Theorem session_id_set_once_never_emptied :
  (forall send now user_id tc self,
     let m := Cli.conversation_manager self in
     let m' := Cli.conversation_manager (Cli.process_test_case send now user_id tc self).2 in
     (ConversationManager.set_calls m' <= S (ConversationManager.set_calls m))%nat /\
     ConversationManager.ids_kept m m') /\
  (forall send clock user_id test_cases self,
     let m := Cli.conversation_manager self in
     let m' := Cli.conversation_manager (Cli.run send clock user_id test_cases self).2 in
     (ConversationManager.set_calls m'
      <= ConversationManager.set_calls m + length test_cases)%nat /\
     ConversationManager.ids_kept m m') /\
  (forall env g t,
     let m := Web.conversation_manager t in
     let m' := Web.conversation_manager (Web.resume env g t).2 in
     (ConversationManager.set_calls m' <= S (ConversationManager.set_calls m))%nat /\
     ConversationManager.ids_kept m m').
Proof.
  split; [|split].
  - intros. apply process_test_case_session.
  - intros. apply run_cases_session.
  - intros env g t m m'. apply (one_guarded_set (Web.now env)). apply resume_manager.
Qed.

End RetryFacts.

(** ** The inter-case delay of the web task *)

Section WebDelayFacts.
Context `{PyRuntime}.
Import Web.

Lemma finish_no_sleep env g t :
  exists tail, effects (finish env g t).2 = effects t ++ tail /\
               Forall (fun e => is_sleep e = false) tail.
Proof.
  unfold finish, run_error. cbv zeta.
  destruct (storage_error env); [|destruct (decide (status g = Running))]; simpl.
  - eexists. rewrite <- app_assoc. split; [reflexivity|]. by repeat constructor.
  - eexists. split; [reflexivity|]. by repeat constructor.
  - eexists. split; [reflexivity|]. by repeat constructor.
Qed.

(** X3.  In the web task, a run that was not stopped sleeps the inter-case delay
    after a case exactly when another case follows: after the last case the
    task finishes without a sleep. *)
Lemma web_delay_after_all_but_last env i r g t :
  (i < length (test_cases t))%nat ->
  status g <> Stopped ->
  if Nat.ltb (S i) (length (test_cases t))
  then at_await (after_case env i r g t).2 = AtCaseDelay i /\
       effects (after_case env i r g t).2 = effects t ++ [Sleep 2]
  else at_await (after_case env i r g t).2 = Finished /\
       exists tail, effects (after_case env i r g t).2 = effects t ++ tail /\
                    Forall (fun e => is_sleep e = false) tail.
Proof.
  intros Hi Hs.
  destruct (Nat.ltb_spec (S i) (length (test_cases t))) as [Hnext|Hlast].
  - destruct (after_case_goes_on env i r g t Hnext Hs) as (Ha & _ & He). done.
  - unfold after_case. cbv zeta.
    change (test_cases (append_result r t)) with (test_cases t).
    destruct (Nat.ltb_spec i (length (test_cases t) - 1)) as [Hlt|_]; [lia|].
    cbn [andb].
    destruct (Nat.ltb_spec (S i) (length (test_cases t))) as [Hlt|_]; [lia|].
    match goal with |- context [finish env ?g1 ?t1] =>
      destruct (finish_spec env g1 t1) as (_ & _ & Ha);
      destruct (finish_no_sleep env g1 t1) as (tail & He & Ht) end.
    split; [exact Ha|]. exists tail. split; [exact He|exact Ht].
Qed.

End WebDelayFacts.

(** ** The store as a map *)

Section StoreCalls.
Import ConversationManager.

Lemma set_conversation_id_turns now m g c :
  _conversation_turns (set_conversation_id now m g c) = _conversation_turns m.
Proof. unfold set_conversation_id. by destruct (_ !! g). Qed.

Lemma set_conversation_id_created now m g c :
  _conversation_created_time (set_conversation_id now m g c) =
    if is_new_conversation m g then <[g := now]> (_conversation_created_time m)
    else _conversation_created_time m.
Proof.
  unfold set_conversation_id, is_new_conversation.
  by destruct (_ !! g).
Qed.

(** X4.  Storing a session id and reading it back: after
    [set_conversation_id] the group is no longer new and its id is the one
    stored; [clear_conversation] removes the id, the turns and the last turn
    of the group; both leave the ids and turns of every other group as they
    were, and storing an id never touches the recorded turns. *)
Theorem store_round_trips now m g c g' :
  get_conversation_id (set_conversation_id now m g c) g = Some c /\
  is_new_conversation (set_conversation_id now m g c) g = false /\
  get_conversation_id (clear_conversation (set_conversation_id now m g c) g) g = None /\
  is_new_conversation (clear_conversation m g) g = true /\
  get_conversation_turns (clear_conversation m g) g = [] /\
  get_last_turn (clear_conversation m g) g = None /\
  (g' <> g ->
     get_conversation_id (set_conversation_id now m g c) g' = get_conversation_id m g' /\
     get_conversation_id (clear_conversation m g) g' = get_conversation_id m g' /\
     get_conversation_turns (clear_conversation m g) g' = get_conversation_turns m g') /\
  get_conversation_turns (set_conversation_id now m g c) g' = get_conversation_turns m g'.
Proof.
  unfold get_conversation_id, is_new_conversation, get_last_turn, get_conversation_turns.
  rewrite mapping_set_conversation_id, set_conversation_id_turns. simpl.
  rewrite !lookup_delete_eq, lookup_insert_eq. simpl.
  repeat split; try done.
  - by rewrite lookup_insert_ne.
  - by rewrite lookup_delete_ne.
  - by rewrite lookup_delete_ne.
Qed.

Lemma timed_init : timed init.
Proof. intros g. simpl. rewrite !lookup_empty. split; intros [? ?]; done. Qed.

Lemma timed_apply_call m c : timed m -> timed (apply_call m c).
Proof.
  intros Hm g. destruct c as [now g0 cid|now g0 n q a s e rt|g0|]; simpl.
  - rewrite mapping_set_conversation_id, set_conversation_id_created.
    unfold is_new_conversation.
    destruct (decide (g = g0)) as [->|Hne].
    + rewrite lookup_insert_eq. split; [intros _|by eauto].
      case_bool_decide as Hnew.
      * rewrite lookup_insert_eq. by eauto.
      * apply Hm. by apply not_eq_None_Some.
    + rewrite lookup_insert_ne by done. rewrite (Hm g).
      case_bool_decide; [by rewrite lookup_insert_ne|done].
  - apply Hm.
  - destruct (decide (g = g0)) as [->|Hne].
    + rewrite !lookup_delete_eq. split; intros [? ?]; done.
    + rewrite !lookup_delete_ne by done. apply Hm.
  - rewrite !lookup_empty. split; intros [? ?]; done.
Qed.

Lemma timed_apply_calls calls m : timed m -> timed (apply_calls calls m).
Proof.
  revert m. induction calls as [|c calls IH]; intros m Hm; [done|].
  simpl. apply IH. by apply timed_apply_call.
Qed.

Lemma get_all_conversations_lookup m g :
  get_all_conversations m !! g =
    (fun conversation_id =>
       {| s_conversation_id := conversation_id;
          s_turn_count := get_turn_count m g;
          s_created_time := default "未知" (_conversation_created_time m !! g);
          s_last_turn := get_last_turn m g |}) <$> get_conversation_id m g.
Proof.
  unfold get_all_conversations, get_conversation_id.
  rewrite map_lookup_imap. by destruct (_ !! g).
Qed.

(** X5.  After any sequence of calls of the methods that change a new
    store, a group has a session id exactly when it has a creation time;
    [get_all_conversations] lists exactly the groups that have a session id
    (a group with recorded turns only is left out), and an entry carries the
    stored id, the recorded creation time (never the default), and the turn
    count and last turn that [export_conversation_history] gives for the
    group. *)
Theorem summary_lists_timed_ids (calls : list call) (g : string) :
  (is_Some (get_conversation_id (apply_calls calls init) g) <->
   is_Some (_conversation_created_time (apply_calls calls init) !! g)) /\
  (is_Some (get_all_conversations (apply_calls calls init) !! g) <->
   is_new_conversation (apply_calls calls init) g = false) /\
  (forall s, get_all_conversations (apply_calls calls init) !! g = Some s ->
     get_conversation_id (apply_calls calls init) g = Some (s_conversation_id s) /\
     _conversation_created_time (apply_calls calls init) !! g = Some (s_created_time s) /\
     s_turn_count s = h_turn_count (export_conversation_history (apply_calls calls init) g) /\
     s_last_turn s = last (h_turns (export_conversation_history (apply_calls calls init) g))).
Proof.
  pose proof (timed_apply_calls calls init timed_init) as Ht.
  set (m := apply_calls calls init) in *.
  split; [apply Ht|]. split.
  - rewrite get_all_conversations_lookup, fmap_is_Some.
    unfold is_new_conversation, get_conversation_id.
    rewrite bool_decide_eq_false. by rewrite not_eq_None_Some.
  - intros s. rewrite get_all_conversations_lookup.
    destruct (get_conversation_id m g) as [c|] eqn:Hc; [|done].
    simpl. intros [= <-]. simpl.
    assert (is_Some (_conversation_created_time m !! g)) as [time Htime].
    { apply Ht. unfold get_conversation_id in Hc. by eauto. }
    rewrite Htime. done.
Qed.

End StoreCalls.

(** ** More on the streamed response *)

Section StreamEdges.
Context `{PyRuntime}.
Import DifyClient StreamReading.

Lemma on_line_payload line vars :
  on_line line vars =
    match payload line with
    | Some event_data => on_event event_data vars
    | None => Continue vars
    end.
Proof.
  unfold on_line, payload.
  destruct (String.prefix "data: " line); [|done]. cbv zeta.
  by destruct (str_truthy _).
Qed.

Lemma stream_loop_payloads lines vars :
  stream_loop lines vars = event_loop (omap payload lines) vars.
Proof.
  revert vars. induction lines as [|line lines IH]; intros vars; [done|].
  simpl. rewrite on_line_payload.
  destruct (payload line) as [event_data|]; [|apply IH].
  simpl. destruct (on_event event_data vars); [apply IH|done|done].
Qed.

(** X6.  The merged streaming response depends on the decoded payloads of
    the [data: ] lines only: two line sequences with the same sequence of
    payloads give the same result, so blank lines, comment and [event:]
    lines and payloads that do not decode change nothing. *)
Theorem stream_depends_on_payloads_only (lines1 lines2 : list string) :
  omap payload lines1 = omap payload lines2 ->
  _handle_streaming_response lines1 = _handle_streaming_response lines2.
Proof.
  intros Hp. unfold _handle_streaming_response.
  by rewrite !stream_loop_payloads, Hp.
Qed.

Lemma on_line_error_event line fields vars :
  event_of line = Some (ErrorEvent fields) ->
  on_line line vars = on_error fields.
Proof.
  unfold event_of. rewrite on_line_payload.
  destruct (payload line) as [v|]; [|discriminate].
  destruct v as [| | | | |?|fs]; try discriminate.
  unfold on_event. cbv zeta.
  destruct (is_str (dict_get "event" (JStr "") fs) "message"); [discriminate|].
  destruct (is_str _ "message_end"); [discriminate|].
  destruct (is_str _ "error"); [congruence|discriminate].
Qed.

(** X7.  An [error] event that comes before any [message_end], after
    lines that are read past, fails the call: the exception is a
    [DifyAPIError] whose text is the event's [message] (or the default
    text) behind both prefixes, the one of the event and the one of the
    enclosing handler; what was accumulated and what follows are dropped. *)
Theorem stream_error_event_fails
    (pre : list string) (error_line : string) (fields : list (string * json))
    (post : list string) :
  Forall (fun line => reads_past line = true) pre ->
  event_of error_line = Some (ErrorEvent fields) ->
  _handle_streaming_response (pre ++ error_line :: post) =
    inl (DifyAPIError
           ("处理流式响应失败: " +:+
            ("流式响应错误: " +:+ py_str (dict_get "message" (JStr "未知错误") fields)))).
Proof.
  intros Hpre Herr. unfold _handle_streaming_response.
  rewrite (stream_loop_reads_past _ _ _ Hpre). simpl.
  by rewrite (on_line_error_event _ _ _ Herr).
Qed.

Lemma capture_last key msgs held :
  capture key msgs held =
    if truthy held then held
    else first_provided key msgs
           (match last msgs with
            | Some fields => dict_get key JNull fields
            | None => held
            end).
Proof.
  revert held. induction msgs as [|fields msgs IH]; intros held.
  - simpl. by destruct (truthy held).
  - change (capture key (fields :: msgs) held)
      with (capture key msgs (if truthy held then held else dict_get key JNull fields)).
    rewrite IH. destruct (truthy held) eqn:Hheld; [by rewrite Hheld|].
    simpl. destruct (truthy (dict_get key JNull fields)) eqn:Hd; [done|].
    destruct msgs as [|fields' msgs]; [done|].
    rewrite last_cons_cons.
    destruct (last (fields' :: msgs)) eqn:Hl; [done|]. by apply last_None in Hl.
Qed.

(** X8.  A stream that ends without [message_end] or [error] (all lines
    read past) returns what was accumulated: the concatenated chunks, and
    for each id the first truthy one a [message] event gave, else whatever
    the last [message] event held under the key ([None] without one). *)
Theorem stream_without_end_is_best_effort (lines : list string) :
  Forall (fun line => reads_past line = true) lines ->
  _handle_streaming_response lines =
    inr (JObj
           [("answer", JStr (concat_answers (messages lines)));
            ("conversation_id",
               first_provided "conversation_id" (messages lines)
                 (last_given "conversation_id" (messages lines)));
            ("message_id",
               first_provided "message_id" (messages lines)
                 (last_given "message_id" (messages lines)))]).
Proof.
  intros Hlines. unfold _handle_streaming_response.
  rewrite <- (app_nil_r lines) at 1.
  rewrite (stream_loop_reads_past _ _ _ Hlines). simpl.
  by rewrite !capture_last.
Qed.

End StreamEdges.

(** ** The blocking response *)

Section ClientFacts.
Context `{PyRuntime}.
Import DifyClient.

Lemma append_prefix (a b : string) : String.prefix a (a +:+ b) = true.
Proof.
  induction a as [|ch a IH]; [by destruct b|].
  change (String ch a +:+ b) with (String ch (a +:+ b)). simpl.
  destruct (Ascii.ascii_dec ch ch); [exact IH|done].
Qed.

Lemma status_error_message_prefix status_code text :
  String.prefix ("API请求失败，状态码: " +:+ pretty status_code)
    (status_error_message status_code text) = true.
Proof.
  unfold status_error_message. cbv zeta.
  assert (Hself : forall a, String.prefix a a = true).
  { intros a. rewrite <- (append_empty_r a) at 2. apply append_prefix. }
  destruct (json_loads text) as [v|]; [|apply append_prefix].
  destruct v as [| | | |s|items|fields]; simpl; try apply append_prefix.
  - destruct (bool_decide _); [apply append_prefix|apply Hself].
  - destruct (existsb _ items); [apply append_prefix|apply Hself].
  - destruct (assoc "message" fields); [apply append_prefix|apply Hself].
Qed.

(** X9.  Blocking mode.  A status code other than 200 always raises a
    [DifyAPIError] whose text starts with the status code, whatever the
    body; with status 200, a body that does not decode raises the
    JSON-parse error, and a body that decodes to a dict raises "API返回错误"
    exactly when the dict has a key [error] (whatever its value) and is
    otherwise returned as it is, missing [answer] or [conversation_id]
    included. *)
Theorem blocking_response_outcomes (not_iterable_text : json -> string)
    (status_code : Z) (text : string) (response_time : Q) :
  (status_code <> 200%Z ->
   exists msg,
     _handle_blocking_response not_iterable_text status_code text response_time = inl (DifyAPIError msg) /\
     String.prefix ("API请求失败，状态码: " +:+ pretty status_code) msg = true) /\
  (status_code = 200%Z ->
   (json_loads text = None ->
    _handle_blocking_response not_iterable_text status_code text response_time =
      inl (DifyAPIError ("API响应JSON解析失败: " +:+ json_error_text text))) /\
   (forall fields, json_loads text = Some (JObj fields) ->
      _handle_blocking_response not_iterable_text status_code text response_time =
        match assoc "error" fields with
        | Some _ =>
            inl (DifyAPIError
                   ("API返回错误: " +:+ py_str (dict_get "message" (JStr "未知错误") fields)))
        | None => inr (JObj fields, response_time)
        end)).
Proof.
  unfold _handle_blocking_response. split.
  - intros Hne. destruct (Z.eqb_spec status_code 200) as [Heq|_]; [done|]. simpl.
    eexists. split; [reflexivity|apply status_error_message_prefix].
  - intros ->. simpl. split.
    + by intros ->.
    + intros fields ->. unfold _validate_response. simpl.
      destruct (assoc "error" fields) as [v|] eqn:He.
      * rewrite bool_decide_eq_true_2 by eauto. done.
      * rewrite bool_decide_eq_false_2; [done|]. by intros [? ?].
Qed.

End ClientFacts.

(** ** Masked keys *)

Section MaskingFacts.
Context {char : Type} (star : char).
Import Masking.

Lemma slice_to_nonneg (k : nat) (s : list char) : slice_to (Z.of_nat k) s = take k s.
Proof.
  unfold slice_to. destruct (Z.ltb_spec (Z.of_nat k) 0); [lia|]. by rewrite Nat2Z.id.
Qed.

Lemma slice_from_last (k : nat) (s : list char) :
  (0 < k)%nat -> slice_from (- Z.of_nat k) s = drop (length s - k) s.
Proof.
  intros Hk. unfold slice_from, len.
  destruct (Z.ltb_spec (- Z.of_nat k) 0); [|lia].
  f_equal. lia.
Qed.

Lemma stars_replicate (n : nat) : stars star (Z.of_nat n) = replicate n star.
Proof. unfold stars. by rewrite Nat2Z.id. Qed.

(** A key longer than [2 * k] masked to its first and last [k] code points. *)
Lemma masked_shape (k : nat) (s : list char) :
  (0 < k)%nat -> (2 * k < length s)%nat ->
  slice_to (Z.of_nat k) s ++ stars star (len s - Z.of_nat k * 2) ++ slice_from (- Z.of_nat k) s
  = take k s ++ replicate (length s - 2 * k) star ++ drop (length s - k) s.
Proof.
  intros Hk Hlen. rewrite slice_to_nonneg, slice_from_last by done.
  unfold len. replace (Z.of_nat (length s) - Z.of_nat k * 2)%Z
    with (Z.of_nat (length s - 2 * k)) by lia.
  by rewrite stars_replicate.
Qed.

Lemma lookup_masked (k : nat) (s : list char) (i : nat) :
  (2 * k < length s)%nat ->
  (take k s ++ replicate (length s - 2 * k) star ++ drop (length s - k) s) !! i =
    if decide (i < k \/ length s - k <= i)%nat then s !! i
    else Some star.
Proof.
  intros Hlen.
  destruct (decide (i < k)%nat) as [Hlo|Hlo].
  - rewrite decide_True by lia.
    rewrite lookup_app_l by (rewrite length_take; lia).
    by rewrite lookup_take_lt.
  - rewrite lookup_app_r by (rewrite length_take; lia).
    rewrite length_take, Nat.min_l by lia.
    destruct (decide (length s - k <= i)%nat) as [Hhi|Hhi].
    + rewrite decide_True by lia.
      rewrite lookup_app_r by (rewrite length_replicate; lia).
      rewrite length_replicate, lookup_drop. f_equal. lia.
    + rewrite decide_False by lia.
      rewrite lookup_app_l by (rewrite length_replicate; lia).
      apply lookup_replicate_2. lia.
Qed.

(** X10.  [get_api_info] returns a key of the same length as the client's
    key; a key of at most 8 code points is shown as asterisks only, and of a
    longer key exactly the first four and the last four code points are
    shown, all others being asterisks. *)
Theorem api_info_shows_at_most_eight (api_url : string) (api_key : list char)
    (timeout : Z) (user_agent : string) (i : nat) :
  length (info_api_key (get_api_info star api_url api_key timeout user_agent))
    = length api_key /\
  ((i < length api_key)%nat ->
   info_api_key (get_api_info star api_url api_key timeout user_agent) !! i =
     if decide (8 < length api_key /\ (i < 4 \/ length api_key - 4 <= i))%nat
     then api_key !! i else Some star).
Proof.
  unfold get_api_info. cbn [info_api_key]. unfold len.
  destruct (Z.ltb_spec 8 (Z.of_nat (length api_key))) as [Hlong|Hshort].
  - pose proof (masked_shape 4 api_key) as Hshape. unfold len in Hshape.
    change (Z.of_nat 4) with 4%Z in Hshape. change (4 * 2)%Z with 8%Z in Hshape.
    change (- (4))%Z with (-4)%Z in Hshape.
    rewrite Hshape by lia. split.
    + rewrite !length_app, length_take, length_replicate, length_drop. lia.
    + intros Hi. rewrite lookup_masked by lia.
      destruct (decide (i < 4 \/ length api_key - 4 <= i)%nat).
      * rewrite decide_True; [done|lia].
      * rewrite decide_False; [done|lia].
  - rewrite stars_replicate. split; [by rewrite length_replicate|].
    intros Hi. rewrite decide_False by lia. by apply lookup_replicate_2.
Qed.

(** X11.  [mask_api_key] with a positive [show_chars] keeps the length of
    the key; it shows the first and last [show_chars] code points of a key
    longer than twice [show_chars], and asterisks everywhere else and for
    every shorter key. *)
Theorem mask_api_key_hides_the_middle (api_key : list char) (show_chars : nat) (i : nat) :
  (0 < show_chars)%nat ->
  length (mask_api_key star api_key (Z.of_nat show_chars)) = length api_key /\
  ((i < length api_key)%nat ->
   mask_api_key star api_key (Z.of_nat show_chars) !! i =
     if decide (2 * show_chars < length api_key /\
                (i < show_chars \/ length api_key - show_chars <= i))%nat
     then api_key !! i else Some star).
Proof.
  intros Hk. unfold mask_api_key.
  destruct api_key as [|c rest]; [split; [done|simpl; lia]|].
  set (api_key := c :: rest).
  destruct (Z.leb_spec (len api_key) (Z.of_nat show_chars * 2)) as [Hshort|Hlong];
    unfold len in *.
  - rewrite stars_replicate. split; [by rewrite length_replicate|].
    intros Hi. rewrite decide_False by lia. by apply lookup_replicate_2.
  - pose proof (masked_shape show_chars api_key) as Hshape. unfold len in Hshape.
    rewrite Hshape by lia. split.
    + rewrite !length_app, length_take, length_replicate, length_drop. lia.
    + intros Hi. rewrite lookup_masked by lia.
      destruct (decide (i < show_chars \/ length api_key - show_chars <= i)%nat).
      * rewrite decide_True; [done|lia].
      * rewrite decide_False; [done|lia].
Qed.

(** X12.  [mask_api_key] with [show_chars = 0] on a key that is not empty
    returns as many asterisks as the key is long followed by the whole key:
    the slice [api_key[-0:]] is the full string. *)
Theorem mask_api_key_zero_shows_the_key (c : char) (rest : list char) :
  mask_api_key star (c :: rest) 0 = replicate (S (length rest)) star ++ c :: rest.
Proof.
  unfold mask_api_key, slice_to, slice_from, stars, len.
  change (0 * 2)%Z with 0%Z. change (- 0)%Z with 0%Z. change (0 <? 0)%Z with false.
  destruct (Z.leb_spec (Z.of_nat (length (c :: rest))) 0) as [Hle|Hgt];
    [simpl in Hle; lia|].
  change (Z.to_nat 0) with 0%nat. rewrite take_0, drop_0, Z.sub_0_r, Nat2Z.id.
  reflexivity.
Qed.

(** X13.  [get_all_config] masks the [api_key] option of section [API] only
    when it is longer than 8 code points (first and last four shown); a key
    of at most 8 code points is returned as it is; every other option of
    every section is returned unchanged. *)
Theorem get_all_config_leaves_short_keys
    (config_dict : gmap string (gmap string (list char)))
    (api : gmap string (list char)) (api_key : list char) :
  config_dict !! "API" = Some api ->
  api !! "api_key" = Some api_key ->
  (get_all_config star config_dict !! "API") ≫= (fun api => api !! "api_key") =
    Some (if decide (length api_key <= 8)%nat then api_key
          else take 4 api_key ++ replicate (length api_key - 8) star
                 ++ drop (length api_key - 4) api_key) /\
  (forall section options option,
     (section, option) <> ("API", "api_key") ->
     config_dict !! section = Some options ->
     (get_all_config star config_dict !! section) ≫= (fun options => options !! option)
       = options !! option).
Proof.
  intros Hapi Hkey. unfold get_all_config. rewrite Hapi, Hkey.
  unfold len.
  destruct (Z.ltb_spec 8 (Z.of_nat (length api_key))) as [Hlong|Hshort].
  - split.
    + rewrite lookup_insert_eq. simpl. rewrite lookup_insert_eq.
      rewrite decide_False by lia.
      pose proof (masked_shape 4 api_key) as Hshape. unfold len in Hshape.
      change (Z.of_nat 4) with 4%Z in Hshape. change (4 * 2)%Z with 8%Z in Hshape.
      change (- (4))%Z with (-4)%Z in Hshape.
      by rewrite Hshape by lia.
    + intros section options option Hne Hsec.
      destruct (decide (section = "API")) as [->|Hs].
      * rewrite lookup_insert_eq. simpl.
        rewrite lookup_insert_ne by congruence. congruence.
      * rewrite lookup_insert_ne by done. by rewrite Hsec.
  - split.
    + rewrite Hapi. simpl. rewrite Hkey. by rewrite decide_True by lia.
    + intros section options option _ Hsec. by rewrite Hsec.
Qed.

End MaskingFacts.

(** ** The loader's check *)

Section LoaderFacts.
Context `{PyRuntime}.
Import ExcelHandler.

(** *** Grouping *)

Lemma cases_of_snoc g l c :
  cases_of g (l ++ [c]) =
    if decide (conversation_group_id c = g) then cases_of g l ++ [c] else cases_of g l.
Proof.
  unfold cases_of. rewrite filter_app, filter_cons, filter_nil.
  destruct (decide _); [done|by rewrite app_nil_r].
Qed.

Lemma add_to_group_keys c groups :
  fst <$> add_to_group c groups =
    if decide (conversation_group_id c ∈ fst <$> groups) then fst <$> groups
    else (fst <$> groups) ++ [conversation_group_id c].
Proof.
  induction groups as [|[g cs] groups IH]; cbn [add_to_group fmap list_fmap fst].
  - rewrite decide_False; [done|]. apply not_elem_of_nil.
  - destruct (String.eqb_spec g (conversation_group_id c)) as [->|Hne];
      cbn [add_to_group fmap list_fmap fst].
    + rewrite decide_True; [done|]. apply list_elem_of_here.
    + rewrite IH. destruct (decide (_ ∈ fst <$> groups)) as [Hin|Hnin].
      * rewrite decide_True; [done|]. by apply list_elem_of_further.
      * rewrite decide_False; [done|]. rewrite elem_of_cons. intros [Heq|Hin]; [by apply Hne|done].
Qed.

Lemma key_elem (groups : list (string * list case)) g cs :
  (g, cs) ∈ groups -> g ∈ (fst <$> groups).
Proof. intros Hin. apply list_elem_of_fmap. by exists (g, cs). Qed.

Lemma add_to_group_elem c groups g cs :
  NoDup (fst <$> groups) ->
  (g, cs) ∈ add_to_group c groups <->
    (g <> conversation_group_id c /\ (g, cs) ∈ groups) \/
    (g = conversation_group_id c /\
     ((exists old, (g, old) ∈ groups /\ cs = old ++ [c]) \/
      ((g ∉ (fst <$> groups)) /\ cs = [c]))).
Proof.
  induction groups as [|[g' cs'] groups IH]; cbn [add_to_group fmap list_fmap fst];
    intros Hnd.
  - rewrite list_elem_of_singleton. split.
    + intros [= -> ->]. right. split; [done|]. right. split; [apply not_elem_of_nil|done].
    + intros [[_ Hin]|[-> [(old & Hin & _)|[_ ->]]]]; [by apply elem_of_nil in Hin| |done].
      by apply elem_of_nil in Hin.
  - apply NoDup_cons in Hnd as [Hnotin Hnd]. specialize (IH Hnd).
    assert (Hkey : forall cs0, (g', cs0) ∈ groups -> False).
    { intros cs0 Hin. by apply Hnotin, (key_elem _ _ cs0). }
    destruct (String.eqb_spec g' (conversation_group_id c)) as [Heq|Hne].
    + rewrite elem_of_cons. setoid_rewrite elem_of_cons. subst g'.
      split.
      * intros [[= -> ->]|Hin].
        -- right. split; [done|]. left. exists cs'. split; [by left|done].
        -- left. split; [|by right]. intros ->. by apply (Hkey cs).
      * intros [[Hg [[= Hg' _]|Hin]]|[-> [(old & [[= ->]|Hin] & ->)|[Hnin ->]]]].
        -- done.
        -- by right.
        -- by left.
        -- exfalso. by apply (Hkey old).
        -- exfalso. apply Hnin. by left.
    + rewrite elem_of_cons, IH. setoid_rewrite elem_of_cons.
      split.
      * intros [[= -> ->]|[[Hg Hin]|[-> [(old & Hin & ->)|[Hnin ->]]]]].
        -- left. split; [done|by left].
        -- left. split; [done|by right].
        -- right. split; [done|]. left. exists old. split; [by right|done].
        -- right. split; [done|]. right. split; [|done].
           intros [Heq|Hin]; [by apply Hne|by apply Hnin].
      * intros [[Hg [[= -> ->]|Hin]]|[-> [(old & [[= Hg' _]|Hin] & ->)|[Hnin ->]]]].
        -- by left.
        -- right. left. done.
        -- done.
        -- right. right. split; [done|]. left. by exists old.
        -- right. right. split; [done|]. right. split; [|done].
           intros Hin. apply Hnin. by right.
Qed.

Lemma grouped_add groups l c :
  grouped groups l -> grouped (add_to_group c groups) (l ++ [c]).
Proof.
  intros [Hnd Hgroups]. split.
  - rewrite add_to_group_keys. destruct (decide _) as [Hin|Hnin]; [done|].
    apply NoDup_app. split; [done|]. split; [|apply NoDup_singleton].
    intros g Hg Hg'. apply list_elem_of_singleton in Hg'. by subst g.
  - intros g cs. rewrite add_to_group_elem by done. rewrite cases_of_snoc.
    assert (Hkey : g ∈ fst <$> groups <-> cases_of g l <> []).
    { rewrite list_elem_of_fmap. split.
      - intros ([g' cs'] & -> & Hin). apply Hgroups in Hin as [-> Hne]. done.
      - intros Hne. exists (g, cases_of g l). split; [done|]. by apply Hgroups. }
    destruct (decide (conversation_group_id c = g)) as [<-|Hne].
    + split.
      * intros [[Hg _]|[_ [(old & Hin & ->)|[Hnin ->]]]]; [done| |].
        -- apply Hgroups in Hin as [-> _]. split; [done|]. by destruct (cases_of _ l).
        -- split; [|done].
           destruct (cases_of (conversation_group_id c) l) eqn:Hc; [done|].
           exfalso. by apply Hnin, Hkey.
      * intros [-> _]. right. split; [done|].
        destruct (cases_of (conversation_group_id c) l) as [|c0 cs0] eqn:Hc.
        -- right. split; [|done]. rewrite Hkey. intros Hn. by apply Hn.
        -- left. exists (c0 :: cs0). split; [|done]. apply Hgroups. by rewrite Hc.
    + rewrite Hgroups. split.
      * intros [[_ Hcs]|[-> _]]; done.
      * intros Hcs. left. split; [by intros ->|done].
Qed.

Lemma grouped_group_cases l : grouped (group_cases l) l.
Proof.
  unfold group_cases.
  assert (forall groups l0, grouped groups l0 ->
            grouped (foldl (fun groups c => add_to_group c groups) groups l) (l0 ++ l)) as Hgen.
  { induction l as [|c l IH]; intros groups l0 Hg; simpl.
    - by rewrite app_nil_r.
    - replace (l0 ++ c :: l) with ((l0 ++ [c]) ++ l) by (by rewrite <- app_assoc).
      apply IH. by apply grouped_add. }
  apply (Hgen [] []). split; [constructor|].
  intros g cs. split; [by intros Hin%elem_of_nil|]. by intros [-> Hne].
Qed.

(** *** Sorting *)

Lemma insert_by_turn_perm c sorted : insert_by_turn c sorted ≡ₚ c :: sorted.
Proof.
  induction sorted as [|c' sorted IH]; simpl; [done|].
  destruct (Z.leb _ _); [done|]. rewrite IH. apply Permutation_swap.
Qed.

Lemma sort_by_turn_perm cases : sort_by_turn cases ≡ₚ cases.
Proof.
  induction cases as [|c cases IH]; simpl; [done|].
  by rewrite insert_by_turn_perm, IH.
Qed.

Lemma insert_by_turn_sorted c sorted :
  Sorted Z.le (turn_number <$> sorted) ->
  Sorted Z.le (turn_number <$> insert_by_turn c sorted).
Proof.
  induction sorted as [|c' sorted IH]; simpl; intros Hs.
  - repeat constructor.
  - destruct (Z.leb_spec (turn_number c) (turn_number c')) as [Hle|Hgt]; simpl.
    + constructor; [done|]. by constructor.
    + apply Sorted_inv in Hs as [Hs Hhd]. constructor; [by apply IH|].
      destruct sorted as [|c'' sorted]; simpl.
      * constructor. lia.
      * destruct (Z.leb _ _); simpl; constructor; [lia|].
        by apply HdRel_inv in Hhd.
Qed.

Lemma sort_by_turn_sorted cases : Sorted Z.le (turn_number <$> sort_by_turn cases).
Proof.
  induction cases as [|c cases IH]; simpl; [constructor|].
  by apply insert_by_turn_sorted.
Qed.

Lemma seqZ_sorted m n : Sorted Z.le (seqZ m (Z.of_nat n)).
Proof.
  revert m. induction n as [|n IH]; intros m.
  - rewrite seqZ_nil by lia. constructor.
  - rewrite seqZ_cons by lia.
    replace (Z.pred (Z.of_nat (S n))) with (Z.of_nat n) by lia.
    constructor; [apply IH|].
    destruct n as [|n]; [rewrite seqZ_nil by lia; constructor|].
    rewrite seqZ_cons by lia. constructor. lia.
Qed.

(** *** The two checks *)

Lemma check_turns_nil g e cases :
  check_turns g e cases = [] <->
  turn_number <$> cases = seqZ e (Z.of_nat (length cases)).
Proof.
  revert e. induction cases as [|c cases IH]; intros e.
  - simpl. by rewrite seqZ_nil by lia.
  - cbn [check_turns length fmap list_fmap]. rewrite seqZ_cons by lia.
    replace (Z.pred (Z.of_nat (S (length cases)))) with (Z.of_nat (length cases)) by lia.
    replace (Z.succ e) with (e + 1)%Z by lia.
    destruct (Z.eqb_spec (turn_number c) e) as [->|Hne].
    + simpl. rewrite IH. split; [by intros ->|by intros [= ->]].
    + split; [done|]. by intros [= ? _].
Qed.

Lemma check_questions_nil g cases :
  check_questions g cases = [] <->
  Forall (fun c => py_strip (user_question c) <> "") cases.
Proof.
  unfold check_questions. induction cases as [|c cases IH]; simpl; [done|].
  rewrite Forall_cons. unfold str_truthy at 1.
  destruct (String.eqb_spec (py_strip (user_question c)) "") as [Heq|Hne]; simpl.
  - split; [done|]. by intros [Hc _].
  - rewrite IH. split; [by intros Hall; split|by intros [_ Hall]].
Qed.

Lemma concat_nil {A} (ls : list (list A)) : concat ls = [] <-> Forall (fun l => l = []) ls.
Proof.
  induction ls as [|l ls IH]; simpl; [done|].
  rewrite Forall_cons, <- IH. destruct l as [|x l]; simpl.
  - split; [by intros Hc; split|by intros [_ Hc]].
  - split; [done|by intros [Hx _]].
Qed.

Lemma sorted_turns_in_sequence cases :
  turn_number <$> sort_by_turn cases = seqZ 1 (Z.of_nat (length (sort_by_turn cases))) <->
  turn_number <$> cases ≡ₚ seqZ 1 (Z.of_nat (length cases)).
Proof.
  pose proof (sort_by_turn_perm cases) as Hperm.
  rewrite (Permutation_length Hperm). split.
  - intros <-. by rewrite Hperm.
  - intros Hseq. apply (Sorted_unique Z.le).
    + apply sort_by_turn_sorted.
    + apply seqZ_sorted.
    + by rewrite Hperm.
Qed.

Lemma valid_iff (test_cases : list case) :
  (valid (validate_test_case_structure test_cases) = true <->
   (forall group_id,
      turn_number <$> cases_of group_id test_cases
        ≡ₚ seqZ 1 (Z.of_nat (length (cases_of group_id test_cases)))) /\
   Forall (fun c => py_strip (user_question c) <> "") test_cases) /\
  (valid (validate_test_case_structure test_cases) = true <->
   errors (validate_test_case_structure test_cases) = []).
Proof.
  unfold validate_test_case_structure. cbv zeta. cbn [valid errors].
  pose proof (grouped_group_cases test_cases) as [_ Hgroups].
  set (groups := group_cases test_cases) in *.
  set (ti := concat (_ <$> _)). set (eq := concat (_ <$> _)).
  assert (Hvalid : negb (Nat.ltb 0 (length ti) || Nat.ltb 0 (length eq)) = true
                   <-> ti = [] /\ eq = []).
  { destruct ti, eq; simpl; split; try done; by intros [? ?]. }
  split; [|rewrite Hvalid; split; [by intros [-> ->]|by apply app_eq_nil]].
  rewrite Hvalid. subst ti eq.
  rewrite !concat_nil, !Forall_fmap, !Forall_forall.
  split.
  - intros [Hturns Hquestions]. split.
    + intros g. destruct (cases_of g test_cases) as [|c cs] eqn:Hc.
      { simpl. by rewrite seqZ_nil by lia. }
      assert ((g, cases_of g test_cases) ∈ groups) as Hin.
      { apply Hgroups. by rewrite Hc. }
      specialize (Hturns _ Hin). simpl in Hturns.
      apply check_turns_nil, sorted_turns_in_sequence in Hturns. by rewrite <- Hc.
    + intros c Hc.
      set (g := conversation_group_id c).
      assert (c ∈ cases_of g test_cases) as Hcg.
      { unfold cases_of. by apply list_elem_of_filter. }
      assert ((g, cases_of g test_cases) ∈ groups) as Hin.
      { apply Hgroups. split; [done|]. intros Hnil. rewrite Hnil in Hcg.
        by apply elem_of_nil in Hcg. }
      specialize (Hquestions _ Hin). simpl in Hquestions.
      apply check_questions_nil in Hquestions.
      rewrite Forall_forall in Hquestions. apply Hquestions.
      by rewrite sort_by_turn_perm.
  - intros [Hturns Hquestions]. split.
    + intros [g cs] Hin. apply Hgroups in Hin as [-> _]. simpl.
      apply check_turns_nil, sorted_turns_in_sequence, Hturns.
    + intros [g cs] Hin. apply Hgroups in Hin as [-> _]. simpl.
      apply check_questions_nil, Forall_forall. intros c Hc.
      rewrite sort_by_turn_perm in Hc. unfold cases_of in Hc.
      apply list_elem_of_filter in Hc as [_ Hc].
      by apply Hquestions.
Qed.

Lemma well_numbered_perm (l l' : list case) :
  l ≡ₚ l' ->
  ((forall group_id,
      turn_number <$> cases_of group_id l ≡ₚ seqZ 1 (Z.of_nat (length (cases_of group_id l)))) /\
   Forall (fun c => py_strip (user_question c) <> "") l) ->
  (forall group_id,
      turn_number <$> cases_of group_id l' ≡ₚ seqZ 1 (Z.of_nat (length (cases_of group_id l')))) /\
  Forall (fun c => py_strip (user_question c) <> "") l'.
Proof.
  intros Hperm [Hturns Hq]. split.
  - intros g. unfold cases_of in *. rewrite <- Hperm. apply Hturns.
  - by rewrite <- Hperm.
Qed.

(** X14.  [validate_test_case_structure] answers [valid] exactly when, in
    every conversation group, the turn numbers of its cases are 1, 2, ..., k
    each once (in any row order), and no question is blank after
    [strip]; [valid] holds exactly when [errors] is empty; and the answer
    does not depend on the order of the rows. *)
Theorem validation_accepts_numbered_turns (test_cases : list case) :
  (valid (validate_test_case_structure test_cases) = true <->
   (forall group_id,
      turn_number <$> cases_of group_id test_cases
        ≡ₚ seqZ 1 (Z.of_nat (length (cases_of group_id test_cases)))) /\
   Forall (fun c => py_strip (user_question c) <> "") test_cases) /\
  (valid (validate_test_case_structure test_cases) = true <->
   errors (validate_test_case_structure test_cases) = []) /\
  (forall reordered,
     test_cases ≡ₚ reordered ->
     valid (validate_test_case_structure reordered)
       = valid (validate_test_case_structure test_cases)).
Proof.
  destruct (valid_iff test_cases) as [Hiff Herrors].
  split; [exact Hiff|]. split; [exact Herrors|].
  intros reordered Hperm. destruct (valid_iff reordered) as [Hiff' _].
  destruct (valid (validate_test_case_structure test_cases)) eqn:Hv.
  - apply Hiff'. apply (well_numbered_perm test_cases); [done|]. by apply Hiff.
  - destruct (valid (validate_test_case_structure reordered)) eqn:Hv'; [|done].
    assert (false = true) as Habs; [|discriminate].
    apply Hiff. apply (well_numbered_perm reordered); [done|]. by apply Hiff'.
Qed.

End LoaderFacts.

(** ** The command-line run: counters, calls and session ids *)

Section CliCounts.
Context `{PyRuntime}.
Import Cli.

Lemma calls_app l1 l2 : calls (l1 ++ l2) = calls l1 ++ calls l2.
Proof. unfold calls. by rewrite filter_app. Qed.

Lemma calls_of_trace call failures start :
  is_call call = true ->
  calls (concat (imap (fun k e =>
                     [call;
                      LogRetryWarning retry_delay (start + k + 1) max_retries (str_exn e);
                      Sleep retry_delay]) failures) ++ [call])
  = replicate (S (length failures)) call.
Proof.
  intros Hcall. unfold calls. revert start.
  induction failures as [|e failures IH]; intros start; simpl.
  - by rewrite filter_cons, decide_True by done.
  - rewrite filter_cons, decide_True by done.
    rewrite !filter_cons, !decide_False by (simpl; discriminate).
    f_equal. specialize (IH (S start)).
    erewrite imap_ext; [exact IH|]. intros k x _. simpl. do 3 f_equal. lia.
Qed.

Lemma calls_retry_trace call failures :
  is_call call = true ->
  calls (retry_trace call failures) = replicate (S (length failures)) call.
Proof. intros Hcall. apply (calls_of_trace call failures 0 Hcall). Qed.

(** What one case does to the counters. *)
Lemma process_test_case_counts send now user_id tc self :
  total_cases (tool_stats (process_test_case send now user_id tc self).2)
    = total_cases (tool_stats self) /\
  processed_cases (tool_stats (process_test_case send now user_id tc self).2)
    = S (processed_cases (tool_stats self)) /\
  ((r_api_status (process_test_case send now user_id tc self).1 = "成功" /\
    successful_cases (tool_stats (process_test_case send now user_id tc self).2)
      = S (successful_cases (tool_stats self)) /\
    failed_cases (tool_stats (process_test_case send now user_id tc self).2)
      = failed_cases (tool_stats self)) \/
   (r_api_status (process_test_case send now user_id tc self).1 = "failed" /\
    successful_cases (tool_stats (process_test_case send now user_id tc self).2)
      = successful_cases (tool_stats self) /\
    failed_cases (tool_stats (process_test_case send now user_id tc self).2)
      = S (failed_cases (tool_stats self)))).
Proof.
  unfold process_test_case. cbv zeta.
  destruct (retry_loop_attempts send
              (Call (user_question tc) user_id
                 match ConversationManager.get_conversation_id (conversation_manager self)
                         (conversation_group_id tc) with
                 | Some c => if String.eqb c "new" then None else Some c
                 | None => None
                 end (inputs tc)) self)
    as (failures & final & _ & _ & _ & _ & ->).
  destruct final as [e|[r t]]; simpl.
  - split; [done|]. split; [lia|]. right. repeat split; lia.
  - destruct (truthy r); simpl.
    + destruct r as [| | | | | |response_data]; simpl;
        try (split; [done|]; split; [lia|]; right; repeat split; lia).
      destruct (DifyClient.extract_conversation_id response_data) as [cid|]; simpl;
        [destruct (str_truthy cid); simpl|];
        (split; [done|]; split; [lia|]; left; repeat split; lia).
    + split; [done|]. split; [lia|]. right. repeat split; lia.
Qed.

(** The calls of one case: between one and three, all with the question of
    the case and the id the store holds for its group. *)
Lemma process_test_case_calls send now user_id tc self :
  exists k, (1 <= k <= 3)%nat /\
    calls (effects (process_test_case send now user_id tc self).2) =
      calls (effects self) ++
        replicate k (Call (user_question tc) user_id
                       (sent_id (ConversationManager.get_conversation_id
                                   (conversation_manager self) (conversation_group_id tc)))
                       (inputs tc)).
Proof.
  unfold process_test_case, sent_id. cbv zeta.
  destruct (retry_loop_attempts send
              (Call (user_question tc) user_id
                 match ConversationManager.get_conversation_id (conversation_manager self)
                         (conversation_group_id tc) with
                 | Some c => if String.eqb c "new" then None else Some c
                 | None => None
                 end (inputs tc)) self)
    as (failures & final & Hlen & _ & _ & _ & ->).
  set (call := Call _ _ _ _).
  exists (S (length failures)). split; [lia|].
  assert (Hcalls : forall l, calls l = [] ->
            calls ((effects self ++ retry_trace call failures) ++ l) =
              calls (effects self) ++ replicate (S (length failures)) call).
  { intros l Hl. rewrite !calls_app, calls_retry_trace, Hl by done. by rewrite app_nil_r. }
  assert (Hcalls0 : calls (effects self ++ retry_trace call failures) =
                      calls (effects self) ++ replicate (S (length failures)) call).
  { rewrite <- (Hcalls [] eq_refl). by rewrite app_nil_r. }
  destruct final as [e|[r t]]; cbn -[replicate calls].
  - by apply Hcalls.
  - destruct (truthy r); cbn -[replicate calls].
    + destruct r as [| | | | | |response_data]; cbn -[replicate calls];
        try (by apply Hcalls).
      destruct (DifyClient.extract_conversation_id response_data) as [cid|];
        cbn -[replicate calls];
        [destruct (str_truthy cid); cbn -[replicate calls]|]; exact Hcalls0.
    + exact Hcalls0.
Qed.

Lemma run_cases_counts send clock user_id total i cases results self :
  exists new,
    (run_cases send clock user_id total i cases results self).1 = results ++ new /\
    length new = length cases /\
    total_cases (tool_stats (run_cases send clock user_id total i cases results self).2)
      = total_cases (tool_stats self) /\
    processed_cases (tool_stats (run_cases send clock user_id total i cases results self).2)
      = (processed_cases (tool_stats self) + length cases)%nat /\
    successful_cases (tool_stats (run_cases send clock user_id total i cases results self).2)
      = (successful_cases (tool_stats self)
         + length (filter (fun r => r_api_status r = "成功") new))%nat /\
    failed_cases (tool_stats (run_cases send clock user_id total i cases results self).2)
      = (failed_cases (tool_stats self)
         + length (filter (fun r => r_api_status r = "failed") new))%nat /\
    Forall (fun r => r_api_status r = "成功" \/ r_api_status r = "failed") new.
Proof.
  revert i results self.
  induction cases as [|tc cases IH]; intros i results self; simpl.
  - exists []. rewrite app_nil_r. simpl. repeat split; try lia. constructor.
  - pose proof (process_test_case_counts (send i) (clock i) user_id tc
                  (emit [ShowProgress i total] self)) as Hc.
    destruct (process_test_case (send i) (clock i) user_id tc
                (emit [ShowProgress i total] self)) as [r self2].
    cbn [fst snd] in Hc.
    change (tool_stats (emit [ShowProgress i total] self)) with (tool_stats self) in Hc.
    destruct Hc as (Ht & Hp & Hsf).
    match goal with |- context [run_cases _ _ _ _ (S i) cases ?rs ?s3] =>
      destruct (IH (S i) rs s3) as (new & Hres & Hlen & Ht' & Hp' & Hs' & Hf' & Hall);
      assert (tool_stats s3 = tool_stats self2) as Hm
        by (destruct (Nat.ltb i (total - 1)); reflexivity)
    end.
    rewrite Hm in Ht', Hp', Hs', Hf'.
    exists (r :: new). rewrite Hres, <- app_assoc. simpl.
    rewrite !filter_cons.
    destruct Hsf as [(Hr & Hs & Hf)|(Hr & Hs & Hf)].
    + rewrite decide_True by done. rewrite decide_False by (rewrite Hr; discriminate).
      simpl. repeat split; try lia. constructor; [by left|done].
    + rewrite decide_False by (rewrite Hr; discriminate). rewrite decide_True by done.
      simpl. repeat split; try lia. constructor; [by right|done].
Qed.

(** X19.  Over a whole run of the command-line tool there is one result per
    case; [processed_cases] grows by the number of cases,
    [successful_cases] by the number of results with status 成功 and
    [failed_cases] by the number of the others; [total_cases] is not
    touched. *)
Theorem cli_counters_follow_results send clock user_id test_cases self :
  length (run send clock user_id test_cases self).1 = length test_cases /\
  processed_cases (tool_stats (run send clock user_id test_cases self).2)
    = (processed_cases (tool_stats self) + length test_cases)%nat /\
  successful_cases (tool_stats (run send clock user_id test_cases self).2)
    = (successful_cases (tool_stats self)
       + length (filter (fun r => r_api_status r = "成功")
                   (run send clock user_id test_cases self).1))%nat /\
  failed_cases (tool_stats (run send clock user_id test_cases self).2)
    = (failed_cases (tool_stats self)
       + length (filter (fun r => r_api_status r <> "成功")
                   (run send clock user_id test_cases self).1))%nat /\
  total_cases (tool_stats (run send clock user_id test_cases self).2)
    = total_cases (tool_stats self).
Proof.
  unfold run.
  destruct (run_cases_counts send clock user_id (length test_cases) 1 test_cases [] self)
    as (new & Hres & Hlen & Ht & Hp & Hs & Hf & Hall).
  simpl in Hres. rewrite Hres.
  repeat split; try done.
  rewrite Hf. f_equal. f_equal.
  clear -Hall. induction Hall as [|r new Hr _ IH]; [done|].
  rewrite !filter_cons, IH.
  destruct Hr as [Hr|Hr]; rewrite Hr.
  - rewrite decide_False by discriminate. rewrite decide_False; [done|]. intros Hn. by apply Hn.
  - rewrite decide_True by done. rewrite decide_True by discriminate. done.
Qed.

(** X17.  Two failed calls followed by a call answered with a dict that
    is not empty: the case succeeds, with the extracted answer, no error
    text and the response time rounded to 3 digits; the tool made three
    calls, logged two retry warnings (attempts 1 and 2 of 3) and slept 5
    seconds after each; one case more is counted processed and
    successful. *)
Theorem two_failures_then_success send now user_id tc self e0 e1 field value rest t :
  send 0%nat = inl e0 -> send 1%nat = inl e1 ->
  send 2%nat = inr (JObj ((field, value) :: rest), t) ->
  let out := process_test_case send now user_id tc self in
  let call := Call (user_question tc) user_id
                (sent_id (ConversationManager.get_conversation_id
                            (conversation_manager self) (conversation_group_id tc)))
                (inputs tc) in
  r_api_status out.1 = "成功" /\
  r_chatflow_reply out.1 = DifyClient.extract_answer ((field, value) :: rest) /\
  r_error_details out.1 = "" /\
  r_response_time out.1 = PyFloat (py_round t 3) /\
  effects out.2 =
    effects self ++
      [call; LogRetryWarning 5 1 3 (str_exn e0); Sleep 5;
       call; LogRetryWarning 5 2 3 (str_exn e1); Sleep 5;
       call] /\
  tool_stats out.2 =
    {| total_cases := total_cases (tool_stats self);
       processed_cases := processed_cases (tool_stats self) + 1;
       successful_cases := successful_cases (tool_stats self) + 1;
       failed_cases := failed_cases (tool_stats self) |}.
Proof.
  intros H0 H1 H2. unfold process_test_case, sent_id. cbv zeta.
  rewrite (retry_loop_third _ _ _ _ _ H0 H1), H2. simpl.
  destruct (DifyClient.extract_conversation_id _) as [cid|];
    [destruct (str_truthy cid)|]; repeat split.
Qed.

Lemma extract_conversation_id_truthy data c :
  DifyClient.extract_conversation_id data = Some c -> truthy (JObj data) = true.
Proof.
  unfold DifyClient.extract_conversation_id.
  destruct data as [|kv data]; [|done]. simpl. discriminate.
Qed.

(** A first call that answers with a session id stores it. *)
Lemma process_test_case_stores send now user_id tc self data t c :
  send 0%nat = inr (JObj data, t) ->
  DifyClient.extract_conversation_id data = Some c ->
  c <> "" ->
  conversation_manager (process_test_case send now user_id tc self).2 =
    ConversationManager.set_conversation_id now (conversation_manager self)
      (conversation_group_id tc) c.
Proof.
  intros H0 Hc Hne. unfold process_test_case. cbv zeta.
  rewrite (retry_loop_first_ok _ _ _ _ _ H0).
  rewrite (extract_conversation_id_truthy _ _ Hc), Hc.
  assert (str_truthy c = true) as ->.
  { unfold str_truthy. destruct (String.eqb_spec c ""); [done|reflexivity]. }
  reflexivity.
Qed.

(** X18.  A case whose first call is answered with a session id that is
    not empty stores it for its group, and the next case of the same group
    sends it with each of its one to three calls (unless the id is the
    literal "new", which is never sent). *)
Theorem session_id_is_sent_on_the_next_turn
    send1 send2 now1 now2 user_id tc1 tc2 self data t c :
  send1 0%nat = inr (JObj data, t) ->
  DifyClient.extract_conversation_id data = Some c ->
  c <> "" ->
  conversation_group_id tc2 = conversation_group_id tc1 ->
  let self1 := (process_test_case send1 now1 user_id tc1 self).2 in
  let self2 := (process_test_case send2 now2 user_id tc2 self1).2 in
  ConversationManager.get_conversation_id (conversation_manager self1)
    (conversation_group_id tc1) = Some c /\
  exists k, (1 <= k <= 3)%nat /\
    calls (effects self2) =
      calls (effects self1) ++
        replicate k (Call (user_question tc2) user_id
                       (if String.eqb c "new" then None else Some c) (inputs tc2)).
Proof.
  intros H0 Hc Hne Hg self1 self2.
  assert (Hid : ConversationManager.get_conversation_id (conversation_manager self1)
                  (conversation_group_id tc1) = Some c).
  { subst self1. rewrite (process_test_case_stores _ _ _ _ _ _ _ _ H0 Hc Hne).
    unfold ConversationManager.get_conversation_id.
    rewrite mapping_set_conversation_id. apply lookup_insert_eq. }
  split; [exact Hid|].
  destruct (process_test_case_calls send2 now2 user_id tc2 self1) as (k & Hk & Hcalls).
  exists k. split; [done|]. fold self2 in Hcalls. rewrite Hcalls, Hg, Hid. reflexivity.
Qed.

(** The command-line run records no turn in the store. *)
Lemma run_cases_turns send clock user_id total i cases results self :
  ConversationManager._conversation_turns
    (conversation_manager (run_cases send clock user_id total i cases results self).2)
  = ConversationManager._conversation_turns (conversation_manager self).
Proof.
  revert i results self.
  induction cases as [|tc cases IH]; intros i results self; simpl; [done|].
  pose proof (process_test_case_manager (send i) (clock i) user_id tc
                (emit [ShowProgress i total] self)) as Hm.
  destruct (process_test_case (send i) (clock i) user_id tc
              (emit [ShowProgress i total] self)) as [r self2].
  cbv zeta in Hm. cbn [snd] in Hm.
  change (conversation_manager (emit [ShowProgress i total] self))
    with (conversation_manager self) in Hm.
  rewrite IH.
  assert (forall s3 : tool,
            conversation_manager (if Nat.ltb i (total - 1) then emit [Sleep 2] s3 else s3)
            = conversation_manager s3) as ->
    by (intros s3; destruct (Nat.ltb i (total - 1)); reflexivity).
  change (conversation_manager (emit [AppendResultToFile r] self2))
    with (conversation_manager self2).
  destruct Hm as [->|(c & _ & ->)]; [done|].
  unfold ConversationManager.set_conversation_id.
  by destruct (_ !! _).
Qed.

(** X20.  The command-line tool never calls [add_turn]: after a run of a
    new tool the store's statistics, which the summary prints, show 0
    turns, 0 successful and 0 failed turns and a success rate of 0, and
    every group has a turn count of 0. *)
Theorem cli_summary_counts_no_turns send clock user_id test_cases stats0 effects0 :
  let self := {| conversation_manager := ConversationManager.init;
                 tool_stats := stats0; effects := effects0 |} in
  let conv_stats :=
    ConversationManager.get_statistics
      (conversation_manager (run send clock user_id test_cases self).2) in
  ConversationManager.total_turns conv_stats = 0%nat /\
  ConversationManager.successful_turns conv_stats = 0%nat /\
  ConversationManager.failed_turns conv_stats = 0%nat /\
  ConversationManager.success_rate conv_stats = PyInt 0 /\
  forall g, ConversationManager.get_turn_count
              (conversation_manager (run send clock user_id test_cases self).2) g = 0%nat.
Proof.
  intros self conv_stats. subst conv_stats. unfold run.
  pose proof (run_cases_turns send clock user_id (length test_cases) 1 test_cases [] self) as Ht.
  set (m := conversation_manager _) in *. simpl in Ht.
  unfold ConversationManager.get_statistics, ConversationManager.get_turn_count,
    ConversationManager.get_conversation_turns.
  rewrite Ht, map_to_list_empty. simpl. repeat split.
Qed.

End CliCounts.

Section CliEdge.
Context `{PyRuntime}.
Import Cli.

(** X16.  When the first call of a case is answered with a dict: an empty
    dict makes the case fail with the text 未收到有效的API响应; any dict that is
    not empty makes it succeed, with [extract_answer] of the dict as reply;
    and that reply is the empty string when the dict has none of the keys
    answer, message, content, text, response. *)
Theorem first_answer_settles_the_case send now user_id tc self response_data t :
  send 0%nat = inr (JObj response_data, t) ->
  (response_data = [] ->
   r_api_status (process_test_case send now user_id tc self).1 = "failed" /\
   r_error_details (process_test_case send now user_id tc self).1 = "未收到有效的API响应" /\
   failed_cases (tool_stats (process_test_case send now user_id tc self).2)
     = (failed_cases (tool_stats self) + 1)%nat) /\
  (response_data <> [] ->
   r_api_status (process_test_case send now user_id tc self).1 = "成功" /\
   r_error_details (process_test_case send now user_id tc self).1 = "" /\
   r_chatflow_reply (process_test_case send now user_id tc self).1
     = DifyClient.extract_answer response_data /\
   successful_cases (tool_stats (process_test_case send now user_id tc self).2)
     = (successful_cases (tool_stats self) + 1)%nat) /\
  ((forall key, key ∈ ["answer"; "message"; "content"; "text"; "response"] ->
                assoc key response_data = None) ->
   DifyClient.extract_answer response_data = "").
Proof.
  intros H0. unfold process_test_case. cbv zeta.
  rewrite (retry_loop_first_ok _ _ _ _ _ H0).
  split; [|split].
  - intros ->. simpl. done.
  - intros Hne. destruct response_data as [|kv data]; [done|]. cbn [truthy].
    destruct (DifyClient.extract_conversation_id (kv :: data)) as [c|];
      [destruct (str_truthy c)|]; done.
  - intros Hkeys. unfold DifyClient.extract_answer.
    rewrite (Hkeys "answer") by (repeat constructor).
    unfold dict_get. simpl.
    rewrite (Hkeys "message"), (Hkeys "content"), (Hkeys "text"), (Hkeys "response");
      [done|..]; set_solver.
Qed.

(** X15.  [initialize_dify_client] returns [True] whenever reading the
    configuration and building the client raise nothing, whatever the
    connection test reports: [test_connection] returns a pair, which is
    always true as a condition, although its first component is [True]
    only when the test call succeeded. *)
Theorem connection_test_never_stops_the_tool
    (seconds : Q -> string) (config_error : option string) (outcome : api_outcome) :
  (initialize_dify_client seconds config_error outcome).1 =
    bool_decide (config_error = None) /\
  ((DifyClient.test_connection seconds outcome).1 = true <-> exists r, outcome = inr r).
Proof.
  split.
  - unfold initialize_dify_client. by destruct config_error.
  - unfold DifyClient.test_connection. destruct outcome as [[?|?|?|?]|[r t]]; simpl;
      split; try done; try (by intros [? ?]). by eauto.
Qed.

End CliEdge.

(** ** The log buffer *)

Section WebLogs.
Context `{PyRuntime}.
Import Web.

Lemma add_log_bounded level msg g : (length (logs (add_log level msg g)) <= 100)%nat.
Proof.
  unfold add_log. cbn [logs].
  destruct (Nat.ltb_spec 100 (length (logs g ++ [{| level := level; message := msg |}])));
    [rewrite length_drop|]; lia.
Qed.

Lemma finish_logs env g t :
  (length (logs g) <= 100)%nat -> (length (logs (finish env g t).1) <= 100)%nat.
Proof.
  intros Hg. unfold finish, run_error. cbv zeta.
  destruct (storage_error env); [apply add_log_bounded|].
  destruct (decide (status g = Running)); [apply add_log_bounded|exact Hg].
Qed.

Lemma logs_update_statistics l g : logs (update_statistics l g) = logs g.
Proof. by destruct l. Qed.

Lemma after_case_logs env i r g t :
  (length (logs g) <= 100)%nat -> (length (logs (after_case env i r g t).1) <= 100)%nat.
Proof.
  intros Hg. unfold after_case. cbv zeta.
  destruct (_ && _); [cbn [fst]; by rewrite logs_update_statistics|].
  destruct (Nat.ltb _ _); apply finish_logs;
    [apply add_log_bounded|by rewrite logs_update_statistics].
Qed.

Lemma record_outcome_logs env i r api_response response_time g t :
  (length (logs (record_outcome env i r api_response response_time g t).1) <= 100)%nat.
Proof.
  unfold record_outcome, case_raised. cbv zeta.
  destruct api_response as [response|]; [|apply after_case_logs, add_log_bounded].
  destruct (truthy response && negb (bool_decide (status g = Stopped)));
    [|apply after_case_logs, add_log_bounded].
  destruct response; try destruct (DifyClient.extract_answer_other _);
    apply after_case_logs, add_log_bounded.
Qed.

Lemma attempt_call_logs env i attempt tc r c g t :
  (length (logs (attempt_call env i attempt tc r c g t).1) <= 100)%nat.
Proof.
  unfold attempt_call, case_raised.
  destruct (decide (status g = Stopped)); [apply record_outcome_logs|].
  cbv zeta.
  destruct (if str_truthy (inputs tc) then _ else _) as [o t1].
  destruct o as [e|[api_response response_time]]; [|apply record_outcome_logs].
  destruct (Nat.ltb attempt (max_retries - 1)); [apply add_log_bounded|].
  apply after_case_logs, add_log_bounded.
Qed.

Lemma loop_head_logs env i g t :
  (length (logs g) <= 100)%nat -> (length (logs (loop_head env i g t).1) <= 100)%nat.
Proof.
  intros Hg. unfold loop_head, begin_case.
  destruct (test_cases t !! i) as [tc|]; [|by apply finish_logs].
  destruct (decide (status g = Paused)); [exact Hg|].
  destruct (decide (status g = Stopped)); [apply finish_logs, add_log_bounded|].
  apply attempt_call_logs.
Qed.

Lemma resume_logs env g t :
  (length (logs g) <= 100)%nat -> (length (logs (resume env g t).1) <= 100)%nat.
Proof.
  intros Hg. unfold resume.
  destruct (at_await t) as [|i|i attempt r c|i|].
  - unfold enter, run_error. cbv zeta.
    destruct (init_error env); [apply add_log_bounded|].
    apply loop_head_logs, add_log_bounded.
  - by apply loop_head_logs.
  - destruct (test_cases t !! i); [apply attempt_call_logs|exact Hg].
  - by apply loop_head_logs.
  - exact Hg.
Qed.

Lemma step_logs e sv :
  (length (logs (state sv)) <= 100)%nat -> (length (logs (state (step e sv))) <= 100)%nat.
Proof.
  intros Hg. destruct e as [cases configs uuid now| | |now| |k env]; simpl.
  - unfold start_test.
    destruct (decide (status (state sv) = Running)); [exact Hg|].
    destruct cases; [exact Hg|].
    destruct (list_find _ configs) as [[? ?]|]; [|exact Hg].
    apply add_log_bounded.
  - unfold pause_test. destruct (decide _); [exact Hg|apply add_log_bounded].
  - unfold resume_test. destruct (decide _); [exact Hg|apply add_log_bounded].
  - unfold stop_test. destruct (negb _); [exact Hg|apply add_log_bounded].
  - exact Hg.
  - destruct (tasks sv !! k) as [t|]; [|exact Hg].
    pose proof (resume_logs env (state sv) t Hg) as Hr.
    destruct (resume env (state sv) t) as [g t']. exact Hr.
Qed.

Lemma run_events_logs events sv :
  (length (logs (state sv)) <= 100)%nat ->
  (length (logs (state (run_events events sv))) <= 100)%nat.
Proof.
  revert sv. induction events as [|e events IH]; intros sv Hg; [done|].
  simpl. apply IH. by apply step_logs.
Qed.

(** X21.  At every state the server goes through the log buffer holds at
    most 100 entries; [get_test_logs] returns the latest entries of the
    buffer: [limit] of them when [limit] is positive (all when there are
    fewer), and the whole buffer otherwise. *)
Theorem log_buffer_is_bounded (events : list event) (limit : Z) :
  (length (logs (state (run_events events boot))) <= 100)%nat /\
  (exists older,
     logs (state (run_events events boot)) =
       older ++ get_test_logs limit (state (run_events events boot))) /\
  length (get_test_logs limit (state (run_events events boot))) =
    (if Z.ltb 0 limit
     then Nat.min (Z.to_nat limit) (length (logs (state (run_events events boot))))
     else length (logs (state (run_events events boot)))).
Proof.
  split; [apply run_events_logs; simpl; lia|].
  unfold get_test_logs. set (l := logs _).
  destruct (Z.ltb 0 limit).
  - split; [|rewrite length_drop; lia].
    exists (take (length l - Z.to_nat limit) l). by rewrite take_drop.
  - split; [by exists []|done].
Qed.

End WebLogs.

(** ** Pausing *)

Section WebPause.
Context `{PyRuntime}.
Import Web.

(** X22.  A task that wakes at the pause wait or after the inter-case delay
    while the run is paused, with a case still to do, leaves the whole
    state as it is, makes no call and goes back to the pause wait with a
    sleep of 1 second. *)
Theorem paused_task_only_polls env g t tc :
  status g = Paused ->
  test_cases t !! next_case (at_await t) = Some tc ->
  (exists i, at_await t = AtPauseCheck i) \/ (exists i, at_await t = AtCaseDelay i) ->
  resume env g t =
    (g, suspend (AtPauseCheck (next_case (at_await t))) (emit [Sleep 1] t)).
Proof.
  intros Hs Htc Hat. unfold resume.
  destruct Hat as [[i Hat]|[i Hat]]; rewrite Hat in *; cbn [next_case] in *;
    unfold loop_head; rewrite Htc; by rewrite decide_True.
Qed.

Lemma finish_paused env g t :
  status g = Paused ->
  at_await (finish env g t).2 = Finished /\
  (status (finish env g t).1 = Paused \/ status (finish env g t).1 = Error).
Proof.
  intros Hs. unfold finish, run_error. cbv zeta.
  destruct (storage_error env); [split; [done|by right]|].
  rewrite decide_False by (rewrite Hs; discriminate).
  split; [done|by left].
Qed.

Lemma after_case_paused_last env i r g t :
  status g = Paused ->
  S i = length (test_cases t) ->
  at_await (after_case env i r g t).2 = Finished /\
  (status (after_case env i r g t).1 = Paused \/ status (after_case env i r g t).1 = Error).
Proof.
  intros Hs Hi. unfold after_case. cbv zeta.
  change (test_cases (append_result r t)) with (test_cases t).
  destruct (Nat.ltb_spec i (length (test_cases t) - 1)) as [Hlt|_]; [lia|].
  cbn [andb].
  destruct (Nat.ltb_spec (S i) (length (test_cases t))) as [Hlt|_]; [lia|].
  apply finish_paused. by rewrite status_update_statistics.
Qed.

Lemma record_outcome_paused_last env i r api_response response_time g t :
  status g = Paused ->
  S i = length (test_cases t) ->
  at_await (record_outcome env i r api_response response_time g t).2 = Finished /\
  (status (record_outcome env i r api_response response_time g t).1 = Paused \/
   status (record_outcome env i r api_response response_time g t).1 = Error).
Proof.
  intros Hs Hi. unfold record_outcome, case_raised. cbv zeta.
  destruct api_response as [response|];
    [|apply after_case_paused_last; [by rewrite status_add_log|done]].
  destruct (truthy response && negb (bool_decide (status g = Stopped)));
    [|apply after_case_paused_last; [by rewrite status_add_log|done]].
  destruct response;
    try (apply after_case_paused_last; [by rewrite status_add_log|done]);
    try (destruct (DifyClient.extract_answer_other _);
         (apply after_case_paused_last; [by rewrite status_add_log|done])).
  apply after_case_paused_last; [by rewrite status_add_log|].
  destruct (DifyClient.extract_conversation_id fields) as [c|]; [|done].
  by destruct (str_truthy c).
Qed.

Lemma attempt_call_paused_last env i attempt tc r c g t :
  status g = Paused ->
  S i = length (test_cases t) ->
  (1 <= attempt)%nat \/
    (sendable tc /\ exists response response_time, api env = inr (response, response_time)) ->
  at_await (attempt_call env i (S attempt) tc r c g t).2 = Finished /\
  (status (attempt_call env i (S attempt) tc r c g t).1 = Paused \/
   status (attempt_call env i (S attempt) tc r c g t).1 = Error).
Proof.
  intros Hs Hi Hend. unfold attempt_call.
  rewrite decide_False by (rewrite Hs; discriminate). cbv zeta.
  destruct (if str_truthy (inputs tc) then _ else _) as [o t1] eqn:Hout.
  assert (Ht1 : test_cases t1 = test_cases t).
  { destruct (str_truthy (inputs tc)); [destruct (json_loads (inputs tc))|];
      injection Hout as _ <-; done. }
  destruct o as [e|[response response_time]].
  - destruct Hend as [Hattempt|(Hsend & response & response_time & Hapi)].
    + destruct (Nat.ltb_spec (S attempt) (max_retries - 1)) as [Hlt|_];
        [unfold max_retries in Hlt; lia|].
      unfold case_raised. cbv zeta.
      apply after_case_paused_last; [by rewrite status_add_log|by rewrite Ht1].
    + exfalso. destruct Hsend as [Hempty|[parsed Hparsed]].
      * rewrite Hempty in Hout. simpl in Hout. rewrite Hapi in Hout. discriminate.
      * rewrite Hparsed, Hapi in Hout. destruct (str_truthy (inputs tc)); discriminate.
  - apply record_outcome_paused_last; [done|by rewrite Ht1].
Qed.

Lemma step_uncompleted e sv :
  is_start e = false ->
  all_finished sv -> uncompleted (status (state sv)) ->
  all_finished (step e sv) /\ uncompleted (status (state (step e sv))).
Proof.
  intros He Hfin Hst. unfold uncompleted in *.
  destruct e as [? ? ? ?| | |now| |k env]; try discriminate; simpl.
  - split; [done|]. unfold pause_test. destruct (decide _); [done|].
    cbn [snd]. rewrite status_add_log. simpl. auto.
  - split; [done|]. unfold resume_test. destruct (decide _); [done|].
    cbn [snd]. rewrite status_add_log. simpl. auto.
  - split; [done|]. unfold stop_test. destruct (negb _); [done|].
    cbn [snd]. rewrite status_add_log. simpl. auto.
  - done.
  - destruct (tasks sv !! k) as [t|] eqn:Hk; [|done].
    unfold all_finished in Hfin. rewrite Forall_lookup in Hfin.
    pose proof (Hfin k t Hk) as Hat.
    unfold resume. rewrite Hat. simpl. split; [|done].
    unfold all_finished. simpl. rewrite list_insert_id by done.
    by rewrite Forall_lookup.
Qed.

Lemma run_events_uncompleted events sv :
  Forall (fun e => is_start e = false) events ->
  all_finished sv -> uncompleted (status (state sv)) ->
  all_finished (run_events events sv) /\ uncompleted (status (state (run_events events sv))).
Proof.
  intros Hev. revert sv. induction Hev as [|e events He _ IH]; intros sv Hfin Hst; [done|].
  simpl. destruct (step_uncompleted e sv He Hfin Hst) as [Hfin' Hst']. by apply IH.
Qed.

(** X23.  A pause that arrives while the task sleeps before a retry of the
    last case does not hold that case back, and the run then never
    completes: once the task has woken (for its last attempt, or for a call
    that is answered), and whatever requests and wake-ups follow short of
    a new start, every task has finished and the status is paused, running,
    stopped or error, never [completed]. *)
Theorem pause_in_last_retry_wait_blocks_completion
    env sv t i attempt r c tc (events : list event) :
  status (state sv) = Paused ->
  tasks sv = [t] ->
  at_await t = AtRetrySleep i attempt r c ->
  test_cases t !! i = Some tc ->
  S i = length (test_cases t) ->
  (1 <= attempt)%nat \/
    (sendable tc /\ exists response response_time, api env = inr (response, response_time)) ->
  Forall (fun e => is_start e = false) events ->
  all_finished (run_events (Wake 0 env :: events) sv) /\
  uncompleted (status (state (run_events (Wake 0 env :: events) sv))).
Proof.
  intros Hs Htasks Hat Htc Hi Hend Hev.
  change (run_events (Wake 0 env :: events) sv)
    with (run_events events (step (Wake 0 env) sv)).
  apply run_events_uncompleted; [done| |]; simpl; rewrite Htasks; simpl;
    unfold resume; rewrite Hat, Htc;
    destruct (attempt_call_paused_last env i attempt tc r c (state sv) t Hs Hi Hend)
      as [Ha Hst];
    destruct (attempt_call env i (S attempt) tc r c (state sv) t) as [g' t'];
    simpl in *.
  - unfold all_finished. simpl. by repeat constructor.
  - unfold uncompleted. destruct Hst as [->| ->]; auto.
Qed.

End WebPause.

(** ** Stopping *)

Section WebStop.
Context `{PyRuntime}.
Import Web.

Lemma outward_emit l t :
  outward (emit l t) = outward t ++ filter (fun e => is_call e || is_sleep e = true) l.
Proof. unfold outward. simpl. by rewrite filter_app. Qed.

(** [finish] ends the task, and adds no call and no sleep. *)
Lemma finish_quiet env g t :
  at_await (finish env g t).2 = Finished /\
  outward (finish env g t).2 = outward t /\
  results (finish env g t).2 = results t /\
  run_progress (finish env g t).1 = run_progress g /\
  (status g = Stopped ->
   status (finish env g t).1 = Stopped \/ status (finish env g t).1 = Error).
Proof.
  assert (Hq1 : forall e1 s1 r1 a t0,
            outward (suspend a (emit [AddTestRecord e1 s1 r1] t0)) = outward t0).
  { intros. unfold outward. simpl. rewrite !filter_app. simpl. by rewrite !app_nil_r. }
  assert (Hq2 : forall e1 e2 s1 s2 r1 r2 a t0,
            outward (suspend a (emit [AddTestRecord e2 s2 r2]
                                  (emit [AddTestRecord e1 s1 r1] t0))) = outward t0).
  { intros. unfold outward. simpl. rewrite !filter_app. simpl. by rewrite !app_nil_r. }
  unfold finish, run_error. cbv zeta.
  destruct (storage_error env).
  - repeat split; [apply Hq2|]. intros _. by right.
  - destruct (decide (status g = Running)) as [Hr|Hr].
    + repeat split; [apply Hq1|]. intros Hs. congruence.
    + repeat split; [apply Hq1|]. intros Hs. by left.
Qed.

Lemma finish_stopped env g t :
  status g = Stopped -> stop_observed None g t (finish env g t).1 (finish env g t).2.
Proof.
  intros Hs. destruct (finish_quiet env g t) as (Ha & Ho & Hr & Hp & Hst).
  unfold stop_observed. rewrite Hp. repeat split; auto.
Qed.

Lemma after_case_stopped env i r g t :
  status g = Stopped ->
  at_await (after_case env i r g t).2 = Finished /\
  outward (after_case env i r g t).2 = outward t /\
  (status (after_case env i r g t).1 = Stopped \/ status (after_case env i r g t).1 = Error) /\
  results (after_case env i r g t).2 = results t ++ [r] /\
  run_progress (after_case env i r g t).1 = run_progress (incr_completed g).
Proof.
  intros Hs. unfold after_case. cbv zeta.
  rewrite status_update_statistics.
  change (status (incr_completed g)) with (status g).
  rewrite bool_decide_eq_true_2 by done. rewrite andb_false_r.
  destruct (Nat.ltb _ _).
  - match goal with |- context [finish env ?g1 ?t1] =>
      destruct (finish_quiet env g1 t1) as (Ha & Ho & Hr & Hp & Hst) end.
    rewrite Ha, Ho, Hr, Hp. rewrite progress_add_log, progress_update_statistics.
    repeat split. apply Hst. by rewrite status_add_log, status_update_statistics.
  - match goal with |- context [finish env ?g1 ?t1] =>
      destruct (finish_quiet env g1 t1) as (Ha & Ho & Hr & Hp & Hst) end.
    rewrite Ha, Ho, Hr, Hp. rewrite progress_update_statistics.
    repeat split. apply Hst. by rewrite status_update_statistics.
Qed.

Lemma attempt_call_stopped env i attempt tc r c g t :
  status g = Stopped ->
  stop_observed (Some i) g t (attempt_call env i attempt tc r c g t).1
    (attempt_call env i attempt tc r c g t).2.
Proof.
  intros Hs. unfold attempt_call.
  rewrite decide_True by done. unfold record_outcome. cbv zeta.
  match goal with |- context [after_case env i ?r1 ?g1 ?t1] =>
    destruct (after_case_stopped env i r1 g1 t1) as (Ha & Ho & Hst & Hr & Hp);
      [by rewrite status_add_log|]
  end.
  unfold stop_observed. rewrite Ha, Ho, Hr, Hp.
  split; [done|]. split; [done|]. split; [done|]. split; [done|].
  eexists. split; [reflexivity|]. simpl. repeat split; lia.
Qed.

Lemma loop_head_stopped env i g t :
  status g = Stopped ->
  stop_observed None g t (loop_head env i g t).1 (loop_head env i g t).2.
Proof.
  intros Hs. unfold loop_head.
  destruct (test_cases t !! i) as [tc|]; [|by apply finish_stopped].
  rewrite decide_False by congruence. rewrite decide_True by done.
  match goal with |- context [finish env ?g1 t] =>
    pose proof (finish_stopped env g1 t) as Hf end.
  rewrite status_add_log in Hf. specialize (Hf Hs).
  unfold stop_observed in *. rewrite progress_add_log in Hf. exact Hf.
Qed.

Lemma stop_observed_results i g t g' t' :
  stop_observed i g t g' t' ->
  at_await t' = Finished /\
  outward t' = outward t /\
  (status g' = Stopped \/ status g' = Error) /\
  success (run_progress g') = success (run_progress g) /\
  (length (results t') <= S (length (results t)))%nat /\
  Forall (fun r => r_error_details r = "未收到有效的API响应或测试被停止")
         (drop (length (results t)) (results t')).
Proof.
  intros (Ha & Ho & Hst & Hsu & Hi).
  split; [done|]. split; [done|]. split; [done|]. split; [done|].
  destruct i as [i|].
  - destruct Hi as (r & -> & Hr & _). rewrite drop_app_length, length_app. simpl.
    split; [lia|]. by constructor.
  - destruct Hi as [-> _]. rewrite drop_ge by lia. split; [lia|constructor].
Qed.

(** X24.  A task that wakes while the run is stopped ends in that segment
    and makes no further API call and no further sleep; the status stays
    stopped (or turns to error when the set-up or the storage fails); no
    success is counted; and at most one result is added, the one of a case
    that was waiting for a retry, with the text 未收到有效的API响应或测试被停止. *)
Theorem stopped_task_ends_without_a_call env g t :
  status g = Stopped ->
  has_its_case t ->
  at_await (resume env g t).2 = Finished /\
  outward (resume env g t).2 = outward t /\
  (status (resume env g t).1 = Stopped \/ status (resume env g t).1 = Error) /\
  success (run_progress (resume env g t).1) = success (run_progress g) /\
  (length (results (resume env g t).2) <= S (length (results t)))%nat /\
  Forall (fun r => r_error_details r = "未收到有效的API响应或测试被停止")
         (drop (length (results t)) (results (resume env g t).2)).
Proof.
  intros Hs Hcase.
  assert (exists i, stop_observed i g t (resume env g t).1 (resume env g t).2) as [i Hi];
    [|by apply (stop_observed_results i)].
  unfold resume, has_its_case in *.
  destruct (at_await t) as [|i|i attempt r c|i|] eqn:Hat.
  - exists None. unfold enter. cbv zeta.
    destruct (init_error env).
    + unfold stop_observed, run_error, outward. simpl.
      rewrite filter_app. simpl. rewrite app_nil_r. repeat split. by right.
    + match goal with |- context [loop_head env 0 ?g1 ?t1] =>
        pose proof (loop_head_stopped env 0 g1 t1) as Hl end.
      rewrite status_add_log in Hl. specialize (Hl Hs).
      unfold stop_observed in *. rewrite progress_add_log in Hl. exact Hl.
  - exists None. by apply loop_head_stopped.
  - exists (Some i). destruct Hcase as [tc Htc]. rewrite Htc.
    by apply attempt_call_stopped.
  - exists None. by apply loop_head_stopped.
  - exists None. unfold stop_observed. cbn [fst snd]. repeat split; [done|by left].
Qed.

End WebStop.

(** ** The stored history record *)

Section WebRecord.
Context `{PyRuntime}.
Import Web.

Lemma finish_stored env g t s :
  status g = s -> s <> Completed ->
  status (finish env g t).1 = Completed ->
  s = Running /\ stored_as Running (finish env g t).2 /\
  at_await (finish env g t).2 = Finished.
Proof.
  intros <- Hne. unfold finish, run_error. cbv zeta.
  destruct (storage_error env); [discriminate|].
  destruct (decide (status g = Running)) as [Hr|Hr]; [|done].
  intros _. split; [done|]. split; [|done]. exists (effects t). simpl. by rewrite Hr.
Qed.

Lemma after_case_stored env i r g t s :
  status g = s -> s <> Completed ->
  status (after_case env i r g t).1 = Completed ->
  s = Running /\ stored_as Running (after_case env i r g t).2 /\
  at_await (after_case env i r g t).2 = Finished.
Proof.
  intros <- Hne. unfold after_case. cbv zeta.
  destruct (_ && _).
  - cbn [fst]. rewrite status_update_statistics. done.
  - destruct (Nat.ltb _ _); apply finish_stored;
      by rewrite ?status_add_log, ?status_update_statistics.
Qed.

Lemma record_outcome_stored env i r api_response response_time g t s :
  status g = s -> s <> Completed ->
  status (record_outcome env i r api_response response_time g t).1 = Completed ->
  s = Running /\
  stored_as Running (record_outcome env i r api_response response_time g t).2 /\
  at_await (record_outcome env i r api_response response_time g t).2 = Finished.
Proof.
  intros <- Hne. unfold record_outcome, case_raised. cbv zeta.
  destruct api_response as [response|];
    [|apply after_case_stored; by rewrite ?status_add_log].
  destruct (truthy response && negb (bool_decide (status g = Stopped)));
    [|apply after_case_stored; by rewrite ?status_add_log].
  destruct response; try destruct (DifyClient.extract_answer_other _);
    apply after_case_stored; by rewrite ?status_add_log.
Qed.

Lemma attempt_call_stored env i attempt tc r c g t s :
  status g = s -> s <> Completed ->
  status (attempt_call env i attempt tc r c g t).1 = Completed ->
  s = Running /\
  stored_as Running (attempt_call env i attempt tc r c g t).2 /\
  at_await (attempt_call env i attempt tc r c g t).2 = Finished.
Proof.
  intros <- Hne. unfold attempt_call, case_raised.
  destruct (decide (status g = Stopped)); [by apply record_outcome_stored|].
  cbv zeta.
  destruct (if str_truthy (inputs tc) then _ else _) as [o t1].
  destruct o as [e|[api_response response_time]]; [|by apply record_outcome_stored].
  destruct (Nat.ltb attempt (max_retries - 1)).
  - cbn [fst]. by rewrite status_add_log.
  - apply after_case_stored; by rewrite ?status_add_log.
Qed.

Lemma loop_head_stored env i g t s :
  status g = s -> s <> Completed ->
  status (loop_head env i g t).1 = Completed ->
  s = Running /\ stored_as Running (loop_head env i g t).2 /\
  at_await (loop_head env i g t).2 = Finished.
Proof.
  intros <- Hne. unfold loop_head, begin_case.
  destruct (test_cases t !! i) as [tc|]; [|by apply finish_stored].
  destruct (decide (status g = Paused)); [done|].
  destruct (decide (status g = Stopped));
    [apply finish_stored; by rewrite ?status_add_log|].
  cbv zeta. apply attempt_call_stored; by rewrite ?status_add_log.
Qed.

(** X25.  The history record of a run that completes is written before the
    status is set: a segment after which the status is [completed] either
    found it so, or found it [running], and then the last thing the task
    did to the outside was to store its record with status [running], and
    the task has finished (so the stored record is not written again). *)
Theorem completed_run_is_stored_as_running env g t :
  status (resume env g t).1 = Completed ->
  status g = Completed \/
  (status g = Running /\
   stored_as Running (resume env g t).2 /\
   at_await (resume env g t).2 = Finished).
Proof.
  intros Hc. destruct (decide (status g = Completed)) as [Hg|Hne]; [by left|right].
  revert Hc. unfold resume.
  destruct (at_await t) as [|i|i attempt r c|i|].
  - unfold enter. cbv zeta. destruct (init_error env); [discriminate|].
    apply loop_head_stored; by rewrite ?status_add_log.
  - by apply loop_head_stored.
  - destruct (test_cases t !! i); [by apply attempt_call_stored|done].
  - by apply loop_head_stored.
  - done.
Qed.

End WebRecord.

(** ** A run in which every call is answered *)

Section WebHappy.
Context `{PyRuntime}.
Import Web.

Lemma after_case_last env i r g t :
  ~ (S i < length (test_cases t))%nat ->
  storage_error env = None ->
  status g = Running ->
  at_await (after_case env i r g t).2 = Finished /\
  status (after_case env i r g t).1 = Completed.
Proof.
  intros Hi Hst Hs. unfold after_case. cbv zeta.
  change (test_cases (append_result r t)) with (test_cases t).
  destruct (Nat.ltb_spec i (length (test_cases t) - 1)) as [Hlt|_]; [lia|].
  cbn [andb].
  destruct (Nat.ltb_spec (S i) (length (test_cases t))) as [Hlt|_]; [lia|].
  unfold finish. cbv zeta. rewrite Hst.
  rewrite decide_True by (by rewrite status_update_statistics).
  done.
Qed.

(** One case of a running task whose call is answered. *)
Lemma loop_head_answered env i tc g t :
  test_cases t !! i = Some tc ->
  status g = Running ->
  sendable tc ->
  answered env ->
  test_cases (loop_head env i g t).2 = test_cases t /\
  (exists r, results (loop_head env i g t).2 = results t ++ [r] /\
             r_api_status r = "success" /\ r_error_details r = "" /\
             r_user_question r = user_question tc) /\
  calls_made (loop_head env i g t).2 = S (calls_made t) /\
  total (run_progress (loop_head env i g t).1) = total (run_progress g) /\
  completed (run_progress (loop_head env i g t).1) = S (completed (run_progress g)) /\
  success (run_progress (loop_head env i g t).1) = S (success (run_progress g)) /\
  failed (run_progress (loop_head env i g t).1) = failed (run_progress g) /\
  (if Nat.ltb (S i) (length (test_cases t))
   then at_await (loop_head env i g t).2 = AtCaseDelay i /\
        status (loop_head env i g t).1 = Running
   else at_await (loop_head env i g t).2 = Finished /\
        status (loop_head env i g t).1 = Completed).
Proof.
  intros Hlookup Hstatus Hsend (Hinit & Hstore & field & data & time & Hapi).
  pose proof (lookup_lt_Some _ _ _ Hlookup) as Hi.
  unfold loop_head. rewrite Hlookup.
  rewrite !decide_False by (rewrite Hstatus; discriminate).
  unfold begin_case. cbv zeta. unfold attempt_call.
  rewrite decide_False by (rewrite status_add_log; simpl; rewrite Hstatus; discriminate).
  cbv zeta.
  match goal with |- context [if str_truthy (inputs tc) then ?a else ?b] =>
    assert (exists parsed,
              (if str_truthy (inputs tc) then a else b) =
                (api env,
                 emit [Call (user_question tc) (user_id (active_config t))
                         match ConversationManager.get_conversation_id
                                 (conversation_manager t) (conversation_id tc) with
                         | Some c => if String.eqb c "new" then None else Some c
                         | None => None
                         end parsed] t)) as [parsed ->]
  end.
  { destruct Hsend as [Hempty|[parsed Hparsed]].
    - rewrite Hempty. simpl. by eexists.
    - rewrite Hparsed. destruct (str_truthy (inputs tc)); by eexists. }
  rewrite Hapi. unfold record_outcome. cbv zeta.
  rewrite status_add_log. cbn [status set_current_response set_current set_progress].
  rewrite bool_decide_eq_false_2 by (rewrite Hstatus; discriminate).
  cbn [truthy andb negb].
  match goal with |- context [after_case env i ?r1 ?g1 ?t1] =>
    set (t3 := t1); set (g3 := g1); set (r3 := r1) end.
  assert (Ht3 : test_cases t3 = test_cases t /\ results t3 = results t /\
                effects t3 = effects t ++
                  [Call (user_question tc) (user_id (active_config t))
                         match ConversationManager.get_conversation_id
                                 (conversation_manager t) (conversation_id tc) with
                         | Some c => if String.eqb c "new" then None else Some c
                         | None => None
                         end parsed]).
  { subst t3. destruct (DifyClient.extract_conversation_id _) as [c|]; [|done].
    destruct (str_truthy c); done. }
  destruct Ht3 as (Hcases3 & Hres3 & Heff3).
  assert (Hs3 : status g3 = Running).
  { subst g3. by rewrite status_add_log. }
  assert (Hi3 : (i < length (test_cases t3))%nat) by (by rewrite Hcases3).
  destruct (after_case_task env i r3 g3 t3) as (Hres & tail & Heff & Htail).
  destruct (after_case_spec env i r3 g3 t3 Hi3) as (Hp & Hcases & _).
  rewrite Hcases, Hcases3, Hres, Hres3, Hp.
  split; [done|]. split; [by exists r3|]. split.
  { unfold calls_made. rewrite Heff, Heff3, !filter_app, !length_app.
    assert (filter (fun e => is_call e = true) tail = []) as ->.
    { clear -Htail. induction Htail as [|e tail He _ IH]; [done|].
      rewrite filter_cons, decide_False by (rewrite He; discriminate). exact IH. }
    simpl. lia. }
  split; [by subst g3|]. split; [subst g3; simpl; lia|].
  split; [subst g3; simpl; lia|]. split; [by subst g3|].
  rewrite <- Hcases3.
  destruct (Nat.ltb_spec (S i) (length (test_cases t3))) as [Hnext|Hlast].
  - destruct (after_case_goes_on env i r3 g3 t3 Hnext) as (Ha & Hs & _);
      [by rewrite Hs3|].
    by rewrite Ha, Hs, Hs3.
  - apply after_case_last; [lia|done|done].
Qed.

Lemma run_segments_cons env envs g t :
  run_segments (env :: envs) g t =
    run_segments envs (resume env g t).1 (resume env g t).2.
Proof. unfold run_segments. simpl. by destruct (resume env g t). Qed.

(** A running task at the start or between two cases, every case left
    answered at its first call, one segment per case. *)
Lemma run_answered_from envs g t i :
  Forall answered envs ->
  Forall sendable (test_cases t) ->
  status g = Running ->
  (at_await t = AtStart /\ i = 0%nat) \/ (exists j, at_await t = AtCaseDelay j /\ i = S j) ->
  (i + length envs = length (test_cases t))%nat ->
  (0 < length envs)%nat ->
  status (run_segments envs g t).1 = Completed /\
  at_await (run_segments envs g t).2 = Finished /\
  total (run_progress (run_segments envs g t).1) = total (run_progress g) /\
  completed (run_progress (run_segments envs g t).1)
    = (completed (run_progress g) + length envs)%nat /\
  success (run_progress (run_segments envs g t).1)
    = (success (run_progress g) + length envs)%nat /\
  failed (run_progress (run_segments envs g t).1) = failed (run_progress g) /\
  calls_made (run_segments envs g t).2 = (calls_made t + length envs)%nat /\
  exists new,
    results (run_segments envs g t).2 = results t ++ new /\
    length new = length envs /\
    Forall (fun r => r_api_status r = "success") new.
Proof.
  intros Henvs. revert g t i.
  induction Henvs as [|env envs Henv _ IH]; intros g t i Hcases Hs Hat Hlen Hpos;
    [simpl in Hpos; lia|].
  rewrite run_segments_cons. simpl in Hlen.
  assert (Hi : (i < length (test_cases t))%nat) by lia.
  destruct (lookup_lt_is_Some_2 _ _ Hi) as [tc Htc].
  assert (Htc_ok : sendable tc).
  { rewrite Forall_lookup in Hcases. by apply (Hcases i). }
  assert (Hhead : exists g1 t1,
            resume env g t = loop_head env i g1 t1 /\
            status g1 = Running /\ run_progress g1 = run_progress g /\
            test_cases t1 = test_cases t /\ results t1 = results t /\
            calls_made t1 = calls_made t).
  { unfold resume.
    destruct Hat as [[-> ->]|(j & -> & ->)].
    - unfold enter. cbv zeta. destruct Henv as (-> & _).
      eexists _, _. split; [reflexivity|].
      by rewrite status_add_log, progress_add_log.
    - by eexists _, _. }
  destruct Hhead as (g1 & t1 & -> & Hs1 & Hp1 & Hc1 & Hr1 & Hm1).
  rewrite <- Hc1 in Htc.
  destruct (loop_head_answered env i tc g1 t1 Htc Hs1 Htc_ok Henv)
    as (Hc2 & (r & Hr2 & Hok & _) & Hm2 & Ht2 & Hco2 & Hsu2 & Hf2 & Hnext).
  rewrite Hc1 in Hnext.
  destruct (Nat.ltb_spec (S i) (length (test_cases t))) as [Hmore|Hlast].
  - destruct Hnext as [Ha2 Hs2].
    destruct (IH (loop_head env i g1 t1).1 (loop_head env i g1 t1).2 (S i))
      as (HS & HA & HT & HCO & HSU & HF & HM & new & HR & HL & HOK).
    + by rewrite Hc2, Hc1.
    + exact Hs2.
    + right. by exists i.
    + rewrite Hc2, Hc1. lia.
    + lia.
    + rewrite HT, HCO, HSU, HF, HM, HR, Ht2, Hco2, Hsu2, Hf2, Hm2, Hr2, Hp1, Hr1, Hm1.
      split; [done|]. split; [done|]. split; [done|]. split; [simpl; lia|].
      split; [simpl; lia|]. split; [done|]. split; [simpl; lia|].
      exists (r :: new). rewrite <- app_assoc. split; [done|].
      split; [simpl; lia|]. by constructor.
  - destruct Hnext as [Ha2 Hs2].
    assert (envs = []) as -> by (destruct envs; [done|simpl in Hlen; lia]).
    unfold run_segments. cbn [foldl fst snd].
    rewrite Ha2, Hs2, Ht2, Hco2, Hsu2, Hf2, Hm2, Hr2, Hp1, Hr1, Hm1.
    split; [done|]. split; [done|]. split; [done|]. split; [simpl; lia|].
    split; [simpl; lia|]. split; [done|]. split; [simpl; lia|].
    exists [r]. split; [done|]. split; [done|]. by constructor.
Qed.

(** X26.  A run that [start_test] accepted, with one segment per case, in
    which the set-up and the storage work, every case's inputs are empty or
    decode, and every first call is answered with a dict that is not empty:
    the run ends [completed] with total = completed = success = number of
    cases and failed = 0; the task has finished, holds one result per case,
    all with status success, and has made one call per case. *)
Theorem answered_run_completes
    cases configs uuid now0 g resp g0 t0 (envs : list segment_env) :
  start_test cases configs uuid now0 g = (resp, g0, Some t0) ->
  Forall sendable cases ->
  Forall answered envs ->
  length envs = length cases ->
  status (run_segments envs g0 t0).1 = Completed /\
  counts (run_segments envs g0 t0).1
    = (length cases, length cases, length cases, 0%nat) /\
  at_await (run_segments envs g0 t0).2 = Finished /\
  length (results (run_segments envs g0 t0).2) = length cases /\
  Forall (fun r => r_api_status r = "success") (results (run_segments envs g0 t0).2) /\
  calls_made (run_segments envs g0 t0).2 = length cases.
Proof.
  intros Hstart Hcases Henvs Hlen. unfold start_test in Hstart.
  destruct (decide (status g = Running)); [discriminate|].
  destruct cases as [|tc cases]; [discriminate|].
  destruct (list_find _ configs) as [[k c]|]; [|discriminate].
  injection Hstart as _ <- <-.
  match goal with |- context [run_segments envs ?g0 ?t0] =>
    destruct (run_answered_from envs g0 t0 0) as
      (HS & HA & HT & HCO & HSU & HF & HM & new & HR & HL & HOK) end.
  - exact Henvs.
  - exact Hcases.
  - by rewrite !status_add_log.
  - by left.
  - simpl. simpl in Hlen. lia.
  - rewrite Hlen. simpl. lia.
  - unfold counts. rewrite HS, HA, HT, HCO, HSU, HF, HM, HR, !progress_add_log.
    unfold calls_made. simpl. rewrite HL, Hlen. simpl. repeat split; done.
Qed.

End WebHappy.

(** C1, the code at fault.  A run of two cases is paused after its first
    case and started again while paused.  The first background task is still
    alive: it wakes up in the new run and counts its second case into the
    new counters, next to the two cases of the new task.  At the end the
    snapshot shows total 2, completed 3, success 3, failed 0: success +
    failed = completed holds, completed <= total does not. *)
Theorem restart_while_paused_overcounts :
  Web.counts (Web.state (@Web.run_events (Sample.runtime []) Sample.restart_trace Web.boot))
  = (2, 3, 3, 0)%nat.
Proof. vm_compute. reflexivity. Qed.



(** A session id made of blanks is not stored: the id of the group stays. *)
Lemma blank_session_id_is_not_stored :
  let m := Cli.conversation_manager Sample.tool_with_session in
  let m' := Cli.conversation_manager
              (@Cli.process_test_case (Sample.runtime []) Sample.blank_session "09:01"
                 "tester" (Sample.cli_case "hi") Sample.tool_with_session).2 in
  ConversationManager._conversation_mapping m !! "g1" = Some "conv-1" /\
  (ConversationManager.set_calls m' <= S (ConversationManager.set_calls m))%nat /\
  exists conversation_id,
    ConversationManager._conversation_mapping m' !! "g1" = Some conversation_id /\
    conversation_id <> "".
Proof.
  split; [reflexivity|].
  destruct (proj1 (@session_id_set_once_never_emptied (Sample.runtime []))
              Sample.blank_session "09:01" "tester" (Sample.cli_case "hi")
              Sample.tool_with_session) as [Hcalls Hkept].
  split; [exact Hcalls|].
  apply (Hkept "g1" "conv-1"); [reflexivity|discriminate].
Defined.


(** Two cases in the web task, not stopped: a sleep of 2 seconds after the
    first, none after the second. *)
Lemma web_delay_between_two_cases :
  (let out := Web.after_case Sample.env_ok 0
                {| Web.r_task_id := None; Web.r_case_id := "case-1";
                   Web.r_conversation_id := "g1"; Web.r_turn_number := 1;
                   Web.r_user_question := "hi"; Web.r_expected_response := "";
                   Web.r_chatflow_reply := "ok"; Web.r_response_time := PyInt 0;
                   Web.r_api_status := "success"; Web.r_error_details := "";
                   Web.r_call_time := "09:00" |}
                Sample.running_state Sample.waiting_task in
   Web.at_await out.2 = Web.AtCaseDelay 0 /\
   Web.effects out.2 = Web.effects Sample.waiting_task ++ [Web.Sleep 2]).
Proof.
  apply (web_delay_after_all_but_last Sample.env_ok 0%nat _
           Sample.running_state Sample.waiting_task).
  - simpl. lia.
  - discriminate.
Defined.

(** One start among other requests and wake-ups: completed stays within
    total. *)
Lemma single_start_within_total :
  Forall (fun e => Web.is_start e = false) Sample.before_start /\
  Forall (fun e => Web.is_start e = false) Sample.after_start /\
  Web.within_total
    (Web.state
       (@Web.run_events (Sample.runtime [])
          (Sample.before_start
           ++ Web.ReqStart [Sample.one_case; Sample.second_case] [Sample.active]
                "run-1" "09:00" :: Sample.after_start)
          Web.boot)).
Proof.
  split; [by repeat constructor|]. split; [by repeat constructor|].
  apply (@within_total_single_start (Sample.runtime [])); by repeat constructor.
Defined.

(** The example stream framed in another way gives the same response. *)
Lemma framing_is_immaterial :
  omap (@StreamReading.payload (Sample.runtime Sample.hello_events))
       (Sample.hello_pre ++ Sample.hello_end :: Sample.hello_post)
  = omap (@StreamReading.payload (Sample.runtime Sample.hello_events)) Sample.hello_framed /\
  @DifyClient._handle_streaming_response (Sample.runtime Sample.hello_events)
    (Sample.hello_pre ++ Sample.hello_end :: Sample.hello_post)
  = @DifyClient._handle_streaming_response (Sample.runtime Sample.hello_events)
      Sample.hello_framed.
Proof.
  split; [vm_compute; reflexivity|].
  apply (@stream_depends_on_payloads_only (Sample.runtime Sample.hello_events)).
  vm_compute; reflexivity.
Defined.

(** An [error] event after the three chunks: the call fails, and the
    [message_end] behind it is not read. *)
Lemma late_error_event_fails_the_call :
  Forall (fun line => @StreamReading.reads_past (Sample.runtime Sample.hello_events) line = true)
         Sample.hello_pre /\
  @DifyClient._handle_streaming_response (Sample.runtime Sample.hello_events)
    (Sample.hello_pre ++ Sample.failing_line :: [Sample.hello_end])
  = inl (DifyAPIError "处理流式响应失败: 流式响应错误: late").
Proof.
  split; [repeat constructor|].
  rewrite (@stream_error_event_fails (Sample.runtime Sample.hello_events)
             Sample.hello_pre Sample.failing_line
             [("event", JStr "error"); ("message", JStr "late")] [Sample.hello_end]).
  - reflexivity.
  - repeat constructor.
  - reflexivity.
Defined.

(** The example stream cut off before its [message_end]. *)
Lemma stream_cut_short :
  Forall (fun line => @StreamReading.reads_past (Sample.runtime Sample.hello_events) line = true)
         Sample.hello_pre /\
  @DifyClient._handle_streaming_response (Sample.runtime Sample.hello_events) Sample.hello_pre
  = inr (JObj [("answer", JStr "Hello world");
               ("conversation_id", JStr "conv-abc");
               ("message_id", JStr "msg-1")]).
Proof.
  split; [repeat constructor|].
  rewrite (@stream_without_end_is_best_effort (Sample.runtime Sample.hello_events)
             Sample.hello_pre).
  - reflexivity.
  - repeat constructor.
Defined.

(** The key app-1234abcd masked with four characters shown: the length is
    kept and the sixth character is an asterisk. *)
Lemma masked_key_keeps_its_ends :
  (0 < 4)%nat /\
  length (Masking.mask_api_key Sample.star Sample.long_key (Z.of_nat 4)) = 12%nat /\
  Masking.mask_api_key Sample.star Sample.long_key (Z.of_nat 4) !! 5%nat = Some Sample.star.
Proof.
  assert (0 < 4)%nat as Hshow by lia.
  destruct (mask_api_key_hides_the_middle Sample.star Sample.long_key 4 5 Hshow) as [Hlen Hmid].
  split; [exact Hshow|]. split; [exact Hlen|].
  rewrite Hmid by (simpl; lia). reflexivity.
Defined.

(** A key of eight characters is returned in clear by [get_all_config]. *)
Lemma short_key_is_not_masked :
  Sample.short_key_config !! "API" = Some Sample.short_key_section /\
  Sample.short_key_section !! "api_key" = Some Sample.short_key /\
  (Masking.get_all_config Sample.star Sample.short_key_config !! "API") ≫= (fun api => api !! "api_key")
    = Some Sample.short_key.
Proof.
  split; [reflexivity|]. split; [reflexivity|].
  destruct (get_all_config_leaves_short_keys Sample.star Sample.short_key_config Sample.short_key_section
              Sample.short_key eq_refl eq_refl) as [Hkey _].
  exact Hkey.
Defined.

(** A call answered with an empty dict fails the case. *)
Lemma empty_dict_is_no_answer :
  Sample.empty_answer 0%nat = inr (JObj [], 1%Q) /\
  Cli.r_api_status
    (@Cli.process_test_case (Sample.runtime []) Sample.empty_answer "09:00" "tester" (Sample.cli_case "hi")
       Sample.fresh_tool).1 = "failed" /\
  Cli.r_error_details
    (@Cli.process_test_case (Sample.runtime []) Sample.empty_answer "09:00" "tester" (Sample.cli_case "hi")
       Sample.fresh_tool).1 = "未收到有效的API响应".
Proof.
  split; [reflexivity|].
  destruct (@first_answer_settles_the_case (Sample.runtime []) Sample.empty_answer "09:00" "tester"
              (Sample.cli_case "hi") Sample.fresh_tool [] 1%Q eq_refl) as [Hempty _].
  destruct (Hempty eq_refl) as (Hs & He & _). by split.
Defined.

(** Two time-outs, then an answer: three calls, two warnings, two sleeps of
    5 seconds, and a successful case. *)
Lemma two_timeouts_then_an_answer :
  Sample.third_time_lucky 0%nat = inl Sample.timeout_error /\
  Sample.third_time_lucky 1%nat = inl Sample.timeout_error /\
  Sample.third_time_lucky 2%nat = inr (JObj [("answer", JStr "ok")], 1%Q) /\
  Cli.r_api_status
    (@Cli.process_test_case (Sample.runtime []) Sample.third_time_lucky "09:00" "tester" (Sample.cli_case "hi")
       Sample.fresh_tool).1 = "成功" /\
  Cli.effects
    (@Cli.process_test_case (Sample.runtime []) Sample.third_time_lucky "09:00" "tester" (Sample.cli_case "hi")
       Sample.fresh_tool).2 =
    [Sample.sample_call; Cli.LogRetryWarning 5 1 3 "API请求超时（30秒）"; Cli.Sleep 5;
     Sample.sample_call; Cli.LogRetryWarning 5 2 3 "API请求超时（30秒）"; Cli.Sleep 5;
     Sample.sample_call].
Proof.
  split; [reflexivity|]. split; [reflexivity|]. split; [reflexivity|].
  destruct (@two_failures_then_success (Sample.runtime []) Sample.third_time_lucky "09:00" "tester"
              (Sample.cli_case "hi") Sample.fresh_tool Sample.timeout_error Sample.timeout_error
              "answer" (JStr "ok") [] 1%Q eq_refl eq_refl eq_refl)
    as (Hs & _ & _ & _ & He & _).
  split; [exact Hs|exact He].
Defined.

(** The first turn of group g1 opens session conv-1; the calls of the
    second turn, which all time out, carry it. *)
Lemma second_turn_carries_the_session :
  Sample.opening_session 0%nat
    = inr (JObj [("answer", JStr "ok"); ("conversation_id", JStr "conv-1")], 1%Q) /\
  @DifyClient.extract_conversation_id (Sample.runtime [])
    [("answer", JStr "ok"); ("conversation_id", JStr "conv-1")] = Some "conv-1" /\
  Cli.conversation_group_id (Sample.cli_case "and then?") = Cli.conversation_group_id (Sample.cli_case "hi") /\
  exists k, (1 <= k <= 3)%nat /\
    Cli.calls
      (Cli.effects
         (@Cli.process_test_case (Sample.runtime []) Sample.timing_out "09:01" "tester"
            (Sample.cli_case "and then?")
            (@Cli.process_test_case (Sample.runtime []) Sample.opening_session "09:00" "tester"
               (Sample.cli_case "hi") Sample.fresh_tool).2).2) =
    Cli.calls
      (Cli.effects
         (@Cli.process_test_case (Sample.runtime []) Sample.opening_session "09:00" "tester"
            (Sample.cli_case "hi") Sample.fresh_tool).2)
    ++ replicate k (Cli.Call "and then?" "tester" (Some "conv-1") (JObj [])).
Proof.
  split; [reflexivity|]. split; [reflexivity|]. split; [reflexivity|].
  assert ("conv-1" <> "") as Hne by discriminate.
  destruct (@session_id_is_sent_on_the_next_turn (Sample.runtime []) Sample.opening_session Sample.timing_out
              "09:00" "09:01" "tester" (Sample.cli_case "hi") (Sample.cli_case "and then?") Sample.fresh_tool
              [("answer", JStr "ok"); ("conversation_id", JStr "conv-1")] 1%Q "conv-1"
              eq_refl eq_refl Hne eq_refl) as [_ Hcalls].
  exact Hcalls.
Defined.

(** A task at the pause wait of a paused run sleeps one second more. *)
Lemma paused_task_sleeps_a_second :
  Web.status Sample.paused_run = Web.Paused /\
  Web.test_cases Sample.waiting_task !! Web.next_case (Web.at_await Sample.waiting_task) = Some Sample.one_case /\
  @Web.resume (Sample.runtime []) Sample.env_ok Sample.paused_run Sample.waiting_task =
    (Sample.paused_run, Web.suspend (Web.AtPauseCheck 0) (Web.emit [Web.Sleep 1] Sample.waiting_task)).
Proof.
  split; [reflexivity|]. split; [reflexivity|].
  apply (@paused_task_only_polls (Sample.runtime []) Sample.env_ok Sample.paused_run Sample.waiting_task Sample.one_case);
    [reflexivity|reflexivity|].
  left. by exists 0%nat.
Defined.

(** Two cases, paused while the second waits for its retry: the task ends,
    and a resume request does not bring the run to completion. *)
Lemma paused_before_the_last_retry :
  Web.status (Web.state Sample.paused_server) = Web.Paused /\
  Web.tasks Sample.paused_server = [Sample.retrying_last_case] /\
  Web.test_cases Sample.retrying_last_case !! 1%nat = Some Sample.second_case /\
  Web.all_finished
    (@Web.run_events (Sample.runtime [])
       (Web.Wake 0 Sample.env_ok :: [Web.ReqResume; Web.Wake 0 Sample.env_ok; Web.ReqStatus])
       Sample.paused_server) /\
  Web.uncompleted
    (Web.status
       (Web.state
          (@Web.run_events (Sample.runtime [])
             (Web.Wake 0 Sample.env_ok :: [Web.ReqResume; Web.Wake 0 Sample.env_ok; Web.ReqStatus])
             Sample.paused_server))).
Proof.
  split; [reflexivity|]. split; [reflexivity|]. split; [reflexivity|].
  apply (@pause_in_last_retry_wait_blocks_completion (Sample.runtime []) Sample.env_ok Sample.paused_server
           Sample.retrying_last_case 1 0 Sample.pending_result None Sample.second_case
           [Web.ReqResume; Web.Wake 0 Sample.env_ok; Web.ReqStatus]);
    try reflexivity.
  - right. split; [by left|]. by eexists _, _.
  - repeat constructor.
Defined.

(** A task that wakes in a stopped run ends without a call. *)
Lemma stopped_task_makes_no_call :
  Web.status Sample.stopped_run = Web.Stopped /\
  Web.at_await (@Web.resume (Sample.runtime []) Sample.env_ok Sample.stopped_run Sample.waiting_task).2 = Web.Finished /\
  Web.outward (@Web.resume (Sample.runtime []) Sample.env_ok Sample.stopped_run Sample.waiting_task).2
    = Web.outward Sample.waiting_task.
Proof.
  split; [reflexivity|].
  destruct (@stopped_task_ends_without_a_call (Sample.runtime []) Sample.env_ok Sample.stopped_run Sample.waiting_task
              eq_refl I) as (Ha & Ho & _).
  by split.
Defined.

(** The segment of the last case: the run completes and the record it
    stored says running. *)
Lemma last_case_stored_while_running :
  Web.status (@Web.resume (Sample.runtime []) Sample.env_ok Sample.running_state Sample.between_cases).1 = Web.Completed /\
  Web.stored_as Web.Running (@Web.resume (Sample.runtime []) Sample.env_ok Sample.running_state Sample.between_cases).2.
Proof.
  split; [reflexivity|].
  destruct (@completed_run_is_stored_as_running (Sample.runtime []) Sample.env_ok Sample.running_state
              Sample.between_cases eq_refl) as [Hc|(_ & Hs & _)]; [discriminate|exact Hs].
Defined.

(** Two stored cases, both answered at once. *)
Lemma two_answered_cases_complete :
  Sample.started = ((Sample.started).1.1, (Sample.started).1.2, Some (default Sample.waiting_task (Sample.started).2)) /\
  Forall (@Web.sendable (Sample.runtime [])) [Sample.one_case; Sample.second_case] /\
  Forall Web.answered [Sample.env_ok; Sample.env_ok] /\
  Web.status
    (@Web.run_segments (Sample.runtime []) [Sample.env_ok; Sample.env_ok] (Sample.started).1.2
       (default Sample.waiting_task (Sample.started).2)).1 = Web.Completed /\
  Web.counts
    (@Web.run_segments (Sample.runtime []) [Sample.env_ok; Sample.env_ok] (Sample.started).1.2
       (default Sample.waiting_task (Sample.started).2)).1 = (2, 2, 2, 0)%nat.
Proof.
  assert (Hsend : Forall (@Web.sendable (Sample.runtime [])) [Sample.one_case; Sample.second_case]).
  { repeat constructor; by left. }
  assert (Hans : Forall Web.answered [Sample.env_ok; Sample.env_ok]).
  { repeat constructor; by eexists _, _, _. }
  split; [reflexivity|]. split; [exact Hsend|]. split; [exact Hans|].
  destruct (@answered_run_completes (Sample.runtime []) [Sample.one_case; Sample.second_case] [Sample.active]
              "run-1" "09:00" Web.initial_state (Sample.started).1.1 (Sample.started).1.2
              (default Sample.waiting_task (Sample.started).2) [Sample.env_ok; Sample.env_ok]
              eq_refl Hsend Hans eq_refl) as (Hs & Hc & _).
  split; [exact Hs|exact Hc].
Defined.
